(** * NanoleafSegments: panel command batching and streaming layer

    A shallow embedding of the Home Assistant integration
    [custom_components/nanoleaf_segments] ([__init__.py], [light.py],
    [group.py]) and the properties of its grouping engine, panel state
    store, command encoders and transport dispatcher.

    Conventions of the embedding:
    - Python [int] is [Z]; Python [float] is the kernel's binary64
      [PrimFloat.float], so that [brightness / 255] and [int(r * factor)]
      are computed bit for bit;
    - [bytes] is [list byte]; [str] is [string]; f-string formatting of an
      [int] is stdpp's [pretty];
    - an insertion-ordered [dict] that is iterated is an association list;
      the module-level state stores are [gmap string _];
    - code that may raise returns a [result]; code that talks to the
      network runs in the monad [M], which threads the list of I/O calls
      made so far and asks a [world] for the outcome of each call. *)

From Stdlib Require Import Ascii ZArith Lia Floats Reals Lra Strings.Byte.
From stdpp Require Import gmap strings list pretty sorting.

Local Open Scope Z_scope.

(** ** Exceptions and results *)

(** The exception classes that appear on the modelled paths. Each of them
    derives from Python's [Exception], so an [except Exception] clause
    catches every constructor of this type. *)
Inductive exn : Type :=
  | RequestsTimeout          (* requests.exceptions.Timeout *)
  | RequestsConnectionError  (* requests.exceptions.ConnectionError *)
  | RequestsHTTPError        (* requests.exceptions.HTTPError *)
  | OSError                  (* socket errors, BlockingIOError, gaierror *)
  | StructError              (* struct.error *)
  | ValueError
  | OverflowError
  | IndexError
  | JSONDecodeError.

Inductive result (A : Type) : Type :=
  | Ok (a : A)
  | Raise (e : exn).
Arguments Ok {A} a.
Arguments Raise {A} e.

(** Sequencing of code that may raise: [let* x := r in k] runs [k] on the
    value of [r], or propagates the exception [r] raised. *)
Definition result_bind {A B} (r : result A) (k : A → result B) : result B :=
  match r with
  | Ok a => k a
  | Raise e => Raise e
  end.

Notation "'let*' x ':=' r 'in' k" := (result_bind r (λ x, k))
  (at level 10, x pattern, r at level 100, k at level 200, only parsing).

Definition returns_normally {A} (r : result A) : Prop :=
  match r with Ok _ => True | Raise _ => False end.

(** ** Python numbers *)

(** [float(z)]: the binary64 value nearest to the integer [z]; exact
    whenever [|z| < 2^53], which covers every value of this program. *)
Definition float_of_int (z : Z) : float :=
  SF2Prim (binary_normalize prec emax z 0 false).

(** [a / b] on two ints (true division). For [|a|, |b| < 2^53] CPython
    converts both operands exactly and divides in binary64. *)
Definition py_truediv (a b : Z) : float :=
  PrimFloat.div (float_of_int a) (float_of_int b).

(** [z * f] with an int on the left and a float on the right. *)
Definition py_mul_int_float (z : Z) (f : float) : float :=
  PrimFloat.mul (float_of_int z) f.

(** [int(f)]: truncation toward zero; raises [OverflowError] on an
    infinity and [ValueError] on a NaN. *)
Definition py_int (f : float) : result Z :=
  match Prim2SF f with
  | S754_zero _ => Ok 0
  | S754_finite s m e =>
      let a := match e with
               | Zneg k => Z.shiftr (Zpos m) (Zpos k)
               | _ => Z.shiftl (Zpos m) e
               end in
      Ok (if s then - a else a)
  | S754_infinity _ => Raise OverflowError
  | S754_nan => Raise ValueError
  end.

(** ** Commanded state and brightness scaling *)

Definition rgb : Type := Z * Z * Z.

(** The dict stored per panel and per group:
    [{"is_on": ..., "brightness": ..., "rgb_color": ...}]. Every dict the
    program creates carries all three keys and the handlers only assign
    to these keys, so the defaults of [state.get(key, default)] are never
    taken and the dict is a record. *)
Record CommandedState : Type := {
  is_on : bool;
  brightness : Z;
  rgb_color : rgb;
}.

(** The literal [{"is_on": True, "brightness": 255, "rgb_color": (255, 255, 255)}]. *)
Definition default_state : CommandedState :=
  {| is_on := true; brightness := 255; rgb_color := (255, 255, 255) |}.

(** [int(c * factor)] for one channel. *)
Definition scale_channel (c : Z) (factor : float) : result Z :=
  py_int (py_mul_int_float c factor).

(** light.py 221-230 and 255-263, group.py 203-212:
<<
    if state.get("is_on", ...):
        r, g, b = state.get("rgb_color", (255, 255, 255))
        brightness = state.get("brightness", 255)
        factor = brightness / 255
        r = int(r * factor); g = int(g * factor); b = int(b * factor)
    else:
        r, g, b = 0, 0, 0
>> *)
Definition visible_color (st : CommandedState) : result rgb :=
  if is_on st then
    let '(r, g, b) := rgb_color st in
    let factor := py_truediv (brightness st) 255 in
    let* r' := scale_channel r factor in
    let* g' := scale_channel g factor in
    let* b' := scale_channel b factor in
    Ok (r', g', b')
  else Ok (0, 0, 0).

(** Brightness scaling of a single channel, [int(c * (b / 255))]. *)
Definition scale (c b : Z) : result Z :=
  scale_channel c (py_truediv b 255).

Definition byte_range (v : Z) : Prop := 0 ≤ v ≤ 255.

Definition valid_rgb (c : rgb) : Prop :=
  byte_range c.1.1 ∧ byte_range c.1.2 ∧ byte_range c.2.

(** The value ranges the light platform hands to the entity:
    brightness and each colour channel in 0..255. *)
Definition valid_state (st : CommandedState) : Prop :=
  byte_range (brightness st) ∧ valid_rgb (rgb_color st).

(** The pairs (channel, brightness) at which 255 divides the product but
    the binary64 quotient [brightness / 255] is rounded down, so that the
    product falls just short of the integer and truncation loses one. *)
Definition float_short : list (Z * Z) :=
  [ (51, 155); (75, 187); (85, 147); (85, 171); (102, 155); (150, 187);
    (153, 155); (153, 195); (165, 187); (170, 147); (170, 171); (204, 155) ].

(** What [scale] computes, in integer arithmetic. *)
Definition scale_int (c b : Z) : Z :=
  c * b / 255 - (if bool_decide ((c, b) ∈ float_short) then 1 else 0).

(** The scaling as the specification words it: [round(c * b / 255)].
    A tie would need [2 * c * b = 255 * (2 * k + 1)], an even number equal
    to an odd one, so rounding half up and half to even agree. *)
Definition round_scale (c b : Z) : Z := (2 * c * b + 255) / 510.

Definition spec_visible_color (st : CommandedState) : rgb :=
  if is_on st then
    let '(r, g, b) := rgb_color st in
    (round_scale r (brightness st), round_scale g (brightness st),
     round_scale b (brightness st))
  else (0, 0, 0).

(** *** Evaluation over all 256 x 256 channel and brightness values *)

Definition all_bytes : list Z := seqZ 0 256.

Definition table_check (P : Z → Z → bool) : bool :=
  forallb (λ c, forallb (P c) all_bytes) all_bytes.

Definition result_eqb (r : result Z) (z : Z) : bool :=
  match r with Ok s => s =? z | Raise _ => false end.

(** The colour a valid state shows, as a total function. *)
Definition shown (st : CommandedState) : rgb :=
  if is_on st then
    (scale_int (rgb_color st).1.1 (brightness st),
     scale_int (rgb_color st).1.2 (brightness st),
     scale_int (rgb_color st).2 (brightness st))
  else (0, 0, 0).

(** ** Panels and the grouping engine *)

(** One entry of the layout's [positionData], with the [angle_deg] key
    that [get_all_segments] attaches. The JSON keys are [panelId], [x],
    [y], [o] and [shapeType]. [round(raw_angle, 2)] is the double nearest
    to a multiple of 0.01; the field holds that multiple, the angle in
    hundredths of a degree, which orders the same way. *)
Record Panel : Type := {
  panelId : Z;
  pos_x : Z;
  pos_y : Z;
  orientation : Z;
  shapeType : Z;
  angle_deg : option Z;
}.

#[global] Instance Panel_eq_dec : EqDecision Panel.
Proof. solve_decision. Defined.

Definition DEFAULT_GROUP_SIZE : Z := 3.
Definition SHAPE_TYPE_LINE_SEGMENT : Z := 18.

(** [sorted(l, key=key)] compares keys with [<] only and is stable.
    [sort_insert] puts an element in front of the first one whose key is
    not smaller, so elements with equal keys keep their input order;
    [py_sorted_unique] below shows that every stable sort returns this
    list. *)
Fixpoint sort_insert {A} (key : A → Z) (a : A) (l : list A) : list A :=
  match l with
  | [] => [a]
  | b :: l' => if key b <? key a then b :: sort_insert key a l' else a :: l
  end.

Definition py_sorted {A} (key : A → Z) (l : list A) : list A :=
  foldr (sort_insert key) [] l.

Definition key_le {A} (key : A → Z) (a b : A) : Prop := key a ≤ key b.

(** What it means for [l'] to be [l] sorted by ascending key with ties
    in input order. *)
Definition stable_sort_of {A} (key : A → Z) (l l' : list A) : Prop :=
  Sorted (key_le key) l' ∧
  ∀ k, filter (λ a, key a = k) l' = filter (λ a, key a = k) l.

(** [range(start, stop, step)]: [ValueError] when [step] is 0. *)
Fixpoint range_up (fuel : nat) (i stop step : Z) : list Z :=
  match fuel with
  | O => []
  | S f => if i <? stop then i :: range_up f (i + step) stop step else []
  end.

Fixpoint range_down (fuel : nat) (i stop step : Z) : list Z :=
  match fuel with
  | O => []
  | S f => if stop <? i then i :: range_down f (i + step) stop step else []
  end.

Definition py_range (start stop step : Z) : result (list Z) :=
  if step =? 0 then Raise ValueError
  else if 0 <? step then Ok (range_up (Z.to_nat (stop - start)) start stop step)
  else Ok (range_down (Z.to_nat (start - stop)) start stop step).

(** [l[i:j]] for [0 <= i <= j]; bounds past the end are clamped. *)
Definition py_slice {A} (l : list A) (i j : Z) : list A :=
  take (Z.to_nat (j - i)) (drop (Z.to_nat i) l).

(** The sort key [lambda s: s.get("angle_deg", 0)]. *)
Definition angle_key (s : Panel) : Z := default 0 (angle_deg s).

(** group.py 55-66. *)
Definition create_groups_by_position (segments : list Panel) (group_size : Z)
    : result (list (list Panel)) :=
  let sorted_segments := py_sorted angle_key segments in
  let* starts := py_range 0 (Z.of_nat (length sorted_segments)) group_size in
  Ok ((λ i, py_slice sorted_segments i (i + group_size)) <$> starts).

(** [l[i]]: a negative index counts from the end; [IndexError] outside
    [-len(l) .. len(l) - 1]. *)
Definition py_getitem {A} (l : list A) (i : Z) : result A :=
  let j := if i <? 0 then i + Z.of_nat (length l) else i in
  if j <? 0 then Raise IndexError
  else match l !! Z.to_nat j with
       | Some a => Ok a
       | None => Raise IndexError
       end.

(** light.py 64:
    [[segments[i] for i in group_indices if i < len(segments)]]. *)
Fixpoint group_segments_of (segments : list Panel) (group_indices : list Z)
    : result (list Panel) :=
  match group_indices with
  | [] => Ok []
  | i :: rest =>
      if i <? Z.of_nat (length segments) then
        let* s := py_getitem segments i in
        let* r := group_segments_of segments rest in
        Ok (s :: r)
      else group_segments_of segments rest
  end.

(** light.py 62-66: the loop over [manual_groups]. *)
Fixpoint manual_groups_loop (segments : list Panel) (manual_groups : list (list Z))
    : result (list (list Panel)) :=
  match manual_groups with
  | [] => Ok []
  | group_indices :: rest =>
      let* group_segments := group_segments_of segments group_indices in
      let* groups := manual_groups_loop segments rest in
      Ok (match group_segments with
          | [] => groups
          | _ :: _ => group_segments :: groups
          end)
  end.

(** light.py 58-70: [entry.options.get(CONF_MANUAL_GROUPS)] is [None] or a
    list; an empty list is falsy and selects automatic grouping. *)
Definition setup_groups (segments : list Panel) (manual_groups : option (list (list Z)))
    : result (list (list Panel)) :=
  match manual_groups with
  | Some (g :: gs) => manual_groups_loop segments (g :: gs)
  | _ => create_groups_by_position segments DEFAULT_GROUP_SIZE
  end.

(** ** The device session and its two transports *)

(** The JSON bodies written to [/effects]:
    [{"write": {"command": "display", "animType": "custom",
                "animData": ..., "loop": False, "palette": []}}] and
    [{"write": {"command": "display", "animType": "extControl",
                "extControlVersion": "v2"}}]. *)
Inductive effect_data : Type :=
  | CustomAnimation (animData : string)
  | ExtControl.

(** The calls that leave the process. [requests.put] and [requests.get]
    carry their timeout in seconds. *)
Inductive io_call : Type :=
  | HttpPut (url : string) (body : effect_data) (timeout : float)
  | HttpGet (url : string) (timeout : float)
  | RaiseForStatus
  | ResponseJson
  | SocketCreate
  | SocketSetBlocking
  | UdpSendto (packet : list byte) (host : string) (port : option Z).

(** The outside world answers each call: [None] when it returns, [Some e]
    when it raises [e]. *)
Definition world : Type := io_call → option exn.

(** Code that performs I/O: it reads the world, may raise, and extends
    the list of calls made so far. *)
Definition M (A : Type) : Type := world → list io_call → result A * list io_call.

Definition io_ret {A} (a : A) : M A := λ _ tr, (Ok a, tr).

Definition io_bind {A B} (m : M A) (k : A → M B) : M B := λ w tr,
  match m w tr with
  | (Ok a, tr') => k a w tr'
  | (Raise e, tr') => (Raise e, tr')
  end.

Notation "'let!' x ':=' m 'in' k" := (io_bind m (λ x, k))
  (at level 10, x pattern, m at level 100, k at level 200, only parsing).

(** Code that may raise but performs no I/O. *)
Definition io_lift {A} (r : result A) : M A := λ _ tr, (r, tr).

(** One call: it is recorded whether it returns or raises. *)
Definition perform (c : io_call) : M unit := λ w tr,
  (match w c with None => Ok tt | Some e => Raise e end, tr ++ [c]).

(** [try: body except Exception as e: handler(e)]; every [exn] is an
    [Exception]. *)
Definition try_except {A} (body : M A) (handler : exn → M A) : M A := λ w tr,
  match body w tr with
  | (Ok a, tr') => (Ok a, tr')
  | (Raise e, tr') => handler e w tr'
  end.

Definition DEFAULT_PORT : Z := 16021.

Inductive socket : Type := UdpSocket.

(** The fields of [NanoleafAPI] that the transports read. *)
Record NanoleafAPI : Type := {
  host : string;
  token : string;
  _udp_socket : option socket;
  _udp_port : option Z;
  _external_control_enabled : bool;
}.

(** [NanoleafAPI.__init__]. *)
Definition NanoleafAPI_init (host token : string) : NanoleafAPI :=
  {| host := host; token := token; _udp_socket := None; _udp_port := None;
     _external_control_enabled := false |}.

(** [f"http://{host}:{DEFAULT_PORT}/api/v1/{token}"]. *)
Definition base_url (self : NanoleafAPI) : string :=
  "http://" +:+ host self +:+ ":" +:+ pretty DEFAULT_PORT +:+ "/api/v1/" +:+ token self.

(** __init__.py 180-205. The fields assigned before an exception keep
    their new value; the handler then clears the enabled flag. *)
Definition enable_external_control (self : NanoleafAPI) : M (bool * NanoleafAPI) :=
  let url := base_url self +:+ "/effects" in
  let disabled (s : NanoleafAPI) :=
    {| host := host s; token := token s; _udp_socket := _udp_socket s;
       _udp_port := _udp_port s; _external_control_enabled := false |} in
  try_except
    (let! _ := perform (HttpPut url ExtControl 3) in
     let! _ := perform RaiseForStatus in
     let! _ := perform (HttpGet (base_url self) 3) in
     let! _ := perform ResponseJson in
     let! _ := perform SocketCreate in
     let opened :=
       {| host := host self; token := token self; _udp_socket := Some UdpSocket;
          _udp_port := _udp_port self;
          _external_control_enabled := _external_control_enabled self |} in
     try_except
       (let! _ := perform SocketSetBlocking in
        io_ret (true,
                {| host := host self; token := token self;
                   _udp_socket := Some UdpSocket; _udp_port := Some 60222;
                   _external_control_enabled := true |}))
       (λ _, io_ret (false, disabled opened)))
    (λ _, io_ret (false, disabled self)).

(** The test [not self._external_control_enabled or not self._udp_socket]
    of [set_multiple_panels_udp], negated. *)
Definition streaming_enabled (self : NanoleafAPI) : bool :=
  _external_control_enabled self && bool_decide (is_Some (_udp_socket self)).

(** *** Control-plane encoding *)

(** [f"{panel_id} 1 {r} {g} {b} 0 {transition_time}"]. *)
Definition anim_part (panel_id : Z) (c : rgb) (transition_time : Z) : string :=
  let '(r, g, b) := c in
  pretty panel_id +:+ " 1 " +:+ pretty r +:+ " " +:+ pretty g +:+ " " +:+ pretty b
    +:+ " 0 " +:+ pretty transition_time.

(** [f"{num_panels} " + " ".join(anim_parts)]. *)
Definition anim_data_of (num_panels : nat) (anim_parts : list string) : string :=
  pretty num_panels +:+ " " +:+ String.concat " " anim_parts.

(** __init__.py 235-265. [panel_colors] is the dict in iteration order. *)
Definition set_multiple_panels (self : NanoleafAPI) (panel_colors : list (Z * rgb))
    (transition_time : Z) : M unit :=
  let url := base_url self +:+ "/effects" in
  let anim_parts :=
    (λ '(panel_id, c), anim_part panel_id c transition_time) <$> panel_colors in
  let num_panels := length panel_colors in
  let anim_data := anim_data_of num_panels anim_parts in
  try_except
    (perform (HttpPut url (CustomAnimation anim_data) 0.5))
    (λ e, match e with
          | RequestsTimeout => io_ret tt   (* except requests.exceptions.Timeout: pass *)
          | _ => io_ret tt                 (* except Exception: pass *)
          end).

(** *** Streaming encoding *)

Definition byte_of_Z (v : Z) : byte := default Byte.x00 (Byte.of_N (Z.to_N v)).
Definition Z_of_byte (b : byte) : Z := Z.of_N (Byte.to_N b).

(** [struct.pack('>H', v)]: two bytes, high byte first; [struct.error]
    outside 0..65535. *)
Definition pack_H (v : Z) : result (list byte) :=
  if (0 <=? v) && (v <=? 65535)
  then Ok [byte_of_Z (Z.shiftr v 8); byte_of_Z (Z.land v 255)]
  else Raise StructError.

(** [struct.pack('>B', v)]: [struct.error] outside 0..255. *)
Definition pack_B (v : Z) : result (list byte) :=
  if (0 <=? v) && (v <=? 255) then Ok [byte_of_Z v] else Raise StructError.

(** [struct.pack('>HBBBBH', panel_id, r, g, b, w, trans_time)]. *)
Definition pack_HBBBBH (panel_id r g b w trans_time : Z) : result (list byte) :=
  let* b_id := pack_H panel_id in
  let* b_r := pack_B r in
  let* b_g := pack_B g in
  let* b_b := pack_B b in
  let* b_w := pack_B w in
  let* b_t := pack_H trans_time in
  Ok (b_id ++ b_r ++ b_g ++ b_b ++ b_w ++ b_t).

(** The loop [for panel_id, (r, g, b) in panel_colors.items():
    packet += struct.pack('>HBBBBH', panel_id, r, g, b, 0, trans_time)]. *)
Fixpoint pack_panels (panel_colors : list (Z * rgb)) (trans_time : Z)
    (packet : list byte) : result (list byte) :=
  match panel_colors with
  | [] => Ok packet
  | (panel_id, (r, g, b)) :: rest =>
      let* entry := pack_HBBBBH panel_id r g b 0 trans_time in
      pack_panels rest trans_time (packet ++ entry)
  end.

(** __init__.py 215-226: the packet, before it is sent. *)
Definition build_packet (panel_colors : list (Z * rgb)) (smooth : bool)
    : result (list byte) :=
  let num_panels := Z.of_nat (length panel_colors) in
  let* packet := pack_H num_panels in
  let trans_time := if smooth then 2 else 0 in
  pack_panels panel_colors trans_time packet.

(** __init__.py 207-233. *)
Definition set_multiple_panels_udp (self : NanoleafAPI)
    (panel_colors : list (Z * rgb)) (smooth : bool) : M unit :=
  if negb (streaming_enabled self) then set_multiple_panels self panel_colors 0
  else
    try_except
      (let! packet := io_lift (build_packet panel_colors smooth) in
       perform (UdpSendto packet (host self) (_udp_port self)))
      (λ err, set_multiple_panels self panel_colors 0).

(** *** The datagram as the specification lays it out *)

Definition be16 (v : Z) : list byte := [byte_of_Z (v / 256); byte_of_Z (v mod 256)].

Definition frame_entry_bytes (trans : Z) (pc : Z * rgb) : list byte :=
  let '(panel_id, (r, g, b)) := pc in
  be16 panel_id ++ [byte_of_Z r; byte_of_Z g; byte_of_Z b; Byte.x00] ++ be16 trans.

Definition frame_bytes (panel_colors : list (Z * rgb)) (trans : Z) : list byte :=
  be16 (Z.of_nat (length panel_colors))
    ++ concat (frame_entry_bytes trans <$> panel_colors).

(** One decoded 8-byte record of a datagram. *)
Record frame_entry : Type := {
  fe_panel_id : Z;
  fe_r : Z;
  fe_g : Z;
  fe_b : Z;
  fe_reserved : Z;
  fe_transition : Z;
}.

Definition decode_be16 (hi lo : byte) : Z := Z_of_byte hi * 256 + Z_of_byte lo.

Fixpoint decode_entries (n : nat) (bs : list byte) : option (list frame_entry) :=
  match n, bs with
  | O, [] => Some []
  | S n', i1 :: i0 :: r :: g :: b :: w :: t1 :: t0 :: rest =>
      match decode_entries n' rest with
      | Some es =>
          Some ({| fe_panel_id := decode_be16 i1 i0; fe_r := Z_of_byte r;
                   fe_g := Z_of_byte g; fe_b := Z_of_byte b;
                   fe_reserved := Z_of_byte w;
                   fe_transition := decode_be16 t1 t0 |} :: es)
      | None => None
      end
  | _, _ => None
  end.

(** The receiver's reading of a datagram: the count, then that many
    records and nothing after them. *)
Definition decode_frame (bs : list byte) : option (Z * list frame_entry) :=
  match bs with
  | c1 :: c0 :: rest =>
      let n := decode_be16 c1 c0 in
      match decode_entries (Z.to_nat n) rest with
      | Some es => Some (n, es)
      | None => None
      end
  | _ => None
  end.

Definition entry_of (trans : Z) (pc : Z * rgb) : frame_entry :=
  {| fe_panel_id := pc.1; fe_r := pc.2.1.1; fe_g := pc.2.1.2; fe_b := pc.2.2;
     fe_reserved := 0; fe_transition := trans |}.

(** One entry fits its 8-byte record. *)
Definition entry_fits (pc : Z * rgb) : Prop := 0 ≤ pc.1 < 65536 ∧ valid_rgb pc.2.

#[global] Instance entry_fits_dec pc : Decision (entry_fits pc).
Proof. unfold entry_fits, valid_rgb, byte_range. apply _. Defined.

(** A mapping whose every field fits the datagram: ids in 0..65535,
    channels in 0..255, fewer than 65536 entries. *)
Definition fits_frame (panel_colors : list (Z * rgb)) : Prop :=
  Z.of_nat (length panel_colors) < 65536 ∧
  Forall entry_fits panel_colors.

#[global] Instance fits_frame_dec pcs : Decision (fits_frame pcs).
Proof. unfold fits_frame. apply _. Defined.

(** The one control-plane write of [set_multiple_panels]. *)
Definition reliable_put (self : NanoleafAPI) (panel_colors : list (Z * rgb))
    (transition_time : Z) : io_call :=
  HttpPut (base_url self +:+ "/effects")
    (CustomAnimation
       (anim_data_of (length panel_colors)
          ((λ '(panel_id, c), anim_part panel_id c transition_time) <$> panel_colors)))
    0.5.

(** The datagrams among the calls made. *)
Definition datagrams (tr : list io_call) : list (list byte) :=
  omap (λ c, match c with UdpSendto p _ _ => Some p | _ => None end) tr.

(** ** Entities: one light per segment, one light per group *)

(** A number that is an [int] or a [float], as the [transition] argument
    is: the default is the int 0, the platform passes a float. *)
Inductive pynum : Type :=
  | PyInt (z : Z)
  | PyFloat (f : float).

(** [int(transition * 10)]. *)
Definition transition_tenths (transition : pynum) : result Z :=
  match transition with
  | PyInt z => Ok (z * 10)
  | PyFloat f => py_int (PrimFloat.mul f 10)
  end.

(** The keyword arguments of [async_turn_on] that the entity reads. *)
Record turn_on_kwargs : Type := {
  kw_brightness : option Z;     (* ATTR_BRIGHTNESS *)
  kw_rgb_color : option rgb;    (* ATTR_RGB_COLOR *)
  kw_transition : option pynum; (* ATTR_TRANSITION *)
}.

Definition valid_kwargs (kw : turn_on_kwargs) : Prop :=
  from_option byte_range True (kw_brightness kw) ∧
  from_option valid_rgb True (kw_rgb_color kw).

(** What the entity reads of [self.coordinator]: [coordinator.api] and
    [coordinator.data["segments"]]. *)
Record Coordinator : Type := {
  api : NanoleafAPI;
  segments : list Panel;
}.

(** The assignments of [async_turn_on] to the state dict. *)
Definition turned_on (kw : turn_on_kwargs) (st : CommandedState) : CommandedState :=
  {| is_on := true;
     brightness := default (brightness st) (kw_brightness kw);
     rgb_color := default (rgb_color st) (kw_rgb_color kw) |}.

(** The assignment of [async_turn_off]. *)
Definition turned_off (st : CommandedState) : CommandedState :=
  {| is_on := false; brightness := brightness st; rgb_color := rgb_color st |}.

(** [STATES.get(key, {"is_on": True, "brightness": 255, ...})]. *)
Definition state_get (store : gmap string CommandedState) (key : string)
    : CommandedState :=
  default default_state (store !! key).

(** *** light.py *)

Record NanoleafSegmentLight : Type := {
  seg_entry_id : string;   (* self._entry.entry_id *)
  _panel_id : Z;
  seg_index : nat;         (* self._index *)
}.

(** [f"{entry.entry_id}_{panel_id}"], the key into [SEGMENT_STATES]. *)
Definition segment_state_key (entry_id : string) (panel_id : Z) : string :=
  entry_id +:+ "_" +:+ pretty panel_id.

(** light.py 91-123: the constructor stores the default state under the
    entity's key unless the key is present. *)
Definition NanoleafSegmentLight_init (entry_id : string) (segment : Panel)
    (index : nat) (SEGMENT_STATES : gmap string CommandedState)
    : NanoleafSegmentLight * gmap string CommandedState :=
  let state_key := segment_state_key entry_id (panelId segment) in
  ({| seg_entry_id := entry_id; _panel_id := panelId segment; seg_index := index |},
   match SEGMENT_STATES !! state_key with
   | Some _ => SEGMENT_STATES
   | None => <[state_key := default_state]> SEGMENT_STATES
   end).

(** light.py 240-265: the loop that builds [anim_parts]. *)
Fixpoint panel_anim_parts (self : NanoleafSegmentLight)
    (SEGMENT_STATES : gmap string CommandedState) (color : rgb)
    (transition_time : Z) (all_segments : list Panel) : result (list string) :=
  match all_segments with
  | [] => Ok []
  | seg :: rest =>
      let seg_panel_id := panelId seg in
      let seg_state_key := segment_state_key (seg_entry_id self) seg_panel_id in
      let* part :=
        if seg_panel_id =? _panel_id self then
          Ok (anim_part seg_panel_id color transition_time)
        else
          let seg_state := state_get SEGMENT_STATES seg_state_key in
          let* seg_color := visible_color seg_state in
          Ok (anim_part seg_panel_id seg_color transition_time)
      in
      let* parts := panel_anim_parts self SEGMENT_STATES color transition_time rest in
      Ok (part :: parts)
  end.

(** light.py 215-293. *)
Definition _async_set_panel_color (self : NanoleafSegmentLight)
    (coordinator : Coordinator) (SEGMENT_STATES : gmap string CommandedState)
    (transition : pynum) : M unit :=
  try_except
    (let state :=
       state_get SEGMENT_STATES
         (segment_state_key (seg_entry_id self) (_panel_id self)) in
     let! color := io_lift (visible_color state) in
     let! transition_time := io_lift (transition_tenths transition) in
     let all_segments := segments coordinator in
     let! anim_parts :=
       io_lift (panel_anim_parts self SEGMENT_STATES color transition_time all_segments) in
     let num_panels := length all_segments in
     let anim_data := anim_data_of num_panels anim_parts in
     let url := base_url (api coordinator) +:+ "/effects" in
     perform (HttpPut url (CustomAnimation anim_data) 5))
    (λ err, io_ret tt).

(** light.py 187-202. [state = self._segment_state] is the stored dict
    itself when the key is present, so the assignments update the store;
    when the key is absent they land in a temporary dict and are lost,
    which is what [alter] does. The result is the store after the
    assignments and the I/O that follows. *)
Definition async_turn_on (self : NanoleafSegmentLight) (coordinator : Coordinator)
    (kwargs : turn_on_kwargs) (SEGMENT_STATES : gmap string CommandedState)
    : gmap string CommandedState * M unit :=
  let key := segment_state_key (seg_entry_id self) (_panel_id self) in
  let store := alter (turned_on kwargs) key SEGMENT_STATES in
  let transition := default (PyInt 0) (kw_transition kwargs) in
  (store, _async_set_panel_color self coordinator store transition).

(** light.py 204-213. *)
Definition async_turn_off (self : NanoleafSegmentLight) (coordinator : Coordinator)
    (kw_transition : option pynum) (SEGMENT_STATES : gmap string CommandedState)
    : gmap string CommandedState * M unit :=
  let key := segment_state_key (seg_entry_id self) (_panel_id self) in
  let store := alter turned_off key SEGMENT_STATES in
  let transition := default (PyInt 0) kw_transition in
  (store, _async_set_panel_color self coordinator store transition).

(** *** group.py *)

Record NanoleafSegmentGroup : Type := {
  grp_entry_id : string;   (* self._entry.entry_id *)
  _panel_ids : list Z;
  grp_index : nat;         (* self._index *)
}.

(** [f"{entry.entry_id}_group_{index}"], the key into [GROUP_STATES]. *)
Definition group_state_key (entry_id : string) (index : nat) : string :=
  entry_id +:+ "_group_" +:+ pretty index.

(** group.py 77-109. *)
Definition NanoleafSegmentGroup_init (entry_id : string) (group_segments : list Panel)
    (index : nat) (GROUP_STATES : gmap string CommandedState)
    : NanoleafSegmentGroup * gmap string CommandedState :=
  let state_key := group_state_key entry_id index in
  ({| grp_entry_id := entry_id; _panel_ids := panelId <$> group_segments;
      grp_index := index |},
   match GROUP_STATES !! state_key with
   | Some _ => GROUP_STATES
   | None => <[state_key := default_state]> GROUP_STATES
   end).

(** [d[k] = v] on a dict kept in iteration order: a present key keeps its
    position, a new key goes last. *)
Fixpoint dict_set {V} (k : Z) (v : V) (d : list (Z * V)) : list (Z * V) :=
  match d with
  | [] => [(k, v)]
  | (k', v') :: d' =>
      if decide (k = k') then (k, v) :: d' else (k', v') :: dict_set k v d'
  end.

(** group.py 215-217:
    [panel_colors = {}; for panel_id in self._panel_ids:
     panel_colors[panel_id] = (r, g, b)]. *)
Definition group_panel_colors (panel_ids : list Z) (color : rgb) : list (Z * rgb) :=
  foldl (λ panel_colors panel_id, dict_set panel_id color panel_colors) [] panel_ids.

(** group.py 197-239. The inner handler re-submits the same batch through
    the event loop; the [transition] argument is not read. *)
Definition _async_set_group_color (self : NanoleafSegmentGroup)
    (coordinator : Coordinator) (GROUP_STATES : gmap string CommandedState)
    (transition : pynum) : M unit :=
  try_except
    (let state :=
       state_get GROUP_STATES (group_state_key (grp_entry_id self) (grp_index self)) in
     let! color := io_lift (visible_color state) in
     let panel_colors := group_panel_colors (_panel_ids self) color in
     try_except
       (set_multiple_panels_udp (api coordinator) panel_colors true)
       (λ _, set_multiple_panels_udp (api coordinator) panel_colors true))
    (λ err, io_ret tt).

(** group.py 169-184. *)
Definition group_async_turn_on (self : NanoleafSegmentGroup) (coordinator : Coordinator)
    (kwargs : turn_on_kwargs) (GROUP_STATES : gmap string CommandedState)
    : gmap string CommandedState * M unit :=
  let key := group_state_key (grp_entry_id self) (grp_index self) in
  let store := alter (turned_on kwargs) key GROUP_STATES in
  let transition := default (PyInt 0) (kw_transition kwargs) in
  (store, _async_set_group_color self coordinator store transition).

(** group.py 186-195. *)
Definition group_async_turn_off (self : NanoleafSegmentGroup) (coordinator : Coordinator)
    (kw_transition : option pynum) (GROUP_STATES : gmap string CommandedState)
    : gmap string CommandedState * M unit :=
  let key := group_state_key (grp_entry_id self) (grp_index self) in
  let store := alter turned_off key GROUP_STATES in
  let transition := default (PyInt 0) kw_transition in
  (store, _async_set_group_color self coordinator store transition).

(** *** The command as the specification words it *)

(** The numbers of a custom-animation command: the panel count, then per
    panel its id, a frame count of 1, R, G, B, a white channel of 0 and
    the transition. *)
Definition anim_tokens (entries : list (Z * rgb)) (transition_time : Z) : list Z :=
  Z.of_nat (length entries)
    :: concat ((λ '(panel_id, (r, g, b)), [panel_id; 1; r; g; b; 0; transition_time])
                 <$> entries).

(** Numbers in decimal, separated by single spaces. *)
Definition tokens_text (tokens : list Z) : string :=
  String.concat " " (pretty <$> tokens).

(** Every panel of the layout, in layout order: the targeted panel with
    the new colour, every other panel with the colour its stored state
    shows (the default state when the store has no entry). *)
Definition snapshot_entries (entry_id : string) (target : Z) (new_color : rgb)
    (store : gmap string CommandedState) (layout : list Panel) : list (Z * rgb) :=
  (λ seg, (panelId seg,
           if decide (panelId seg = target) then new_color
           else shown (state_get store (segment_state_key entry_id (panelId seg)))))
    <$> layout.

(** Every stored state holds values in 0..255. *)
Definition valid_store (store : gmap string CommandedState) : Prop :=
  map_Forall (λ _ st, valid_state st) store.

(** A per-entity operation: [turn_on(brightness?, rgb?, transition?)] or
    [turn_off(transition?)]. *)
Inductive entity_update : Type :=
  | TurnOn (kwargs : turn_on_kwargs)
  | TurnOff (transition : option pynum).

Definition update_transition (u : entity_update) : pynum :=
  match u with
  | TurnOn kwargs => default (PyInt 0) (kw_transition kwargs)
  | TurnOff transition => default (PyInt 0) transition
  end.

Definition valid_update (u : entity_update) : Prop :=
  match u with
  | TurnOn kwargs => valid_kwargs kwargs
  | TurnOff _ => True
  end.

(** The state an update commands, given the state before it. *)
Definition commanded (u : entity_update) (st : CommandedState) : CommandedState :=
  match u with
  | TurnOn kwargs => turned_on kwargs st
  | TurnOff _ => turned_off st
  end.

Definition segment_update (self : NanoleafSegmentLight) (coordinator : Coordinator)
    (u : entity_update) (SEGMENT_STATES : gmap string CommandedState)
    : gmap string CommandedState * M unit :=
  match u with
  | TurnOn kwargs => async_turn_on self coordinator kwargs SEGMENT_STATES
  | TurnOff transition => async_turn_off self coordinator transition SEGMENT_STATES
  end.

Definition group_update (self : NanoleafSegmentGroup) (coordinator : Coordinator)
    (u : entity_update) (GROUP_STATES : gmap string CommandedState)
    : gmap string CommandedState * M unit :=
  match u with
  | TurnOn kwargs => group_async_turn_on self coordinator kwargs GROUP_STATES
  | TurnOff transition => group_async_turn_off self coordinator transition GROUP_STATES
  end.

(** ** The layout resolver *)

(** [get_all_segments] computes with [math.atan2] and [math.degrees],
    whose results depend on the platform's libm. The angle computation is
    therefore modelled over the real numbers: the float operations are
    taken as exact, and the one rounding kept is the explicit
    [round(raw_angle, 2)], to the nearest hundredth with ties to even. *)
Section layout_resolver.
Local Open Scope R_scope.

(** [math.atan2(y, x)]. *)
Definition atan2 (y x : R) : R :=
  if Rlt_dec 0 x then atan (y / x)
  else if Rlt_dec x 0 then
    if Rle_dec 0 y then atan (y / x) + PI else atan (y / x) - PI
  else if Rlt_dec 0 y then PI / 2
  else if Rlt_dec y 0 then - (PI / 2)
  else 0.

(** [math.degrees(r)]. *)
Definition degrees (r : R) : R := r * 180 / PI.

(** [a % n] for a positive [n]: the remainder has the sign of [n]. *)
Definition py_fmod (a n : R) : R := a - n * IZR (Zfloor (a / n)).

(** The nearest integer, ties to the even one. *)
Definition round_half_even (r : R) : Z :=
  let f := Zfloor r in
  if Rlt_dec (r - IZR f) (1 / 2) then f
  else if Rlt_dec (1 / 2) (r - IZR f) then (f + 1)%Z
  else if Z.even f then f else (f + 1)%Z.

(** [round(a, 2)], in hundredths. *)
Definition py_round2 (a : R) : Z := round_half_even (a * 100).

Definition with_angle (p : Panel) (a : Z) : Panel :=
  {| panelId := panelId p; pos_x := pos_x p; pos_y := pos_y p;
     orientation := orientation p; shapeType := shapeType p;
     angle_deg := Some a |}.

(** [sum(p[...] for p in segments)] over ints. *)
Definition sum_of (f : Panel → Z) (segments : list Panel) : Z :=
  foldr (λ p acc, (f p + acc)%Z) 0%Z segments.

(** The angle of one panel about the centroid [(cx, cy)], in hundredths
    of a degree. *)
Definition panel_angle (cx cy : R) (p : Panel) : Z :=
  let raw_angle :=
    py_fmod (degrees (atan2 (IZR (pos_y p) - cy) (IZR (pos_x p) - cx)) + 360) 360 in
  py_round2 raw_angle.

(** __init__.py 267-287, applied to [layout.get("positionData", [])]. *)
Definition get_all_segments (positionData : list Panel) : list Panel :=
  let segments :=
    filter (λ panel, shapeType panel = SHAPE_TYPE_LINE_SEGMENT) positionData in
  match segments with
  | [] => segments
  | _ :: _ =>
      let cx := IZR (sum_of pos_x segments) / INR (length segments) in
      let cy := IZR (sum_of pos_y segments) / INR (length segments) in
      (λ p, with_angle p (panel_angle cx cy p)) <$> segments
  end.


End layout_resolver.

(** ** Further operations of the device session *)

(** __init__.py 161-178: the single-panel command kept for backwards
    compatibility. The write has the 5 second timeout and is followed by
    [response.raise_for_status()]; nothing is caught. *)
Definition set_panel_color (self : NanoleafAPI) (panel_id r g b transition_time : Z)
    : M unit :=
  let url := base_url self +:+ "/effects" in
  let anim_data :=
    "1 " +:+ pretty panel_id +:+ " 1 " +:+ pretty r +:+ " " +:+ pretty g +:+ " "
      +:+ pretty b +:+ " 0 " +:+ pretty transition_time in
  let! _ := perform (HttpPut url (CustomAnimation anim_data) 5) in
  perform RaiseForStatus.

(** The calls of [enable_external_control], in the order it makes them. *)
Definition negotiation_calls (self : NanoleafAPI) : list io_call :=
  [ HttpPut (base_url self +:+ "/effects") ExtControl 3; RaiseForStatus;
    HttpGet (base_url self) 3; ResponseJson; SocketCreate; SocketSetBlocking ].

(** ** What an entity reports *)

(** What the properties read of [coordinator.data]: [None] while the
    coordinator has no data, otherwise the value of
    [data["state"]["on"]["value"]] when the device reported one. *)
Definition global_on (data : option (option bool)) : bool :=
  match data with
  | Some (Some value) => value
  | _ => true       (* .get("value", True) *)
  end.

(** light.py 154-163. *)
Definition segment_is_on (self : NanoleafSegmentLight)
    (SEGMENT_STATES : gmap string CommandedState) (data : option (option bool)) : bool :=
  let state :=
    state_get SEGMENT_STATES (segment_state_key (seg_entry_id self) (_panel_id self)) in
  match data with
  | Some _ => is_on state && global_on data
  | None => is_on state
  end.

(** light.py 165-168. *)
Definition segment_brightness (self : NanoleafSegmentLight)
    (SEGMENT_STATES : gmap string CommandedState) : Z :=
  brightness
    (state_get SEGMENT_STATES (segment_state_key (seg_entry_id self) (_panel_id self))).

(** light.py 170-173. *)
Definition segment_rgb_color (self : NanoleafSegmentLight)
    (SEGMENT_STATES : gmap string CommandedState) : rgb :=
  rgb_color
    (state_get SEGMENT_STATES (segment_state_key (seg_entry_id self) (_panel_id self))).

(** ** Platform setup *)

(** light.py 45-48: one entity per segment, numbered by [enumerate]; each
    constructor runs against the store the previous ones left. *)
Fixpoint segment_entities (entry_id : string) (idx : nat) (segments : list Panel)
    (SEGMENT_STATES : gmap string CommandedState)
    : list NanoleafSegmentLight * gmap string CommandedState :=
  match segments with
  | [] => ([], SEGMENT_STATES)
  | segment :: rest =>
      let '(entity, store) := NanoleafSegmentLight_init entry_id segment idx SEGMENT_STATES in
      let '(entities, store') := segment_entities entry_id (S idx) rest store in
      (entity :: entities, store')
  end.

(** light.py 72-75. *)
Fixpoint group_entities (entry_id : string) (idx : nat) (groups : list (list Panel))
    (GROUP_STATES : gmap string CommandedState)
    : list NanoleafSegmentGroup * gmap string CommandedState :=
  match groups with
  | [] => ([], GROUP_STATES)
  | group_segments :: rest =>
      let '(entity, store) :=
        NanoleafSegmentGroup_init entry_id group_segments idx GROUP_STATES in
      let '(entities, store') := group_entities entry_id (S idx) rest store in
      (entity :: entities, store')
  end.

(** light.py 30-80. The result is what [async_add_entities] receives, or
    the exception that leaves the function, together with the two stores
    as the constructors that ran have left them. *)
Definition async_setup_entry (entry_id : string) (coordinator : Coordinator)
    (create_groups : bool) (manual_groups : option (list (list Z)))
    (SEGMENT_STATES GROUP_STATES : gmap string CommandedState)
    : result (list NanoleafSegmentLight * list NanoleafSegmentGroup)
      * (gmap string CommandedState * gmap string CommandedState) :=
  let segments := segments coordinator in
  let '(entities, seg_store) := segment_entities entry_id 0 segments SEGMENT_STATES in
  if create_groups then
    match setup_groups segments manual_groups with
    | Ok groups =>
        let '(group_entities, grp_store) :=
          group_entities entry_id 0 groups GROUP_STATES in
        (Ok (entities, group_entities), (seg_store, grp_store))
    | Raise e => (Raise e, (seg_store, GROUP_STATES))
    end
  else (Ok (entities, []), (seg_store, GROUP_STATES)).

(** A group as setup hands it to a group entity: not empty, and made of
    panels of the layout. *)
Definition group_of_layout (segments : list Panel) (g : list Panel) : Prop :=
  g ≠ [] ∧ Forall (.∈ segments) g.

(** ** Options flow: manual groups as text *)

(** Python strings are taken over the code points 0..255, one [ascii]
    per code point. *)
Definition code_point (c : ascii) : Z := Z.of_N (N_of_ascii c).

(** [str.isspace] on one character: TAB..CR, FS..US, space, NEL, NBSP. *)
Definition py_isspace (c : ascii) : bool :=
  let n := code_point c in
  ((9 <=? n) && (n <=? 13)) || ((28 <=? n) && (n <=? 32)) || (n =? 133) || (n =? 160).

(** The characters that [int] skips at both ends of a string. *)
Definition int_space (c : ascii) : bool :=
  let n := code_point c in
  ((9 <=? n) && (n <=? 13)) || (n =? 32) || (n =? 133) || (n =? 160).

Fixpoint lstrip_with (space : ascii → bool) (s : string) : string :=
  match s with
  | EmptyString => EmptyString
  | String c s' => if space c then lstrip_with space s' else s
  end.

Fixpoint rstrip_with (space : ascii → bool) (s : string) : string :=
  match s with
  | EmptyString => EmptyString
  | String c s' =>
      match rstrip_with space s' with
      | EmptyString => if space c then EmptyString else String c EmptyString
      | r => String c r
      end
  end.

(** [s.strip()]. *)
Definition py_strip (s : string) : string :=
  rstrip_with py_isspace (lstrip_with py_isspace s).

(** [s.split(sep)] for a separator of one character: always at least
    one piece. *)
Fixpoint py_split (sep : ascii) (s : string) : list string :=
  match s with
  | EmptyString => [EmptyString]
  | String c s' =>
      if decide (c = sep) then EmptyString :: py_split sep s'
      else match py_split sep s' with
           | piece :: pieces => String c piece :: pieces
           | [] => [String c EmptyString]
           end
  end.

Definition digit_of (c : ascii) : option Z :=
  let n := code_point c in
  if (48 <=? n) && (n <=? 57) then Some (n - 48) else None.

(** The digits of an [int] literal in base 10: decimal digits, with
    single underscores allowed between two digits. The result is the
    value and the number of digits read. *)
Fixpoint int_digits (s : string) (value digits : Z) (after_digit : bool)
    : option (Z * Z) :=
  match s with
  | EmptyString => if after_digit then Some (value, digits) else None
  | String c s' =>
      if decide (c = "_"%char) then
        if after_digit then int_digits s' value digits false else None
      else
        match digit_of c with
        | Some d => int_digits s' (10 * value + d) (digits + 1) true
        | None => None
        end
  end.

(** [sys.get_int_max_str_digits()], at its default. *)
Definition int_max_str_digits : Z := 4300.

(** [int(s)] for a string [s]: optional surrounding whitespace, an
    optional sign, then the digits; [ValueError] for anything else and
    for more than [int_max_str_digits] digits. *)
Definition py_int_of_str (s : string) : result Z :=
  let t := rstrip_with int_space (lstrip_with int_space s) in
  let '(sign, body) :=
    match t with
    | String c b =>
        if decide (c = "-"%char) then (-1, b)
        else if decide (c = "+"%char) then (1, b)
        else (1, t)
    | EmptyString => (1, t)
    end in
  match int_digits body 0 0 false with
  | Some (value, digits) =>
      if int_max_str_digits <? digits then Raise ValueError else Ok (sign * value)
  | None => Raise ValueError
  end.

(** [str(i)] for an int [i]: [ValueError] when it has more than
    [int_max_str_digits] digits. *)
Definition py_str_of_int (i : Z) : result string :=
  if int_max_str_digits <? Z.of_nat (String.length (pretty (Z.abs i)))
  then Raise ValueError else Ok (pretty i).

(** config_flow.py 334: [[int(x.strip()) for x in group_str.split(",")]]. *)
Fixpoint parse_indices (xs : list string) : result (list Z) :=
  match xs with
  | [] => Ok []
  | x :: rest =>
      let* i := py_int_of_str (py_strip x) in
      let* indices := parse_indices rest in
      Ok (i :: indices)
  end.

(** config_flow.py 329-338: the loop over the pieces between
    semicolons. The handler turns a [ValueError] into a [ValueError]. *)
Fixpoint parse_groups (pieces : list string) : result (list (list Z)) :=
  match pieces with
  | [] => Ok []
  | group_str :: rest =>
      let group_str := py_strip group_str in
      match group_str with
      | EmptyString => parse_groups rest
      | _ =>
          let* indices :=
            match parse_indices (py_split ","%char group_str) with
            | Raise ValueError => Raise ValueError
            | r => r
            end in
          let* groups := parse_groups rest in
          Ok (indices :: groups)
      end
  end.

(** config_flow.py 324-341. *)
Definition _parse_group_config (config_str : string) : result (list (list Z)) :=
  match py_strip config_str with
  | EmptyString => Ok []
  | stripped => parse_groups (py_split ";"%char stripped)
  end.

(** [",".join(map(str, g))]. *)
Fixpoint str_all (g : list Z) : result (list string) :=
  match g with
  | [] => Ok []
  | i :: rest =>
      let* s := py_str_of_int i in
      let* strs := str_all rest in
      Ok (s :: strs)
  end.

Fixpoint join_groups (current_groups : list (list Z)) : result (list string) :=
  match current_groups with
  | [] => Ok []
  | g :: rest =>
      let* strs := str_all g in
      let* parts := join_groups rest in
      Ok (String.concat "," strs :: parts)
  end.

(** config_flow.py 307-308: the text shown for the stored groups,
    [group_str]. *)
Definition group_str (current_groups : list (list Z)) : result string :=
  match current_groups with
  | [] => Ok EmptyString
  | _ =>
      let* parts := join_groups current_groups in
      Ok (String.concat "; " parts)
  end.

(** Every character of [s] satisfies [p]. *)
Fixpoint all_chars (p : ascii → bool) (s : string) : bool :=
  match s with
  | EmptyString => true
  | String c s' => p c && all_chars p s'
  end.

(** The characters of a printed int, and those of a printed group. *)
Definition numeric_char (c : ascii) : bool :=
  bool_decide (is_Some (digit_of c)) || bool_decide (c = "-"%char).

Definition index_char (c : ascii) : bool :=
  numeric_char c || bool_decide (c = ","%char).

(** The ints that [str] prints and [int] reads back: those of at most
    [int_max_str_digits] digits. *)
Definition printable (i : Z) : Prop :=
  Z.of_nat (String.length (pretty (Z.abs i))) ≤ int_max_str_digits.

(** *** Printed groups *)

(** [",".join(map(str, g))] when every [str] returns. *)
Definition group_text (g : list Z) : string := String.concat "," (pretty <$> g).

(** ** The batch service *)





(** ** Reading the device *)

(** What the device answers to the two reads when the request succeeds:
    the value of [state["on"]["value"]], when the state has one, and the
    [positionData] list of the layout. *)
Record DeviceAnswers : Type := {
  answer_on : option bool;
  answer_positionData : list Panel;
}.

(** __init__.py 132-137, followed by [layout.get("positionData", [])]. *)
Definition get_layout (self : NanoleafAPI) (device : DeviceAnswers) : M (list Panel) :=
  let url := base_url self +:+ "/panelLayout/layout" in
  let! _ := perform (HttpGet url 5) in
  let! _ := perform RaiseForStatus in
  let! _ := perform ResponseJson in
  io_ret (answer_positionData device).

(** __init__.py 139-144. *)
Definition get_state (self : NanoleafAPI) (device : DeviceAnswers) : M (option bool) :=
  let url := base_url self in
  let! _ := perform (HttpGet url 5) in
  let! _ := perform RaiseForStatus in
  let! _ := perform ResponseJson in
  io_ret (answer_on device).

(** __init__.py 267-287 with its read: [get_layout], then the filter and
    the angles. *)
Definition NanoleafAPI_get_all_segments (self : NanoleafAPI) (device : DeviceAnswers)
    : M (list Panel) :=
  let! positionData := get_layout self device in
  io_ret (get_all_segments positionData).

(** ** The update coordinator *)

(** [_segments] is [None] while the coordinator has no attribute
    [_segments]. *)
Record NanoleafDataUpdateCoordinator : Type := {
  coordinator_api : NanoleafAPI;
  _segments : option (list Panel);
}.

(** What [_async_update_data] hands to the platform: the data dict, or
    the [UpdateFailed] it raises, with the error it wraps. *)
Inductive update_outcome : Type :=
  | CoordinatorData (state : option bool) (segments : list Panel)
  | UpdateFailed (err : exn).

(** __init__.py 313-332. The two reads are the methods of [self.api],
    run as executor jobs. *)
Definition _async_update_data (self : NanoleafDataUpdateCoordinator)
    (api_get_state : M (option bool)) (api_get_all_segments : M (list Panel))
    : M (update_outcome * NanoleafDataUpdateCoordinator) :=
  try_except
    (let! state := api_get_state in
     let! self' :=
       match _segments self with
       | Some _ => io_ret self
       | None =>
           let! segments := api_get_all_segments in
           io_ret {| coordinator_api := coordinator_api self;
                     _segments := Some segments |}
       end in
     io_ret (CoordinatorData state (default [] (_segments self')), self'))
    (λ err, io_ret (UpdateFailed err, self)).

(** One refresh after another, each with its own reads and its own
    behaviour of the network; the outcomes are listed in order. *)
Fixpoint run_updates (self : NanoleafDataUpdateCoordinator)
    (updates : list (M (option bool) * M (list Panel) * world)) (tr : list io_call)
    : NanoleafDataUpdateCoordinator * list update_outcome * list io_call :=
  match updates with
  | [] => (self, [], tr)
  | (api_get_state, api_get_all_segments, w) :: rest =>
      match _async_update_data self api_get_state api_get_all_segments w tr with
      | (Ok (outcome, self'), tr') =>
          let '(final, outcomes, tr'') := run_updates self' rest tr' in
          (final, outcome :: outcomes, tr'')
      | (Raise _, tr') => (self, [], tr')
      end
  end.

(** The segment list that an outcome reports, if it reports data. *)
Definition outcome_segments (o : update_outcome) : option (list Panel) :=
  match o with
  | CoordinatorData _ segments => Some segments
  | UpdateFailed _ => None
  end.

(** ** Setting up the session *)



(** ** What a group entity reports *)

(** group.py 140-148. *)
Definition group_is_on (self : NanoleafSegmentGroup)
    (GROUP_STATES : gmap string CommandedState) (data : option (option bool)) : bool :=
  let state :=
    state_get GROUP_STATES (group_state_key (grp_entry_id self) (grp_index self)) in
  match data with
  | Some _ => is_on state && global_on data
  | None => is_on state
  end.

(** group.py 150-153. *)
Definition group_brightness (self : NanoleafSegmentGroup)
    (GROUP_STATES : gmap string CommandedState) : Z :=
  brightness
    (state_get GROUP_STATES (group_state_key (grp_entry_id self) (grp_index self))).

(** group.py 155-158. *)
Definition group_rgb_color (self : NanoleafSegmentGroup)
    (GROUP_STATES : gmap string CommandedState) : rgb :=
  rgb_color
    (state_get GROUP_STATES (group_state_key (grp_entry_id self) (grp_index self))).

(** ** Setting up the session *)


(** ** Sample layouts, sessions and stores *)

Definition panel_at (id angle : Z) : Panel :=
  {| panelId := id; pos_x := 0; pos_y := 0; orientation := 0;
     shapeType := 18; angle_deg := Some angle |}.

Definition six_panels : list Panel := map (λ i, panel_at i (i * 100)) [1; 2; 3; 4; 5; 6].

Definition streaming_api : NanoleafAPI :=
  {| host := "192.168.1.50"; token := "abc"; _udp_socket := Some UdpSocket;
     _udp_port := Some 60222; _external_control_enabled := true |}.

Definition quiet_world : world := λ _, None.

Definition lossy_world : world := λ c,
  match c with
  | UdpSendto _ _ _ => Some OSError
  | _ => None
  end.

(** The scenario of the specification: nine panels, panels 1-6 and 8-9
    on with their own stored colours, and a turn_on of panel 7. *)
Definition nine_segments : list Panel :=
  (λ i, panel_at i (i * 4000)) <$> [1; 2; 3; 4; 5; 6; 7; 8; 9].

Definition nine_store : gmap string CommandedState :=
  list_to_map
    ((λ i, (segment_state_key "entry" i,
            {| is_on := true; brightness := 255 - 10 * i;
               rgb_color := (10 * i, 20 * i, 255) |}))
       <$> [1; 2; 3; 4; 5; 6; 7; 8; 9]).

Definition panel_seven : NanoleafSegmentLight :=
  {| seg_entry_id := "entry"; _panel_id := 7; seg_index := 6 |}.

Definition nine_coordinator : Coordinator :=
  {| api := streaming_api; segments := nine_segments |}.

Definition turn_on_half : entity_update :=
  TurnOn {| kw_brightness := Some 128; kw_rgb_color := Some (255, 51, 0);
            kw_transition := Some (PyFloat 0.5) |}.

(** Group 2 of a nine-panel layout (panels 4, 5, 6), turned on at half
    brightness on a session without streaming. *)
Definition group_two : NanoleafSegmentGroup :=
  {| grp_entry_id := "entry"; _panel_ids := [4; 5; 6]; grp_index := 1 |}.

Definition group_store : gmap string CommandedState :=
  {[ group_state_key "entry" 1 := default_state ]}.

Definition http_only_coordinator : Coordinator :=
  {| api := NanoleafAPI_init "192.168.1.50" "abc"; segments := nine_segments |}.

Definition segment_at (id x y : Z) : Panel :=
  {| panelId := id; pos_x := x; pos_y := y; orientation := 0;
     shapeType := 18; angle_deg := None |}.

(** * Properties *)

(** ** Brightness scaling *)

Lemma elem_of_all_bytes v : byte_range v → v ∈ all_bytes.
Proof. unfold byte_range, all_bytes. intros ?. apply elem_of_seqZ. lia. Qed.

Lemma table_check_spec P c b :
  table_check P = true → byte_range c → byte_range b → P c b = true.
Proof.
  unfold table_check. intros Ht Hc Hb.
  rewrite forallb_forall in Ht.
  specialize (Ht c (proj1 (list_elem_of_In _ _) (elem_of_all_bytes c Hc))).
  rewrite forallb_forall in Ht.
  exact (Ht b (proj1 (list_elem_of_In _ _) (elem_of_all_bytes b Hb))).
Qed.

Lemma result_eqb_eq r z : result_eqb r z = true → r = Ok z.
Proof. destruct r as [s|e]; simpl; [|done]. intros ?%Z.eqb_eq. by subst. Qed.

Lemma scale_table : table_check (λ c b, result_eqb (scale c b) (scale_int c b)) = true.
Proof. vm_compute. reflexivity. Qed.

Lemma scale_eq c b : byte_range c → byte_range b → scale c b = Ok (scale_int c b).
Proof.
  intros Hc Hb. apply result_eqb_eq.
  exact (table_check_spec _ c b scale_table Hc Hb).
Qed.

Lemma scale_int_range_table :
  table_check (λ c b, (0 <=? scale_int c b) && (scale_int c b <=? 255)) = true.
Proof. vm_compute. reflexivity. Qed.

Lemma scale_int_range c b : byte_range c → byte_range b → byte_range (scale_int c b).
Proof.
  intros Hc Hb.
  pose proof (table_check_spec _ c b scale_int_range_table Hc Hb) as H.
  apply andb_true_iff in H as [H1 H2]. unfold byte_range. lia.
Qed.

Lemma scale_int_step_table :
  table_check (λ c b, (b =? 255) || (scale_int c b <=? scale_int c (b + 1))) = true.
Proof. vm_compute. reflexivity. Qed.

Lemma scale_int_step c b :
  byte_range c → 0 ≤ b < 255 → scale_int c b ≤ scale_int c (b + 1).
Proof.
  intros Hc Hb.
  assert (byte_range b) as Hb' by (unfold byte_range; lia).
  pose proof (table_check_spec _ c b scale_int_step_table Hc Hb') as H.
  apply orb_true_iff in H as [H|H]; lia.
Qed.

Lemma scale_int_mono c b1 b2 :
  byte_range c → 0 ≤ b1 → b1 ≤ b2 → b2 ≤ 255 → scale_int c b1 ≤ scale_int c b2.
Proof.
  intros Hc H0 Hle H255.
  replace b2 with (b1 + Z.of_nat (Z.to_nat (b2 - b1))) in * by lia.
  induction (Z.to_nat (b2 - b1)) as [|n IH].
  - replace (b1 + Z.of_nat 0) with b1 by lia. lia.
  - etrans; [apply IH; lia|].
    replace (b1 + Z.of_nat (S n)) with (b1 + Z.of_nat n + 1) by lia.
    apply scale_int_step; [done|lia].
Qed.

Lemma scale_int_full_table : table_check (λ c _, scale_int c 255 =? c) = true.
Proof. vm_compute. reflexivity. Qed.

Lemma scale_int_full c : byte_range c → scale_int c 255 = c.
Proof.
  intros Hc. apply Z.eqb_eq.
  refine (table_check_spec (λ c _, scale_int c 255 =? c) c 0 scale_int_full_table Hc _).
  unfold byte_range. lia.
Qed.

Lemma visible_color_on st :
  is_on st = true → valid_state st →
  visible_color st =
    Ok (scale_int (rgb_color st).1.1 (brightness st),
        scale_int (rgb_color st).1.2 (brightness st),
        scale_int (rgb_color st).2 (brightness st)).
Proof.
  intros Hon (Hb & Hr & Hg & Hbl). unfold visible_color. rewrite Hon.
  destruct (rgb_color st) as [[r g] b]. simpl in *.
  pose proof (scale_eq r _ Hr Hb) as Er.
  pose proof (scale_eq g _ Hg Hb) as Eg.
  pose proof (scale_eq b _ Hbl Hb) as Eb.
  unfold scale in Er, Eg, Eb. rewrite Er. simpl. rewrite Eg. simpl. rewrite Eb. done.
Qed.

Lemma visible_color_off st : is_on st = false → visible_color st = Ok (0, 0, 0).
Proof. intros Hoff. unfold visible_color. by rewrite Hoff. Qed.

Lemma visible_color_shown st : valid_state st → visible_color st = Ok (shown st).
Proof.
  intros Hv. unfold shown. destruct (is_on st) eqn:Hon.
  - by apply visible_color_on.
  - by apply visible_color_off.
Qed.

Lemma shown_valid st : valid_state st → valid_rgb (shown st).
Proof.
  intros (Hb & Hr & Hg & Hbl). unfold shown.
  destruct (is_on st); unfold valid_rgb; simpl.
  - auto using scale_int_range.
  - unfold byte_range. lia.
Qed.

(** *** C2 *)

(** C2, as stated, fails: with brightness 128 a channel value of 1 is
    shown as 0 by the code, while [round(1 * 128 / 255)] is 1. *)
Lemma visible_color_not_rounded :
  let st := {| is_on := true; brightness := 128; rgb_color := (1, 1, 1) |} in
  valid_state st ∧
  visible_color st = Ok (0, 0, 0) ∧
  spec_visible_color st = (1, 1, 1) ∧
  visible_color st ≠ Ok (spec_visible_color st).
Proof.
  simpl. split; [|split; [|split]].
  - unfold valid_state, valid_rgb, byte_range. simpl. lia.
  - vm_compute. reflexivity.
  - vm_compute. reflexivity.
  - vm_compute. discriminate.
Qed.

(** C2 (amended): an off state is shown as (0,0,0) whatever colour is
    stored; an on state with brightness and channels in 0..255 is shown,
    channel by channel, as [int(channel * (brightness / 255))], the
    binary64 product truncated toward zero. That is
    [floor(channel * brightness / 255)], less one at the twelve pairs of
    [float_short]; it never exceeds the rounded value. *)
Theorem visible_color_truncates st :
  (is_on st = false → visible_color st = Ok (0, 0, 0)) ∧
  (is_on st = true → valid_state st →
     let '(r, g, b) := rgb_color st in
     visible_color st =
       Ok (scale_int r (brightness st), scale_int g (brightness st),
           scale_int b (brightness st)) ∧
     scale r (brightness st) = Ok (scale_int r (brightness st)) ∧
     scale g (brightness st) = Ok (scale_int g (brightness st)) ∧
     scale b (brightness st) = Ok (scale_int b (brightness st)) ∧
     scale_int r (brightness st) ≤ round_scale r (brightness st) ∧
     scale_int g (brightness st) ≤ round_scale g (brightness st) ∧
     scale_int b (brightness st) ≤ round_scale b (brightness st)).
Proof.
  split; [apply visible_color_off|].
  intros Hon Hv. pose proof (visible_color_on st Hon Hv) as E.
  destruct Hv as (Hb & Hr & Hg & Hbl).
  destruct (rgb_color st) as [[r g] b]. simpl in *.
  assert (∀ c, byte_range c → scale_int c (brightness st) ≤ round_scale c (brightness st)) as Hle.
  { intros c Hc. unfold scale_int, round_scale, byte_range in *.
    assert (c * brightness st / 255 ≤ (2 * c * brightness st + 255) / 510).
    { replace 510 with (255 * 2) by lia. rewrite <- Z.div_div by lia.
      apply Z.div_le_lower_bound; [lia|].
      assert (255 * (c * brightness st / 255) ≤ c * brightness st)
        by (apply Z.mul_div_le; lia).
      apply Z.div_le_lower_bound; lia. }
    destruct (bool_decide ((c, brightness st) ∈ float_short)); lia. }
  repeat split; auto using scale_eq.
Qed.

Lemma visible_color_truncates_witness :
  let st := {| is_on := true; brightness := 155; rgb_color := (51, 1, 255) |} in
  visible_color st = Ok (30, 0, 155) ∧ scale 51 155 = Ok 30.
Proof.
  intros st.
  destruct (visible_color_truncates st) as [_ H].
  specialize (H eq_refl).
  assert (valid_state st) as Hv
    by (unfold valid_state, valid_rgb, byte_range; simpl; lia).
  specialize (H Hv). simpl in H.
  destruct H as (H1 & H2 & _). split; [exact H1 | exact H2].
Defined.

(** *** C10 *)

(** C10: at brightness 255 scaling returns the channel unchanged, and for
    a fixed channel a lower brightness never gives a larger result. *)
Theorem scale_full_and_monotone c :
  byte_range c →
  scale c 255 = Ok c ∧
  ∀ b1 b2, 0 ≤ b1 → b1 ≤ b2 → b2 ≤ 255 →
    ∃ s1 s2, scale c b1 = Ok s1 ∧ scale c b2 = Ok s2 ∧ s1 ≤ s2.
Proof.
  intros Hc. split.
  - rewrite scale_eq; [|done|unfold byte_range; lia].
    by rewrite scale_int_full.
  - intros b1 b2 H0 Hle H255.
    exists (scale_int c b1), (scale_int c b2).
    split; [apply scale_eq; [done|unfold byte_range; lia]|].
    split; [apply scale_eq; [done|unfold byte_range; lia]|].
    by apply scale_int_mono.
Qed.

Lemma scale_full_and_monotone_witness :
  scale 200 255 = Ok 200 ∧
  ∃ s1 s2, scale 200 100 = Ok s1 ∧ scale 200 180 = Ok s2 ∧ s1 ≤ s2.
Proof.
  assert (byte_range 200) as Hc by (unfold byte_range; lia).
  destruct (scale_full_and_monotone 200 Hc) as [H1 H2].
  split; [exact H1|].
  apply (H2 100 180); lia.
Defined.

(** ** Grouping engine *)

(** *** Sorting *)

Section py_sorted_facts.
Context {A : Type} (key : A → Z).

Lemma sort_insert_perm a l : sort_insert key a l ≡ₚ a :: l.
Proof.
  induction l as [|b l IH]; simpl; [done|].
  destruct (key b <? key a); [|done].
  rewrite IH. apply Permutation_swap.
Qed.

Lemma py_sorted_perm l : py_sorted key l ≡ₚ l.
Proof.
  induction l as [|a l IH]; simpl; [done|].
  by rewrite sort_insert_perm, IH.
Qed.

Lemma sort_insert_hd a l b :
  HdRel (key_le key) b l → key_le key b a → HdRel (key_le key) b (sort_insert key a l).
Proof.
  intros Hl Hab. destruct l as [|c l]; simpl.
  - by constructor.
  - destruct (key c <? key a); constructor; [|done].
    by inversion Hl.
Qed.

Lemma sort_insert_sorted a l : Sorted (key_le key) l → Sorted (key_le key) (sort_insert key a l).
Proof.
  induction 1 as [|b l Hs IH Hhd]; simpl.
  - repeat constructor.
  - destruct (key b <? key a) eqn:Hlt.
    + constructor; [done|]. apply sort_insert_hd; [done|].
      apply Z.ltb_lt in Hlt. unfold key_le. lia.
    + apply Z.ltb_ge in Hlt. constructor; [by constructor|].
      by constructor.
Qed.

Lemma py_sorted_sorted l : Sorted (key_le key) (py_sorted key l).
Proof.
  induction l as [|a l IH]; simpl; [constructor|].
  by apply sort_insert_sorted.
Qed.

Lemma sort_insert_filter a l k :
  filter (λ b, key b = k) (sort_insert key a l) = filter (λ b, key b = k) (a :: l).
Proof.
  induction l as [|b l IH]; simpl; [done|].
  destruct (key b <? key a) eqn:Hlt; [|done].
  apply Z.ltb_lt in Hlt.
  rewrite !filter_cons in *.
  destruct (decide (key b = k)) as [Hb|Hb], (decide (key a = k)) as [Ha|Ha];
    try lia; by rewrite IH.
Qed.

Lemma py_sorted_filter l k :
  filter (λ a, key a = k) (py_sorted key l) = filter (λ a, key a = k) l.
Proof.
  induction l as [|a l IH]; simpl; [done|].
  rewrite sort_insert_filter, !filter_cons, IH. done.
Qed.

Lemma py_sorted_stable l : stable_sort_of key l (py_sorted key l).
Proof. split; [apply py_sorted_sorted | intros k; apply py_sorted_filter]. Qed.

Lemma key_le_trans : Transitive (key_le key).
Proof. intros a b c. unfold key_le. lia. Qed.

Lemma sorted_same_classes_eq l1 l2 :
  Sorted (key_le key) l1 → Sorted (key_le key) l2 →
  (∀ k, filter (λ a, key a = k) l1 = filter (λ a, key a = k) l2) →
  l1 = l2.
Proof.
  intros H1 H2.
  apply Sorted_StronglySorted in H1; [|apply key_le_trans].
  apply Sorted_StronglySorted in H2; [|apply key_le_trans].
  revert l2 H2. induction H1 as [|a l1 Hs1 IH Ha]; intros l2 H2 Hf.
  - destruct l2 as [|b l2]; [done|].
    specialize (Hf (key b)). rewrite filter_cons in Hf.
    by destruct (decide (key b = key b)).
  - destruct l2 as [|b l2].
    { specialize (Hf (key a)). rewrite filter_cons in Hf.
      by destruct (decide (key a = key a)). }
    inversion H2 as [|? ? Hs2 Hb]; subst.
    assert (key a = key b) as Hk.
    { assert (a ∈ b :: l2) as Hin.
      { apply (list_elem_of_filter (λ x, key x = key a)).
        rewrite <- Hf, filter_cons.
        destruct (decide (key a = key a)); [left|done]. }
      assert (b ∈ a :: l1) as Hin'.
      { apply (list_elem_of_filter (λ x, key x = key b)).
        rewrite Hf, filter_cons.
        destruct (decide (key b = key b)); [left|done]. }
      assert (key b ≤ key a).
      { apply elem_of_cons in Hin as [->|Hin]; [lia|].
        rewrite Forall_forall in Hb. by apply (Hb a). }
      assert (key a ≤ key b).
      { apply elem_of_cons in Hin' as [->|Hin']; [lia|].
        rewrite Forall_forall in Ha. by apply (Ha b). }
      lia. }
    assert (a = b) as ->.
    { specialize (Hf (key a)). rewrite !filter_cons in Hf.
      destruct (decide (key a = key a)); [|done].
      destruct (decide (key b = key a)); [|congruence].
      congruence. }
    f_equal. apply IH; [done|].
    intros k. specialize (Hf k). rewrite !filter_cons in Hf.
    destruct (decide (key b = k)); congruence.
Qed.

(** Stable sorting determines its output: whatever algorithm
    [sorted] runs, it returns [py_sorted]. *)
Lemma py_sorted_unique l l' : stable_sort_of key l l' → l' = py_sorted key l.
Proof.
  intros [Hs Hf]. apply sorted_same_classes_eq; [done|apply py_sorted_sorted|].
  intros k. by rewrite Hf, py_sorted_filter.
Qed.
End py_sorted_facts.

(** *** Automatic grouping *)

Lemma range_up_nil fuel i stop step : stop ≤ i → range_up fuel i stop step = [].
Proof.
  intros Hle. destruct fuel as [|f]; simpl; [done|].
  destruct (i <? stop) eqn:Hlt; [|done]. apply Z.ltb_lt in Hlt. lia.
Qed.

Lemma lookup_range_up fuel i stop step (k : nat) j :
  range_up fuel i stop step !! k = Some j → j = i + Z.of_nat k * step ∧ j < stop.
Proof.
  revert i k. induction fuel as [|f IH]; intros i k; simpl; [done|].
  destruct (i <? stop) eqn:Hlt; [|done]. apply Z.ltb_lt in Hlt.
  destruct k as [|k]; simpl.
  - intros [= <-]. lia.
  - intros Hk. apply IH in Hk as [-> ?]. lia.
Qed.

Section chunks.
Context {A : Type} (l : list A) (G : Z) (HG : 1 ≤ G).

Local Abbreviation n := (Z.of_nat (length l)).

Lemma length_slice i :
  0 ≤ i → i < n → Z.of_nat (length (py_slice l i (i + G))) = Z.min G (n - i).
Proof.
  intros H0 Hlt. unfold py_slice.
  rewrite length_take, length_drop. lia.
Qed.

Lemma concat_chunks fuel i :
  0 ≤ i ≤ n → n - i ≤ Z.of_nat fuel →
  concat ((λ i, py_slice l i (i + G)) <$> range_up fuel i n G)
  = drop (Z.to_nat i) l.
Proof.
  revert i. induction fuel as [|f IH]; intros i Hi Hf; simpl.
  - rewrite drop_ge; [done|lia].
  - destruct (i <? n) eqn:Hlt.
    + apply Z.ltb_lt in Hlt. simpl. unfold py_slice at 1.
      replace (i + G - i) with G by lia.
      destruct (decide (i + G ≤ n)) as [Hle|Hgt].
      * rewrite IH by lia.
        replace (Z.to_nat (i + G)) with (Z.to_nat i + Z.to_nat G)%nat by lia.
        rewrite <- drop_drop. apply take_drop.
      * rewrite range_up_nil by lia. simpl. rewrite app_nil_r.
        apply take_ge. rewrite length_drop. lia.
    + apply Z.ltb_ge in Hlt. rewrite drop_ge; [done|lia].
Qed.

Lemma length_range_up fuel i :
  0 ≤ i ≤ n → n - i ≤ Z.of_nat fuel →
  Z.of_nat (length (range_up fuel i n G)) = (n - i + G - 1) / G.
Proof.
  revert i. induction fuel as [|f IH]; intros i Hi Hf; simpl.
  - symmetry. apply Z.div_small. lia.
  - destruct (i <? n) eqn:Hlt.
    + apply Z.ltb_lt in Hlt. simpl.
      destruct (decide (i + G ≤ n)) as [Hle|Hgt].
      * rewrite Nat2Z.inj_succ, IH by lia.
        replace (n - i + G - 1) with (n - (i + G) + G - 1 + 1 * G) by lia.
        rewrite Z.div_add by lia. lia.
      * rewrite range_up_nil by lia. simpl.
        apply Z.div_unique_pos with (r := n - i - 1); lia.
    + apply Z.ltb_ge in Hlt. symmetry. apply Z.div_small. lia.
Qed.
End chunks.

Lemma ceil_div_bounds N G :
  0 ≤ N → 1 ≤ G → ((N + G - 1) / G - 1) * G < N ≤ (N + G - 1) / G * G.
Proof.
  intros HN HG.
  pose proof (Z.div_mod (N + G - 1) G ltac:(lia)) as Hdm.
  pose proof (Z.mod_pos_bound (N + G - 1) G ltac:(lia)) as Hm.
  nia.
Qed.

(** *** C3 *)

(** C3: for a group size G >= 1, automatic grouping of N panels returns
    ceil(N/G) groups; every group but possibly the last has exactly G
    members and no group is empty; the groups, concatenated, are the input
    sorted by ascending angle, panels of equal angle staying in their
    input order. *)
Theorem create_groups_by_position_chunks (segments : list Panel) (group_size : Z) :
  1 ≤ group_size →
  ∃ groups,
    create_groups_by_position segments group_size = Ok groups ∧
    Z.of_nat (length groups)
      = (Z.of_nat (length segments) + group_size - 1) / group_size ∧
    (Z.of_nat (length groups) - 1) * group_size
      < Z.of_nat (length segments) ≤ Z.of_nat (length groups) * group_size ∧
    (∀ (i : nat) g, groups !! i = Some g →
       1 ≤ Z.of_nat (length g) ≤ group_size ∧
       (S i < length groups → Z.of_nat (length g) = group_size)%nat) ∧
    concat groups ≡ₚ segments ∧
    Sorted (key_le angle_key) (concat groups) ∧
    (∀ k, filter (λ s, angle_key s = k) (concat groups)
          = filter (λ s, angle_key s = k) segments) ∧
    concat groups = py_sorted angle_key segments.
Proof.
  intros HG. unfold create_groups_by_position.
  set (sorted_segments := py_sorted angle_key segments).
  assert (length sorted_segments = length segments) as Hlen
    by (apply Permutation_length, py_sorted_perm).
  unfold py_range.
  destruct (group_size =? 0) eqn:E0; [apply Z.eqb_eq in E0; lia|].
  destruct (0 <? group_size) eqn:E1; [|apply Z.ltb_ge in E1; lia].
  simpl. eexists. split; [reflexivity|].
  rewrite Z.sub_0_r, Nat2Z.id.
  assert (concat ((λ i, py_slice sorted_segments i (i + group_size)) <$>
            range_up (length sorted_segments) 0 (Z.of_nat (length sorted_segments))
              group_size) = sorted_segments) as Hcat.
  { rewrite concat_chunks by lia. done. }
  assert (Z.of_nat (length (range_up (length sorted_segments) 0
            (Z.of_nat (length sorted_segments)) group_size))
          = (Z.of_nat (length segments) + group_size - 1) / group_size) as Hn.
  { rewrite length_range_up by lia. rewrite Hlen. f_equal. lia. }
  rewrite length_fmap, Hcat.
  split; [exact Hn|].
  split; [rewrite Hn; apply ceil_div_bounds; lia|].
  split.
  { intros i g Hi. apply list_lookup_fmap_Some in Hi as (j & -> & Hj).
    apply lookup_range_up in Hj as [-> Hlt].
    rewrite length_slice by lia. split; [lia|].
    intros Hnext.
    destruct (lookup_lt_is_Some_2 _ _ Hnext) as [j' Hj'].
    apply lookup_range_up in Hj' as [-> Hlt']. lia. }
  split; [apply py_sorted_perm|].
  split; [apply py_sorted_sorted|].
  split; [intros k; apply py_sorted_filter|done].
Qed.

Lemma create_groups_by_position_chunks_witness :
  ∃ groups,
    create_groups_by_position
      [panel_at 1 9000; panel_at 2 1000; panel_at 3 9000; panel_at 4 5000] 3
      = Ok groups ∧
    Z.of_nat (length groups) = 2 ∧
    concat groups = [panel_at 2 1000; panel_at 4 5000; panel_at 1 9000; panel_at 3 9000].
Proof.
  destruct (create_groups_by_position_chunks
              [panel_at 1 9000; panel_at 2 1000; panel_at 3 9000; panel_at 4 5000] 3)
    as (groups & Hrun & Hlen & _ & _ & _ & _ & _ & Hcat); [lia|].
  exists groups. split; [exact Hrun|]. split; [exact Hlen|exact Hcat].
Defined.

(** The scenario of the specification: nine panels at angles 10, 50, ...,
    330 degrees and a group size of 3. *)
Example create_groups_nine_panels :
  create_groups_by_position
    (map (λ a, panel_at a (a * 100)) [10; 50; 90; 130; 170; 210; 250; 290; 330]) 3
  = Ok (map (map (λ a, panel_at a (a * 100)))
          [[10; 50; 90]; [130; 170; 210]; [250; 290; 330]]).
Proof. reflexivity. Qed.

(** *** Manual grouping *)

(** For indices that are not negative the comprehension keeps exactly the
    indices below the length, in order, and never raises. *)
Lemma group_segments_of_nonneg segments group_indices :
  Forall (λ i, 0 ≤ i) group_indices →
  group_segments_of segments group_indices
  = Ok (omap (λ i, segments !! Z.to_nat i) group_indices).
Proof.
  induction 1 as [|i rest Hi _ IH]; simpl; [done|].
  rewrite IH. destruct (i <? Z.of_nat (length segments)) eqn:Hlt.
  - apply Z.ltb_lt in Hlt. unfold py_getitem.
    destruct (i <? 0) eqn:Hneg; [apply Z.ltb_lt in Hneg; lia|].
    rewrite Hneg.
    destruct (segments !! Z.to_nat i) as [s|] eqn:Hs; [done|].
    apply lookup_ge_None in Hs. lia.
  - apply Z.ltb_ge in Hlt.
    rewrite (proj2 (lookup_ge_None segments (Z.to_nat i))) by lia. done.
Qed.

Lemma manual_groups_loop_nonneg segments manual_groups :
  Forall (Forall (λ i, 0 ≤ i)) manual_groups →
  manual_groups_loop segments manual_groups
  = Ok (filter (λ g : list Panel, g ≠ [])
          ((λ g : list Z, omap (λ i, segments !! Z.to_nat i) g) <$> manual_groups)).
Proof.
  induction 1 as [|g rest Hg _ IH]; simpl; [done|].
  rewrite group_segments_of_nonneg, IH by done. simpl.
  rewrite filter_cons.
  destruct (omap _ g) as [|s ss]; simpl.
  - destruct (decide (@nil Panel ≠ [])); [congruence|done].
  - destruct (decide (s :: ss ≠ [])) as [|Hn]; [done|].
    exfalso. by apply Hn.
Qed.

(** *** C4 *)

(** C4 fails on the code for negative indices: the guard
    [i < len(segments)] has no lower bound, so on a six-panel layout the
    index -7 reaches [segments[-7]] and raises IndexError, and the index
    -1 is not dropped but selects the last panel. *)
Theorem manual_groups_negative_index :
  setup_groups six_panels (Some [[0; 1]; [-7]]) = Raise IndexError ∧
  setup_groups six_panels (Some [[-1]]) = Ok [[panel_at 6 600]] ∧
  setup_groups six_panels (Some [[0; 6; 1]; [9]; [5]])
    = Ok [[panel_at 1 100; panel_at 2 200]; [panel_at 6 600]].
Proof. repeat split; reflexivity. Qed.

(** ** Transports *)

(** *** Reliable send *)

Lemma set_multiple_panels_run self pcs t (w : world) tr :
  set_multiple_panels self pcs t w tr = (Ok tt, tr ++ [reliable_put self pcs t]).
Proof.
  unfold set_multiple_panels, try_except, perform, reliable_put.
  destruct (w _) as [[]|]; reflexivity.
Qed.

(** *** C7 *)

(** C7: whatever the mapping, the transition value and the answer of the
    transport, [set_multiple_panels] makes its one write and returns to
    its caller without raising: a timeout counts as success and every
    other transport error is dropped. *)
Theorem set_multiple_panels_never_raises self pcs t (w : world) tr :
  returns_normally (set_multiple_panels self pcs t w tr).1 ∧
  (set_multiple_panels self pcs t w tr).2 = tr ++ [reliable_put self pcs t] ∧
  (w (reliable_put self pcs t) = Some RequestsTimeout →
     set_multiple_panels self pcs t w tr = (Ok tt, tr ++ [reliable_put self pcs t])) ∧
  (∀ e, w (reliable_put self pcs t) = Some e →
     set_multiple_panels self pcs t w tr = (Ok tt, tr ++ [reliable_put self pcs t])).
Proof.
  rewrite set_multiple_panels_run. simpl. auto.
Qed.

(** *** Streaming frame *)

Lemma Z_of_byte_of_Z v : 0 ≤ v ≤ 255 → Z_of_byte (byte_of_Z v) = v.
Proof.
  intros Hv. unfold Z_of_byte, byte_of_Z.
  destruct (Byte.of_N (Z.to_N v)) as [b|] eqn:E.
  - simpl. apply Byte.to_of_N in E. lia.
  - apply Byte.of_N_None_iff in E. lia.
Qed.

Lemma decode_be16_be16 v hi lo :
  0 ≤ v < 65536 → be16 v = [hi; lo] → decode_be16 hi lo = v.
Proof.
  intros Hv [= <- <-]. unfold decode_be16.
  pose proof (Z.div_mod v 256 ltac:(lia)).
  pose proof (Z.mod_pos_bound v 256 ltac:(lia)).
  assert (0 ≤ v / 256 ≤ 255).
  { split; [apply Z.div_pos; lia|].
    assert (v / 256 < 256); [apply Z.div_lt_upper_bound; lia|lia]. }
  rewrite !Z_of_byte_of_Z by lia. lia.
Qed.

Lemma pack_H_spec v :
  pack_H v = if decide (0 ≤ v < 65536) then Ok (be16 v) else Raise StructError.
Proof.
  unfold pack_H, be16.
  destruct (decide _) as [Hv|Hv].
  - rewrite (proj2 (andb_true_iff _ _)) by (split; lia).
    rewrite Z.shiftr_div_pow2 by lia.
    change 255 with (Z.ones 8). rewrite Z.land_ones by lia. done.
  - destruct (0 <=? v) eqn:E1, (v <=? 65535) eqn:E2; simpl; try done. lia.
Qed.

Lemma pack_B_spec v :
  pack_B v = if decide (byte_range v) then Ok [byte_of_Z v] else Raise StructError.
Proof.
  unfold pack_B, byte_range.
  destruct (decide _) as [Hv|Hv].
  - by rewrite (proj2 (andb_true_iff _ _)) by (split; lia).
  - destruct (0 <=? v) eqn:E1, (v <=? 255) eqn:E2; simpl; try done. lia.
Qed.

Lemma pack_entry_spec panel_id r g b trans :
  0 ≤ trans < 65536 →
  pack_HBBBBH panel_id r g b 0 trans
  = if decide (entry_fits (panel_id, (r, g, b)))
    then Ok (frame_entry_bytes trans (panel_id, (r, g, b)))
    else Raise StructError.
Proof.
  intros Ht. unfold pack_HBBBBH.
  rewrite !pack_H_spec, !pack_B_spec.
  destruct (decide (entry_fits (panel_id, (r, g, b)))) as [Hf|Hf].
  - destruct Hf as (Hid & Hr & Hg & Hb). simpl in *.
    rewrite (decide_True (P := 0 ≤ panel_id < 65536)) by done. simpl.
    rewrite (decide_True (P := byte_range r)) by done. simpl.
    rewrite (decide_True (P := byte_range g)) by done. simpl.
    rewrite (decide_True (P := byte_range b)) by done. simpl.
    rewrite (decide_True (P := 0 ≤ trans < 65536)) by done. done.
  - destruct (decide (0 ≤ panel_id < 65536)); simpl; [|done].
    destruct (decide (byte_range r)); simpl; [|done].
    destruct (decide (byte_range g)); simpl; [|done].
    destruct (decide (byte_range b)); simpl; [|done].
    exfalso. apply Hf. unfold entry_fits, valid_rgb. simpl. done.
Qed.

Lemma pack_panels_spec pcs trans packet :
  0 ≤ trans < 65536 →
  pack_panels pcs trans packet
  = if decide (Forall entry_fits pcs)
    then Ok (packet ++ concat (frame_entry_bytes trans <$> pcs))
    else Raise StructError.
Proof.
  intros Ht. revert packet.
  induction pcs as [|[panel_id [[r g] b]] pcs IH]; intros packet.
  - rewrite decide_True by constructor. simpl. by rewrite app_nil_r.
  - cbn [pack_panels]. rewrite pack_entry_spec by done.
    destruct (decide (entry_fits (panel_id, (r, g, b)))) as [Hf|Hf].
    + cbn [result_bind]. rewrite IH.
      destruct (decide (Forall entry_fits pcs)) as [Hr|Hr].
      * rewrite ?(decide_True (P := Forall _ _)) by (done || by constructor).
        rewrite fmap_cons. cbn [concat]. f_equal. symmetry. apply app_assoc.
      * rewrite (decide_False (P := Forall _ (_ :: _))); [done|].
        intros Hall. apply Hr. by inversion Hall.
    + cbn [result_bind]. rewrite (decide_False (P := Forall _ _)); [done|].
      intros Hall. apply Hf. by inversion Hall.
Qed.

Lemma build_packet_spec pcs smooth :
  build_packet pcs smooth
  = if decide (fits_frame pcs)
    then Ok (frame_bytes pcs (if smooth then 2 else 0))
    else Raise StructError.
Proof.
  unfold build_packet, frame_bytes.
  rewrite pack_H_spec.
  destruct (decide (0 ≤ Z.of_nat (length pcs) < 65536)) as [Hn|Hn]; simpl.
  - rewrite pack_panels_spec by (destruct smooth; lia).
    destruct (decide (Forall entry_fits pcs)) as [Hall|Hall].
    + rewrite decide_True; [done|]. split; [lia|exact Hall].
    + rewrite decide_False; [done|]. intros [_ Hall']. by apply Hall.
  - rewrite decide_False; [done|]. intros [Hlt _]. lia.
Qed.

Lemma decode_entries_frame pcs trans :
  0 ≤ trans < 65536 → Forall entry_fits pcs →
  decode_entries (length pcs) (concat (frame_entry_bytes trans <$> pcs))
  = Some (entry_of trans <$> pcs).
Proof.
  intros Ht. induction 1 as [|[panel_id [[r g] b]] pcs Hf _ IH]; [done|].
  rewrite !fmap_cons. cbn [concat length].
  unfold frame_entry_bytes at 1. unfold be16 at 1 2.
  cbn [app decode_entries]. rewrite IH.
  destruct Hf as (Hid & Hr & Hg & Hb). simpl in Hid, Hr, Hg, Hb.
  unfold entry_of. cbn [fst snd].
  rewrite (decode_be16_be16 panel_id _ _ Hid eq_refl).
  rewrite (decode_be16_be16 trans _ _ Ht eq_refl).
  rewrite !Z_of_byte_of_Z by done. done.
Qed.

Lemma length_frame_entries pcs trans :
  length (concat (frame_entry_bytes trans <$> pcs)) = (8 * length pcs)%nat.
Proof.
  induction pcs as [|[panel_id [[r g] b]] pcs IH]; [done|].
  rewrite fmap_cons. cbn [concat]. rewrite length_app, IH.
  cbn [length frame_entry_bytes be16 app]. lia.
Qed.

(** *** C5 *)

(** C5: when streaming is enabled and every panel id is in 0..65535,
    every channel in 0..255 and there are fewer than 65536 entries, the
    datagram that is sent is the big-endian 2-byte panel count followed,
    per panel, by the 2-byte id, one byte each for R, G and B, a zero
    byte and the 2-byte transition; decoding it gives back the count, the
    ids and the colours, with the reserved field 0. *)
Theorem streaming_frame_roundtrip self pcs (smooth : bool) (w : world) tr :
  streaming_enabled self = true →
  fits_frame pcs →
  let trans : Z := if smooth then 2 else 0 in
  ∃ (packet : list byte) (tr' : list io_call),
    build_packet pcs smooth = Ok packet ∧
    (set_multiple_panels_udp self pcs smooth w tr).2
      = tr ++ UdpSendto packet (host self) (_udp_port self) :: tr' ∧
    packet = be16 (Z.of_nat (length pcs))
               ++ concat ((λ '(panel_id, (r, g, b)),
                             be16 panel_id
                               ++ [byte_of_Z r; byte_of_Z g; byte_of_Z b; Byte.x00]
                               ++ be16 trans) <$> pcs) ∧
    length packet = (2 + 8 * length pcs)%nat ∧
    decode_frame packet
      = Some (Z.of_nat (length pcs),
              (λ '(panel_id, (r, g, b)),
                 {| fe_panel_id := panel_id; fe_r := r; fe_g := g; fe_b := b;
                    fe_reserved := 0; fe_transition := trans |}) <$> pcs).
Proof.
  intros Hen Hfit trans.
  pose proof (build_packet_spec pcs smooth) as Hb.
  destruct (decide (fits_frame pcs)) as [_|]; [|done].
  fold trans in Hb.
  exists (frame_bytes pcs trans).
  exists (match w (UdpSendto (frame_bytes pcs trans) (host self) (_udp_port self)) with
          | None => []
          | Some _ => [reliable_put self pcs 0]
          end).
  split; [exact Hb|].
  split.
  { unfold set_multiple_panels_udp. rewrite Hen. simpl.
    unfold try_except, io_bind, io_lift, perform. rewrite Hb.
    destruct (w _) as [e|]; simpl.
    - rewrite set_multiple_panels_run. simpl. by rewrite <- app_assoc.
    - done. }
  assert (0 ≤ trans < 65536) as Ht by (unfold trans; destruct smooth; lia).
  destruct Hfit as [Hlen Hall].
  split.
  { reflexivity. }
  split.
  { unfold frame_bytes. rewrite length_app, length_frame_entries. done. }
  unfold frame_bytes, decode_frame. simpl.
  rewrite (decode_be16_be16 (Z.of_nat (length pcs)) _ _ ltac:(lia) eq_refl).
  rewrite Nat2Z.id, decode_entries_frame by done.
  do 2 f_equal. apply list_fmap_ext. intros _ [panel_id [[r g] b]] _. reflexivity.
Qed.

Lemma streaming_frame_roundtrip_witness :
  ∃ (packet : list byte) (tr' : list io_call),
    build_packet [(7, (255, 128, 0)); (300, (1, 2, 3))] true = Ok packet ∧
    (set_multiple_panels_udp streaming_api [(7, (255, 128, 0)); (300, (1, 2, 3))]
       true quiet_world []).2
      = [] ++ UdpSendto packet "192.168.1.50" (Some 60222) :: tr' ∧
    decode_frame packet
      = Some (2, [ {| fe_panel_id := 7; fe_r := 255; fe_g := 128; fe_b := 0;
                      fe_reserved := 0; fe_transition := 2 |};
                   {| fe_panel_id := 300; fe_r := 1; fe_g := 2; fe_b := 3;
                      fe_reserved := 0; fe_transition := 2 |} ]).
Proof.
  assert (fits_frame [(7, (255, 128, 0)); (300, (1, 2, 3))]) as Hfit.
  { unfold fits_frame, valid_rgb, byte_range. split; [simpl; lia|].
    repeat constructor; simpl; lia. }
  destruct (streaming_frame_roundtrip streaming_api
              [(7, (255, 128, 0)); (300, (1, 2, 3))] true quiet_world []
              eq_refl Hfit)
    as (packet & tr' & Hb & Hsend & _ & _ & Hdec).
  exists packet, tr'. split; [exact Hb|]. split; [exact Hsend|exact Hdec].
Defined.

(** The bytes of a two-panel frame, written out. *)
Example build_packet_bytes :
  build_packet [(7, (255, 128, 0)); (300, (1, 2, 3))] true
  = Ok [ Byte.x00; Byte.x02;
         Byte.x00; Byte.x07; Byte.xff; Byte.x80; Byte.x00; Byte.x00; Byte.x00; Byte.x02;
         Byte.x01; Byte.x2c; Byte.x01; Byte.x02; Byte.x03; Byte.x00; Byte.x00; Byte.x02 ].
Proof. reflexivity. Qed.

(** *** Streaming send *)

(** A session that was never negotiated, or whose negotiation failed,
    has streaming disabled. *)
Lemma streaming_disabled_after_init host token :
  streaming_enabled (NanoleafAPI_init host token) = false.
Proof. reflexivity. Qed.



Lemma set_multiple_panels_udp_run self pcs (smooth : bool) (w : world) tr :
  let put := reliable_put self pcs 0 in
  let dgram :=
    UdpSendto (frame_bytes pcs (if smooth then 2 else 0)) (host self) (_udp_port self) in
  set_multiple_panels_udp self pcs smooth w tr
  = (Ok tt,
     tr ++ if streaming_enabled self then
             if decide (fits_frame pcs) then
               match w dgram with
               | None => [dgram]
               | Some _ => [dgram; put]
               end
             else [put]
           else [put]).
Proof.
  intros put dgram. unfold set_multiple_panels_udp.
  destruct (streaming_enabled self); simpl.
  - unfold try_except, io_bind, io_lift, perform.
    rewrite build_packet_spec.
    destruct (decide (fits_frame pcs)) as [Hfit|Hfit].
    + fold dgram. destruct (w dgram) as [e|]; [|done].
      rewrite set_multiple_panels_run. by rewrite <- app_assoc.
    + apply set_multiple_panels_run.
  - apply set_multiple_panels_run.
Qed.

(** *** C6 *)

(** C6, as stated, fails: with streaming enabled and a panel id of 65536,
    which has no 2-byte encoding, [struct.pack] raises inside the [try],
    no datagram is transmitted at all, and the update goes out through
    the reliable path only. *)
Lemma streaming_send_unpackable_no_datagram :
  streaming_enabled streaming_api = true ∧
  set_multiple_panels_udp streaming_api [(65536, (255, 0, 0))] true quiet_world []
    = (Ok tt, [reliable_put streaming_api [(65536, (255, 0, 0))] 0]) ∧
  datagrams (set_multiple_panels_udp streaming_api [(65536, (255, 0, 0))] true
               quiet_world []).2 = [] ∧
  ¬ ∃ packet, datagrams (set_multiple_panels_udp streaming_api
                           [(65536, (255, 0, 0))] true quiet_world []).2 = [packet].
Proof.
  assert (set_multiple_panels_udp streaming_api [(65536, (255, 0, 0))] true
            quiet_world []
          = (Ok tt, [reliable_put streaming_api [(65536, (255, 0, 0))] 0])) as E
    by reflexivity.
  rewrite E. repeat split.
  intros [packet Hp]. discriminate Hp.
Qed.

(** C6 (amended): a streaming send never raises and makes these calls.
    If streaming is not enabled, the one reliable write of the same
    mapping with transition 0. If streaming is enabled and the mapping
    fits the frame (ids in 0..65535, channels in 0..255, fewer than 65536
    entries), exactly one datagram, with transition 2 when [smooth] and 0
    otherwise, followed by one reliable write of the same mapping if, and
    only if, the transmission raised. If streaming is enabled and the
    mapping does not fit the frame, no datagram and one reliable write.
    In no case is there a further retry. *)
Theorem streaming_send_dispatch self pcs (smooth : bool) (w : world) tr :
  let put := reliable_put self pcs 0 in
  let dgram :=
    UdpSendto (frame_bytes pcs (if smooth then 2 else 0)) (host self) (_udp_port self) in
  (streaming_enabled self = false →
     set_multiple_panels_udp self pcs smooth w tr = (Ok tt, tr ++ [put]) ∧
     set_multiple_panels_udp self pcs smooth w tr = set_multiple_panels self pcs 0 w tr) ∧
  (streaming_enabled self = true → fits_frame pcs → w dgram = None →
     set_multiple_panels_udp self pcs smooth w tr = (Ok tt, tr ++ [dgram])) ∧
  (streaming_enabled self = true → fits_frame pcs → is_Some (w dgram) →
     set_multiple_panels_udp self pcs smooth w tr = (Ok tt, tr ++ [dgram; put])) ∧
  (streaming_enabled self = true → ¬ fits_frame pcs →
     set_multiple_panels_udp self pcs smooth w tr = (Ok tt, tr ++ [put])).
Proof.
  intros put dgram.
  pose proof (set_multiple_panels_udp_run self pcs smooth w tr) as Hrun.
  simpl in Hrun. fold put dgram in Hrun.
  split; [|split; [|split]].
  - intros Hoff. split.
    + by rewrite Hrun, Hoff.
    + rewrite Hrun, Hoff. symmetry. apply set_multiple_panels_run.
  - intros Hon Hfit Hw. rewrite Hrun, Hon, Hw.
    by rewrite (decide_True (P := fits_frame pcs)).
  - intros Hon Hfit [e Hw]. rewrite Hrun, Hon, Hw.
    by rewrite (decide_True (P := fits_frame pcs)).
  - intros Hon Hfit. rewrite Hrun, Hon.
    by rewrite (decide_False (P := fits_frame pcs)).
Qed.

Lemma streaming_send_dispatch_witness :
  set_multiple_panels_udp (NanoleafAPI_init "192.168.1.50" "abc")
    [(7, (255, 128, 0))] true quiet_world []
    = (Ok tt, [reliable_put (NanoleafAPI_init "192.168.1.50" "abc") [(7, (255, 128, 0))] 0]) ∧
  set_multiple_panels_udp streaming_api [(7, (255, 128, 0))] true quiet_world []
    = (Ok tt, [UdpSendto (frame_bytes [(7, (255, 128, 0))] 2) "192.168.1.50" (Some 60222)]) ∧
  set_multiple_panels_udp streaming_api [(7, (255, 128, 0))] false lossy_world []
    = (Ok tt, [UdpSendto (frame_bytes [(7, (255, 128, 0))] 0) "192.168.1.50" (Some 60222);
               reliable_put streaming_api [(7, (255, 128, 0))] 0]) ∧
  set_multiple_panels_udp streaming_api [(7, (256, 128, 0))] true quiet_world []
    = (Ok tt, [reliable_put streaming_api [(7, (256, 128, 0))] 0]).
Proof.
  assert (fits_frame [(7, (255, 128, 0))]) as Hfit.
  { split; [simpl; lia|]. repeat constructor; simpl; unfold byte_range; lia. }
  assert (¬ fits_frame [(7, (256, 128, 0))]) as Hbad.
  { intros [_ Hall]. inversion Hall as [|? ? (_ & [_ Hr] & _) _]. simpl in Hr. lia. }
  split; [|split; [|split]].
  - destruct (streaming_send_dispatch (NanoleafAPI_init "192.168.1.50" "abc")
                [(7, (255, 128, 0))] true quiet_world []) as (H & _).
    exact (proj1 (H eq_refl)).
  - destruct (streaming_send_dispatch streaming_api [(7, (255, 128, 0))] true
                quiet_world []) as (_ & H & _).
    exact (H eq_refl Hfit eq_refl).
  - destruct (streaming_send_dispatch streaming_api [(7, (255, 128, 0))] false
                lossy_world []) as (_ & _ & H & _).
    exact (H eq_refl Hfit (ex_intro _ OSError eq_refl)).
  - destruct (streaming_send_dispatch streaming_api [(7, (256, 128, 0))] true
                quiet_world []) as (_ & _ & _ & H).
    exact (H eq_refl Hbad).
Defined.

(** The control-plane payload of a one-panel mapping, written out. *)
Example reliable_put_text :
  reliable_put streaming_api [(7, (255, 128, 0))] 0
  = HttpPut "http://192.168.1.50:16021/api/v1/abc/effects"
      (CustomAnimation "1 7 1 255 128 0 0 0") 0.5.
Proof. reflexivity. Qed.

(** ** Entities *)

(** *** Text of a command *)

Lemma string_app_assoc (s1 s2 s3 : string) : (s1 +:+ s2) +:+ s3 = s1 +:+ s2 +:+ s3.
Proof.
  induction s1 as [|a s1 IH]; [done|].
  change (String a ((s1 +:+ s2) +:+ s3) = String a (s1 +:+ s2 +:+ s3)).
  by rewrite IH.
Qed.

Lemma string_concat_cons sep (s : string) (l : list string) :
  l ≠ [] → String.concat sep (s :: l) = s +:+ sep +:+ String.concat sep l.
Proof. by destruct l. Qed.

Lemma string_concat_app sep (l1 l2 : list string) :
  l1 ≠ [] → l2 ≠ [] →
  String.concat sep (l1 ++ l2) = String.concat sep l1 +:+ sep +:+ String.concat sep l2.
Proof.
  intros H1 H2. induction l1 as [|s l1 IH]; [done|].
  destruct l1 as [|s' l1].
  - simpl. by destruct l2.
  - rewrite <- app_comm_cons.
    rewrite string_concat_cons by done.
    rewrite IH by done.
    rewrite (string_concat_cons sep s (s' :: l1)) by done.
    by rewrite !string_app_assoc.
Qed.

Lemma pretty_nat_Z (n : nat) : pretty n = pretty (Z.of_nat n).
Proof. by destruct n. Qed.

Lemma anim_part_tokens panel_id r g b t :
  anim_part panel_id (r, g, b) t = tokens_text [panel_id; 1; r; g; b; 0; t].
Proof.
  unfold anim_part, tokens_text. cbn [fmap list_fmap String.concat].
  change (pretty 1) with "1". change (pretty 0) with "0".
  change " 1 " with (" " +:+ "1" +:+ " ").
  change " 0 " with (" " +:+ "0" +:+ " ").
  rewrite !string_app_assoc. reflexivity.
Qed.

Lemma anim_parts_tokens (entries : list (Z * rgb)) t :
  entries ≠ [] →
  String.concat " " ((λ '(panel_id, c), anim_part panel_id c t) <$> entries)
  = tokens_text
      (concat ((λ '(panel_id, (r, g, b)), [panel_id; 1; r; g; b; 0; t]) <$> entries)).
Proof.
  induction entries as [|[panel_id [[r g] b]] entries IH]; [done|]. intros _.
  rewrite !fmap_cons. cbn [concat]. unfold tokens_text.
  destruct entries as [|e entries].
  - simpl concat. rewrite app_nil_r. apply anim_part_tokens.
  - rewrite string_concat_cons by done.
    rewrite fmap_app, string_concat_app; [|done|by destruct e as [? [[? ?] ?]]].
    rewrite IH by done. by rewrite anim_part_tokens.
Qed.

Lemma anim_data_tokens (entries : list (Z * rgb)) t :
  entries ≠ [] →
  anim_data_of (length entries) ((λ '(panel_id, c), anim_part panel_id c t) <$> entries)
  = tokens_text (anim_tokens entries t).
Proof.
  intros Hne. unfold anim_data_of, anim_tokens.
  rewrite anim_parts_tokens by done. unfold tokens_text.
  rewrite fmap_cons, string_concat_cons, pretty_nat_Z; [done|].
  destruct entries as [|[panel_id [[r g] b]] entries]; done.
Qed.

(** *** Store keys *)

Lemma segment_state_key_inj entry_id p1 p2 :
  segment_state_key entry_id p1 = segment_state_key entry_id p2 → p1 = p2.
Proof.
  unfold segment_state_key. intros H.
  apply (inj (String.app entry_id)) in H.
  apply (inj (String.app "_")) in H.
  by apply (inj pretty) in H.
Qed.

Lemma py_int_finite f :
  is_nan f = false → is_infinity f = false → ∃ z, py_int f = Ok z.
Proof.
  intros Hnan Hinf. unfold py_int, Prim2SF. rewrite Hnan, Hinf.
  destruct (is_zero f); [by eexists|].
  destruct (Z.frexp f) as [r e].
  destruct (shr_fexp _ _ _ _ _) as [shr e'].
  destruct (shr_m shr); by eexists.
Qed.

(** *** Per-panel update *)

Lemma state_get_valid store key : valid_store store → valid_state (state_get store key).
Proof.
  intros Hv. unfold state_get.
  destruct (store !! key) as [st|] eqn:E; simpl.
  - by apply (Hv key).
  - unfold valid_state, valid_rgb, byte_range. simpl. lia.
Qed.

Lemma turned_on_valid kw st : valid_kwargs kw → valid_state st → valid_state (turned_on kw st).
Proof.
  intros [Hb Hc] [Hb' Hc']. unfold turned_on, valid_state. simpl.
  destruct (kw_brightness kw), (kw_rgb_color kw); simpl in *; done.
Qed.

Lemma turned_off_valid st : valid_state st → valid_state (turned_off st).
Proof. done. Qed.

Lemma alter_present (f : CommandedState → CommandedState)
    (store : gmap string CommandedState) key :
  is_Some (store !! key) →
  alter f key store = <[key := f (state_get store key)]> store.
Proof.
  intros [st Hst]. unfold state_get. rewrite Hst. simpl.
  apply map_eq. intros k. destruct (decide (k = key)) as [->|Hne].
  - by rewrite lookup_alter_eq, lookup_insert_eq, Hst.
  - by rewrite lookup_alter_ne, lookup_insert_ne.
Qed.

Lemma panel_anim_parts_snapshot self store color t layout :
  valid_store store →
  panel_anim_parts self store color t layout
  = Ok ((λ '(panel_id, c), anim_part panel_id c t)
          <$> snapshot_entries (seg_entry_id self) (_panel_id self) color store layout).
Proof.
  intros Hv. induction layout as [|seg layout IH]; [done|].
  cbn [panel_anim_parts]. rewrite IH. unfold snapshot_entries. rewrite !fmap_cons.
  destruct (panelId seg =? _panel_id self) eqn:E.
  - apply Z.eqb_eq in E. rewrite decide_True by done. done.
  - apply Z.eqb_neq in E. rewrite decide_False by done.
    rewrite visible_color_shown by (by apply state_get_valid). done.
Qed.

Lemma commanded_valid u st : valid_update u → valid_state st → valid_state (commanded u st).
Proof. destruct u; simpl; [apply turned_on_valid|intros _; apply turned_off_valid]. Qed.

Lemma segment_update_unfold self coordinator u store :
  segment_update self coordinator u store
  = (alter (commanded u) (segment_state_key (seg_entry_id self) (_panel_id self)) store,
     _async_set_panel_color self coordinator
       (alter (commanded u) (segment_state_key (seg_entry_id self) (_panel_id self)) store)
       (update_transition u)).
Proof. by destruct u. Qed.

Lemma snapshot_entries_insert entry_id target color store st layout :
  snapshot_entries entry_id target color
    (<[segment_state_key entry_id target := st]> store) layout
  = snapshot_entries entry_id target color store layout.
Proof.
  unfold snapshot_entries. apply list_fmap_ext. intros _ seg _.
  destruct (decide (panelId seg = target)) as [|Hne]; [done|].
  unfold state_get. rewrite lookup_insert_ne; [done|].
  intros Heq. apply segment_state_key_inj in Heq. congruence.
Qed.

(** *** C1 *)

(** C1: a turn_on or turn_off of one segment entity, over a layout of N
    line segments that contains the entity's panel, makes one
    control-plane write whose [animData] is the count N followed by one
    record for each of the N panels of the layout, in layout order: the
    targeted panel carries the brightness-scaled colour just commanded,
    (0,0,0) when it was turned off, and every other panel carries the
    brightness-scaled colour of its stored state, or of the default
    on/255/white state when the store has no entry for it. Only the
    targeted panel's entry of the store changes. *)
Theorem per_panel_update_snapshot (self : NanoleafSegmentLight)
    (coordinator : Coordinator) (u : entity_update)
    (store : gmap string CommandedState) (t : Z) (w : world) (tr : list io_call) :
  let key := segment_state_key (seg_entry_id self) (_panel_id self) in
  let layout := segments coordinator in
  let new_state := commanded u (state_get store key) in
  let entries :=
    snapshot_entries (seg_entry_id self) (_panel_id self) (shown new_state) store layout in
  is_Some (store !! key) →
  _panel_id self ∈ panelId <$> layout →
  valid_store store →
  valid_update u →
  transition_tenths (update_transition u) = Ok t →
  (segment_update self coordinator u store).1 = <[key := new_state]> store ∧
  (segment_update self coordinator u store).2 w tr
    = (Ok tt,
       tr ++ [HttpPut (base_url (api coordinator) +:+ "/effects")
                (CustomAnimation (tokens_text (anim_tokens entries t))) 5]) ∧
  anim_tokens entries t
    = Z.of_nat (length layout)
        :: concat ((λ '(panel_id, (r, g, b)), [panel_id; 1; r; g; b; 0; t]) <$> entries) ∧
  entries.*1 = panelId <$> layout ∧
  (∀ seg, seg ∈ layout → panelId seg = _panel_id self →
     (panelId seg, shown new_state) ∈ entries) ∧
  (∀ seg, seg ∈ layout → panelId seg ≠ _panel_id self →
     (panelId seg,
      shown (default default_state
               (store !! segment_state_key (seg_entry_id self) (panelId seg))))
       ∈ entries) ∧
  (∀ transition, u = TurnOff transition → shown new_state = (0, 0, 0)).
Proof.
  intros key layout new_state entries Hkey Hin Hv Hu Ht.
  rewrite segment_update_unfold.
  rewrite (alter_present _ store _ Hkey).
  change (commanded u (state_get store
            (segment_state_key (seg_entry_id self) (_panel_id self))))
    with new_state.
  cbn [fst snd].
  assert (valid_state new_state) as Hnew
    by (apply commanded_valid; [done|by apply state_get_valid]).
  assert (valid_store (<[key := new_state]> store)) as Hv'
    by (by apply map_Forall_insert_2).
  assert (length entries = length layout) as Hlen
    by (unfold entries, snapshot_entries; by rewrite length_fmap).
  assert (entries ≠ []) as Hne.
  { intros E. rewrite E in Hlen. simpl in Hlen.
    destruct layout; [by apply elem_of_nil in Hin|done]. }
  split; [done|]. split.
  { unfold _async_set_panel_color, try_except, io_bind, io_lift, perform, io_ret.
    unfold state_get at 1. rewrite lookup_insert_eq. cbn [default from_option].
    rewrite visible_color_shown by done. rewrite Ht.
    rewrite panel_anim_parts_snapshot by done.
    rewrite snapshot_entries_insert.
    change (snapshot_entries (seg_entry_id self) (_panel_id self) (shown new_state)
              store (segments coordinator)) with entries.
    change (length (segments coordinator)) with (length layout).
    rewrite <- Hlen, anim_data_tokens by done.
    by destruct (w _). }
  split; [unfold anim_tokens; by rewrite Hlen|].
  split.
  { unfold entries, snapshot_entries. rewrite <- list_fmap_compose.
    by apply list_fmap_ext. }
  split.
  { intros seg Hseg Heq. unfold entries, snapshot_entries.
    apply list_elem_of_fmap. exists seg. split; [|done].
    by rewrite decide_True. }
  split.
  { intros seg Hseg Hneq. unfold entries, snapshot_entries.
    apply list_elem_of_fmap. exists seg. split; [|done].
    by rewrite decide_False. }
  intros transition ->. reflexivity.
Qed.

(** The constructor leaves the entity's key in the store, with a valid
    state, and no operation of the module removes a key. *)
Lemma segment_init_present entry_id segment index store :
  let '(self, store') := NanoleafSegmentLight_init entry_id segment index store in
  is_Some (store' !! segment_state_key (seg_entry_id self) (_panel_id self)) ∧
  (valid_store store → valid_store store').
Proof.
  unfold NanoleafSegmentLight_init. simpl.
  destruct (store !! segment_state_key entry_id (panelId segment)) as [st|] eqn:E.
  - split; [by rewrite E|done].
  - split; [by rewrite lookup_insert_eq|].
    intros Hv. apply map_Forall_insert_2; [|done].
    unfold valid_state, valid_rgb, byte_range. simpl. lia.
Qed.

Lemma per_panel_update_snapshot_witness :
  (segment_update panel_seven nine_coordinator turn_on_half nine_store).2 quiet_world []
  = (Ok tt,
     [HttpPut "http://192.168.1.50:16021/api/v1/abc/effects"
        (CustomAnimation
           ("9 1 1 9 19 245 0 5 2 1 18 36 235 0 5 3 1 26 52 225 0 5 "
            +:+ "4 1 33 67 215 0 5 5 1 40 80 205 0 5 6 1 45 91 195 0 5 "
            +:+ "7 1 128 25 0 0 5 8 1 54 109 175 0 5 9 1 58 116 165 0 5"))
        5]).
Proof.
  assert (valid_store nine_store) as Hv.
  { unfold nine_store. simpl.
    repeat (apply map_Forall_insert_2;
            [unfold valid_state, valid_rgb, byte_range; simpl; lia|]).
    apply map_Forall_empty. }
  assert (is_Some (nine_store !! segment_state_key "entry" 7)) as Hkey
    by (vm_compute; by eexists).
  assert (7 ∈ panelId <$> nine_segments) as Hin
    by (simpl; repeat (first [by left | right])).
  assert (valid_update turn_on_half) as Hu
    by (unfold valid_update, valid_kwargs, valid_rgb, byte_range; simpl; lia).
  assert (transition_tenths (update_transition turn_on_half) = Ok 5) as Ht
    by (vm_compute; reflexivity).
  destruct (per_panel_update_snapshot panel_seven nine_coordinator turn_on_half
              nine_store 5 quiet_world [] Hkey Hin Hv Hu Ht) as (_ & Hrun & _).
  rewrite Hrun. vm_compute. reflexivity.
Defined.

(** *** Group update *)

Lemma dict_set_keys {V} k (v : V) (d : list (Z * V)) :
  (dict_set k v d).*1 = if decide (k ∈ d.*1) then d.*1 else d.*1 ++ [k].
Proof.
  induction d as [|[k' v'] d IH].
  - cbn [dict_set fmap list_fmap fst].
    rewrite decide_False; [done|]. apply not_elem_of_nil.
  - cbn [dict_set]. rewrite !fmap_cons. cbn [fst].
    destruct (decide (k = k')) as [->|Hne].
    + rewrite fmap_cons. cbn [fst]. rewrite decide_True; [done|]. left.
    + rewrite fmap_cons, IH. cbn [fst].
      destruct (decide (k ∈ d.*1)) as [Hin|Hnin].
      * rewrite (decide_True (P := k ∈ k' :: d.*1)); [done|]. by right.
      * rewrite (decide_False (P := k ∈ k' :: d.*1)); [done|].
        by intros [?|?]%elem_of_cons.
Qed.

Lemma dict_set_values {V} (P : V → Prop) k v (d : list (Z * V)) :
  P v → Forall (λ kv, P kv.2) d → Forall (λ kv, P kv.2) (dict_set k v d).
Proof.
  intros Hv. induction 1 as [|[k' v'] d Hkv Hd IH]; simpl.
  - by repeat constructor.
  - destruct (decide (k = k')); constructor; done.
Qed.

Lemma group_panel_colors_spec (panel_ids : list Z) (color : rgb) :
  let panel_colors := group_panel_colors panel_ids color in
  (∀ pid, pid ∈ panel_colors.*1 ↔ pid ∈ panel_ids) ∧
  NoDup panel_colors.*1 ∧
  Forall (λ pc, pc.2 = color) panel_colors.
Proof.
  unfold group_panel_colors.
  assert (∀ d : list (Z * rgb),
            NoDup d.*1 → Forall (λ pc, pc.2 = color) d →
            let r := foldl (λ pcs pid, dict_set pid color pcs) d panel_ids in
            (∀ pid, pid ∈ r.*1 ↔ pid ∈ d.*1 ∨ pid ∈ panel_ids) ∧
            NoDup r.*1 ∧ Forall (λ pc, pc.2 = color) r) as Hgen.
  { induction panel_ids as [|p panel_ids IH]; intros d Hnd Hall; simpl.
    - split; [|done]. intros pid. rewrite elem_of_nil. tauto.
    - destruct (IH (dict_set p color d)) as (Hk & Hnd' & Hall').
      + rewrite dict_set_keys. destruct (decide (p ∈ d.*1)); [done|].
        apply NoDup_app. split; [done|]. split; [|apply NoDup_singleton].
        intros x Hx ->%list_elem_of_singleton. done.
      + by apply (dict_set_values (λ c, c = color)).
      + split; [|done]. intros pid. rewrite Hk, dict_set_keys, elem_of_cons.
        destruct (decide (p ∈ d.*1)) as [Hin|Hnin].
        * split; [tauto|]. intros [?|[->|?]]; tauto.
        * rewrite elem_of_app, list_elem_of_singleton. tauto. }
  destruct (Hgen [] (NoDup_nil_2) (Forall_nil_2 _)) as (Hk & Hnd & Hall).
  split; [|done]. intros pid. rewrite Hk, elem_of_nil. tauto.
Qed.

Lemma group_update_unfold self coordinator u store :
  group_update self coordinator u store
  = (alter (commanded u) (group_state_key (grp_entry_id self) (grp_index self)) store,
     _async_set_group_color self coordinator
       (alter (commanded u) (group_state_key (grp_entry_id self) (grp_index self)) store)
       (update_transition u)).
Proof. by destruct u. Qed.

(** *** C8 *)

(** C8: a turn_on or turn_off of a group entity builds a mapping whose
    keys are exactly the group's member panels, each with the one scaled
    colour of the group's commanded state; every call it makes encodes
    that mapping and nothing else. With streaming disabled the call is
    one reliable write whose [animData] counts and lists the members
    only, so a panel of the layout outside the group is absent from it. *)
Theorem group_update_members_only (self : NanoleafSegmentGroup)
    (coordinator : Coordinator) (u : entity_update)
    (store : gmap string CommandedState) (w : world) (tr : list io_call) :
  let key := group_state_key (grp_entry_id self) (grp_index self) in
  let new_state := commanded u (state_get store key) in
  let color := shown new_state in
  let panel_colors := group_panel_colors (_panel_ids self) color in
  let put := reliable_put (api coordinator) panel_colors 0 in
  let dgram :=
    UdpSendto (frame_bytes panel_colors 2) (host (api coordinator))
      (_udp_port (api coordinator)) in
  is_Some (store !! key) →
  valid_store store →
  valid_update u →
  _panel_ids self ≠ [] →
  (group_update self coordinator u store).1 = <[key := new_state]> store ∧
  (∀ pid, pid ∈ panel_colors.*1 ↔ pid ∈ _panel_ids self) ∧
  NoDup panel_colors.*1 ∧
  Forall (λ pc, pc.2 = color) panel_colors ∧
  (∃ calls,
     (group_update self coordinator u store).2 w tr = (Ok tt, tr ++ calls) ∧
     (calls = [put] ∨ calls = [dgram] ∨ calls = [dgram; put])) ∧
  (streaming_enabled (api coordinator) = false →
     (group_update self coordinator u store).2 w tr
       = (Ok tt,
          tr ++ [HttpPut (base_url (api coordinator) +:+ "/effects")
                   (CustomAnimation (tokens_text (anim_tokens panel_colors 0))) 0.5])) ∧
  (∀ seg, seg ∈ segments coordinator → panelId seg ∉ _panel_ids self →
     panelId seg ∉ panel_colors.*1) ∧
  (∀ transition, u = TurnOff transition → color = (0, 0, 0)).
Proof.
  intros key new_state color panel_colors put dgram Hkey Hv Hu Hne.
  subst key. rewrite group_update_unfold.
  rewrite (alter_present _ store _ Hkey).
  change (commanded u (state_get store
            (group_state_key (grp_entry_id self) (grp_index self))))
    with new_state.
  cbn [fst snd].
  assert (valid_state new_state) as Hnew
    by (apply commanded_valid; [done|by apply state_get_valid]).
  destruct (group_panel_colors_spec (_panel_ids self) color) as (Hk & Hnd & Hall).
  fold panel_colors in Hk, Hnd, Hall.
  assert (_async_set_group_color self coordinator
            (<[group_state_key (grp_entry_id self) (grp_index self) := new_state]> store)
            (update_transition u) w tr
          = set_multiple_panels_udp (api coordinator) panel_colors true w tr) as Hrun.
  { unfold _async_set_group_color, try_except, io_bind, io_lift.
    unfold state_get. rewrite lookup_insert_eq.
    change (default default_state (Some new_state)) with new_state.
    rewrite visible_color_shown by done.
    fold color. fold panel_colors.
    by rewrite set_multiple_panels_udp_run. }
  rewrite Hrun.
  pose proof (set_multiple_panels_udp_run (api coordinator) panel_colors true w tr)
    as Hudp.
  cbv zeta in Hudp. fold put dgram in Hudp.
  assert (panel_colors ≠ []) as Hpc.
  { intros E. destruct (_panel_ids self) as [|p ps] eqn:Eids; [done|].
    assert (p ∈ panel_colors.*1) as Hp by (apply Hk; left).
    rewrite E in Hp. by apply elem_of_nil in Hp. }
  split; [done|]. split; [done|]. split; [done|]. split; [done|].
  split.
  { rewrite Hudp. eexists. split; [reflexivity|].
    destruct (streaming_enabled (api coordinator)); [|by left].
    destruct (decide (fits_frame panel_colors)); [|by left].
    destruct (w _); [right; by right|right; by left]. }
  split.
  { intros Hoff. rewrite Hudp, Hoff. unfold put, reliable_put.
    by rewrite anim_data_tokens. }
  split.
  { intros seg _ Hnin Hin. apply Hnin. by apply Hk. }
  intros transition ->. reflexivity.
Qed.

Lemma group_update_members_only_witness :
  (group_update group_two http_only_coordinator turn_on_half group_store).2
     quiet_world []
  = (Ok tt,
     [HttpPut "http://192.168.1.50:16021/api/v1/abc/effects"
        (CustomAnimation "3 4 1 128 25 0 0 0 5 1 128 25 0 0 0 6 1 128 25 0 0 0") 0.5]).
Proof.
  assert (valid_store group_store) as Hv.
  { unfold group_store. apply map_Forall_singleton.
    unfold valid_state, valid_rgb, byte_range. simpl. lia. }
  assert (is_Some (group_store !! group_state_key "entry" 1)) as Hkey
    by (unfold group_store; rewrite lookup_singleton_eq; by eexists).
  assert (valid_update turn_on_half) as Hu
    by (unfold valid_update, valid_kwargs, valid_rgb, byte_range; simpl; lia).
  destruct (group_update_members_only group_two http_only_coordinator turn_on_half
              group_store quiet_world [] Hkey Hv Hu ltac:(done))
    as (_ & _ & _ & _ & _ & Hoff & _).
  rewrite (Hoff eq_refl). vm_compute. reflexivity.
Defined.

(** ** Layout resolver *)

Section layout_resolver_facts.
Local Open Scope R_scope.

(** *** Range of the angle *)




(** *** A panel just below the positive x axis *)







(** *** C9 *)



End layout_resolver_facts.

(** ** Brightness scaling, continued *)

Lemma scale_int_le_table :
  table_check (λ c b, (scale_int c b <=? c) && (scale_int c b <=? b)
                      && (implb (b =? 0) (scale_int c b =? 0))) = true.
Proof. vm_compute. reflexivity. Qed.

Lemma scale_int_le c b :
  byte_range c → byte_range b →
  scale_int c b ≤ c ∧ scale_int c b ≤ b ∧ (b = 0 → scale_int c b = 0).
Proof.
  intros Hc Hb.
  pose proof (table_check_spec _ c b scale_int_le_table Hc Hb) as H.
  apply andb_true_iff in H as [H H3]. apply andb_true_iff in H as [H1 H2].
  split; [lia|]. split; [lia|]. intros ->. simpl in H3. lia.
Qed.

(** X1: Whatever valid state is stored, the colour sent for it is again a
    triple of bytes, no channel is brighter than the stored one or than
    the brightness itself, and brightness 0 gives black. *)
Theorem visible_color_dims (st : CommandedState) :
  valid_state st →
  ∃ c, visible_color st = Ok c ∧ valid_rgb c ∧
       c.1.1 ≤ (rgb_color st).1.1 ∧ c.1.2 ≤ (rgb_color st).1.2 ∧
       c.2 ≤ (rgb_color st).2 ∧
       (is_on st = true → c.1.1 ≤ brightness st ∧ c.1.2 ≤ brightness st
                          ∧ c.2 ≤ brightness st) ∧
       (brightness st = 0 → c = (0, 0, 0)).
Proof.
  intros Hv. exists (shown st).
  split; [by apply visible_color_shown|].
  split; [by apply shown_valid|].
  destruct Hv as (Hb & Hr & Hg & Hbl). unfold shown.
  destruct (rgb_color st) as [[r g] b]. simpl in *.
  pose proof (scale_int_le r _ Hr Hb) as (Hr1 & Hr2 & Hr3).
  pose proof (scale_int_le g _ Hg Hb) as (Hg1 & Hg2 & Hg3).
  pose proof (scale_int_le b _ Hbl Hb) as (Hb1 & Hb2 & Hb3).
  unfold byte_range in *.
  destruct (is_on st); simpl.
  - repeat split; try lia. intros Hz. by rewrite Hr3, Hg3, Hb3.
  - repeat split; try lia; done.
Qed.

Lemma visible_color_dims_witness :
  ∃ c, visible_color {| is_on := true; brightness := 100; rgb_color := (255, 128, 7) |}
         = Ok c ∧ valid_rgb c ∧ c.1.1 ≤ 255 ∧ c.1.2 ≤ 128 ∧ c.2 ≤ 7.
Proof.
  destruct (visible_color_dims
              {| is_on := true; brightness := 100; rgb_color := (255, 128, 7) |})
    as (c & Hc & Hv & H1 & H2 & H3 & _).
  { unfold valid_state, valid_rgb, byte_range. simpl. lia. }
  exists c. repeat split; try done; apply Hv.
Defined.

(** *** Transition times *)

Lemma transition_tenths_table :
  table_check (λ hi lo,
    result_eqb (transition_tenths (PyFloat (py_truediv (256 * hi + lo) 10)))
      (256 * hi + lo)) = true.
Proof. vm_compute. reflexivity. Qed.

(** X2: A transition of [d] tenths of a second, passed as the float
    [d / 10] seconds, is encoded as exactly [d]: the truncation of
    [int(transition * 10)] never loses a tenth, from 0 up to the 6553
    seconds the light platform clamps a transition to. An int number of
    seconds is multiplied by ten. *)
Theorem transition_tenths_exact (d : Z) :
  0 ≤ d ≤ 65535 →
  transition_tenths (PyFloat (py_truediv d 10)) = Ok d ∧
  transition_tenths (PyInt d) = Ok (d * 10).
Proof.
  intros Hd. split; [|done].
  apply result_eqb_eq.
  pose proof (Z.div_mod d 256 ltac:(lia)) as Hdm.
  pose proof (Z.mod_pos_bound d 256 ltac:(lia)) as Hm.
  assert (byte_range (d / 256)) as Hhi.
  { unfold byte_range. split; [apply Z.div_pos; lia|].
    assert (d / 256 < 256); [apply Z.div_lt_upper_bound; lia|lia]. }
  assert (byte_range (d mod 256)) as Hlo by (unfold byte_range; lia).
  pose proof (table_check_spec _ _ _ transition_tenths_table Hhi Hlo) as Ht.
  simpl in Ht. by rewrite <- Hdm in Ht.
Qed.

Lemma transition_tenths_exact_witness :
  transition_tenths (PyFloat (py_truediv 7 10)) = Ok 7 ∧
  transition_tenths (PyInt 7) = Ok 70.
Proof. apply (transition_tenths_exact 7). lia. Defined.

(** ** Negotiation of the streaming channel *)

Lemma negotiation_failed_at (self : NanoleafAPI) (w : world) (i : nat) c e :
  negotiation_calls self !! i = Some c → w c = Some e →
  (false = true ↔ Forall (λ c, w c = None) (negotiation_calls self)).
Proof.
  intros Hi Hw. split; [done|]. intros HF.
  rewrite Forall_lookup in HF. specialize (HF i c Hi). congruence.
Qed.

(** X3: [enable_external_control] never raises. It makes the six calls of the
    negotiation in order and stops at the first one that raises; it
    returns True exactly when all six return, and then the session holds
    a socket, port 60222 and the enabled flag. In every other case the
    flag is False, so streaming is disabled, whether or not a socket was
    already created. Host and token are never changed. *)
Theorem enable_external_control_outcome (self : NanoleafAPI) (w : world)
    (tr : list io_call) :
  ∃ (ok : bool) (self' : NanoleafAPI) (k : nat),
    enable_external_control self w tr
      = (Ok (ok, self'), tr ++ take k (negotiation_calls self)) ∧
    (1 ≤ k ≤ 6)%nat ∧
    (ok = true ↔ Forall (λ c, w c = None) (negotiation_calls self)) ∧
    _external_control_enabled self' = ok ∧
    streaming_enabled self' = ok ∧
    host self' = host self ∧ token self' = token self ∧
    (ok = true →
       k = 6%nat ∧ _udp_socket self' = Some UdpSocket ∧ _udp_port self' = Some 60222) ∧
    (ok = false →
       ∃ c e, negotiation_calls self !! (k - 1)%nat = Some c ∧ w c = Some e).
Proof.
  unfold enable_external_control, try_except, io_bind, perform, io_ret.
  destruct (w (HttpPut (base_url self +:+ "/effects") ExtControl 3)) as [e|] eqn:E1.
  { eexists false, _, 1%nat. simpl. split; [done|]. split; [lia|].
    split; [by eapply (negotiation_failed_at self w 0)|].
    repeat split; try done. intros _. by eexists _, _. }
  destruct (w RaiseForStatus) as [e|] eqn:E2.
  { eexists false, _, 2%nat. simpl. rewrite <- app_assoc. split; [done|].
    split; [lia|]. split; [by eapply (negotiation_failed_at self w 1)|].
    repeat split; try done. intros _. by eexists _, _. }
  destruct (w (HttpGet (base_url self) 3)) as [e|] eqn:E3.
  { eexists false, _, 3%nat. simpl. rewrite <- !app_assoc. split; [done|].
    split; [lia|]. split; [by eapply (negotiation_failed_at self w 2)|].
    repeat split; try done. intros _. by eexists _, _. }
  destruct (w ResponseJson) as [e|] eqn:E4.
  { eexists false, _, 4%nat. simpl. rewrite <- !app_assoc. split; [done|].
    split; [lia|]. split; [by eapply (negotiation_failed_at self w 3)|].
    repeat split; try done. intros _. by eexists _, _. }
  destruct (w SocketCreate) as [e|] eqn:E5.
  { eexists false, _, 5%nat. simpl. rewrite <- !app_assoc. split; [done|].
    split; [lia|]. split; [by eapply (negotiation_failed_at self w 4)|].
    repeat split; try done. intros _. by eexists _, _. }
  destruct (w SocketSetBlocking) as [e|] eqn:E6.
  { eexists false, _, 6%nat. simpl. rewrite <- !app_assoc. split; [done|].
    split; [lia|]. split; [by eapply (negotiation_failed_at self w 5)|].
    repeat split; try done. intros _. by eexists _, _. }
  eexists true, _, 6%nat. simpl. rewrite <- !app_assoc. split; [done|].
  split; [lia|]. split.
  { split; [|done]. intros _. unfold negotiation_calls. by repeat constructor. }
  repeat split; done.
Qed.




(** ** The single-panel write *)

(** X5: [set_panel_color] writes the very command text that the batch write
    sends for a mapping with this one panel; the two differ in the
    timeout (5 s against 0.5 s) and in that nothing is caught here: an
    error of the write or of the status check reaches the caller, after
    exactly the calls made up to it. *)
Theorem set_panel_color_single_entry (self : NanoleafAPI) (panel_id r g b t : Z)
    (w : world) (tr : list io_call) :
  let url := base_url self +:+ "/effects" in
  let text := tokens_text (anim_tokens [(panel_id, (r, g, b))] t) in
  let put := HttpPut url (CustomAnimation text) 5 in
  reliable_put self [(panel_id, (r, g, b))] t = HttpPut url (CustomAnimation text) 0.5 ∧
  set_panel_color self panel_id r g b t w tr
  = match w put with
    | Some e => (Raise e, tr ++ [put])
    | None =>
        match w RaiseForStatus with
        | Some e => (Raise e, tr ++ [put; RaiseForStatus])
        | None => (Ok tt, tr ++ [put; RaiseForStatus])
        end
    end.
Proof.
  intros url text put.
  assert ("1 " +:+ pretty panel_id +:+ " 1 " +:+ pretty r +:+ " " +:+ pretty g +:+ " "
            +:+ pretty b +:+ " 0 " +:+ pretty t = text) as Htext.
  { unfold text. rewrite <- (anim_data_tokens [(panel_id, (r, g, b))] t) by done.
    unfold anim_data_of. cbn [length fmap list_fmap String.concat]. unfold anim_part.
    change (pretty 1%nat) with "1". change "1 " with ("1" +:+ " ").
    by rewrite !string_app_assoc. }
  split.
  - unfold reliable_put. fold url. by rewrite anim_data_tokens.
  - unfold set_panel_color, io_bind, perform. fold url. rewrite Htext. fold put.
    destruct (w put); [done|]. destruct (w RaiseForStatus); by rewrite <- app_assoc.
Qed.

(** ** Entities, continued *)

Lemma default_state_valid : valid_state default_state.
Proof. unfold valid_state, valid_rgb, byte_range. simpl. lia. Qed.

Lemma nine_store_valid : valid_store nine_store.
Proof.
  unfold nine_store. simpl.
  repeat (apply map_Forall_insert_2;
          [unfold valid_state, valid_rgb, byte_range; simpl; lia|]).
  apply map_Forall_empty.
Qed.

Lemma segment_update_run self coordinator u store t (w : world) tr :
  let key := segment_state_key (seg_entry_id self) (_panel_id self) in
  let new_state := commanded u (state_get store key) in
  is_Some (store !! key) →
  segments coordinator ≠ [] →
  valid_store store →
  valid_update u →
  transition_tenths (update_transition u) = Ok t →
  (segment_update self coordinator u store).1 = <[key := new_state]> store ∧
  (segment_update self coordinator u store).2 w tr
    = (Ok tt,
       tr ++ [HttpPut (base_url (api coordinator) +:+ "/effects")
                (CustomAnimation
                   (tokens_text
                      (anim_tokens
                         (snapshot_entries (seg_entry_id self) (_panel_id self)
                            (shown new_state) store (segments coordinator)) t))) 5]).
Proof.
  intros key new_state Hkey Hlay Hv Hu Ht.
  rewrite segment_update_unfold.
  rewrite (alter_present _ store _ Hkey).
  change (commanded u (state_get store
            (segment_state_key (seg_entry_id self) (_panel_id self))))
    with new_state.
  cbn [fst snd].
  assert (valid_state new_state) as Hnew
    by (apply commanded_valid; [done|by apply state_get_valid]).
  assert (valid_store (<[key := new_state]> store)) as Hv'
    by (by apply map_Forall_insert_2).
  set (entries := snapshot_entries (seg_entry_id self) (_panel_id self)
                    (shown new_state) store (segments coordinator)).
  assert (length entries = length (segments coordinator)) as Hlen
    by (unfold entries, snapshot_entries; by rewrite length_fmap).
  assert (entries ≠ []) as Hne.
  { intros E. rewrite E in Hlen. simpl in Hlen.
    destruct (segments coordinator); done. }
  split; [done|].
  unfold _async_set_panel_color, try_except, io_bind, io_lift, perform, io_ret.
  unfold state_get at 1. rewrite lookup_insert_eq. cbn [default from_option].
  rewrite visible_color_shown by done. rewrite Ht.
  rewrite panel_anim_parts_snapshot by done.
  rewrite snapshot_entries_insert. fold entries.
  rewrite <- Hlen, anim_data_tokens by done.
  by destruct (w _).
Qed.

(** *** Reading back *)

(** X6: After [async_turn_on] the entity reports the brightness and the
    colour just passed, or the stored ones where an argument was left
    out, and reports on unless the device as a whole is reported off;
    after [async_turn_off] it reports off whatever the device reports,
    with brightness and colour kept. Neither changes what an entity of
    another panel of the same entry reports. *)
Theorem segment_update_reads_back (self other : NanoleafSegmentLight)
    (coordinator : Coordinator) (kwargs : turn_on_kwargs) (transition : option pynum)
    (store : gmap string CommandedState) (data : option (option bool)) :
  is_Some (store !! segment_state_key (seg_entry_id self) (_panel_id self)) →
  seg_entry_id other = seg_entry_id self →
  _panel_id other ≠ _panel_id self →
  let on := (async_turn_on self coordinator kwargs store).1 in
  let off := (async_turn_off self coordinator transition store).1 in
  segment_brightness self on
    = default (segment_brightness self store) (kw_brightness kwargs) ∧
  segment_rgb_color self on
    = default (segment_rgb_color self store) (kw_rgb_color kwargs) ∧
  segment_is_on self on data = global_on data ∧
  segment_is_on self off data = false ∧
  segment_brightness self off = segment_brightness self store ∧
  segment_rgb_color self off = segment_rgb_color self store ∧
  (∀ s, s = on ∨ s = off →
     segment_is_on other s data = segment_is_on other store data ∧
     segment_brightness other s = segment_brightness other store ∧
     segment_rgb_color other s = segment_rgb_color other store).
Proof.
  intros Hkey Hentry Hpanel on off.
  unfold on, off, async_turn_on, async_turn_off. cbn [fst].
  rewrite !(alter_present _ store _ Hkey).
  unfold segment_brightness, segment_rgb_color, segment_is_on.
  set (key := segment_state_key (seg_entry_id self) (_panel_id self)).
  assert (∀ st, state_get (<[key := st]> store) key = st) as Hsame.
  { intros st. unfold state_get. by rewrite lookup_insert_eq. }
  assert (∀ st, state_get (<[key := st]> store)
                  (segment_state_key (seg_entry_id other) (_panel_id other))
                = state_get store
                    (segment_state_key (seg_entry_id other) (_panel_id other)))
    as Hother.
  { intros st. unfold state_get. rewrite lookup_insert_ne; [done|].
    unfold key. rewrite Hentry. intros Heq.
    apply segment_state_key_inj in Heq. congruence. }
  rewrite !Hsame. cbn [turned_on turned_off is_on brightness rgb_color].
  split; [done|]. split; [done|].
  split; [by destruct data as [[[]|]|]|].
  split; [by destruct data as [[[]|]|]|].
  split; [done|]. split; [done|].
  intros s [->| ->]; by rewrite Hother.
Qed.

Lemma segment_update_reads_back_witness :
  segment_brightness panel_seven
    (async_turn_on panel_seven nine_coordinator
       {| kw_brightness := Some 128; kw_rgb_color := None; kw_transition := None |}
       nine_store).1 = 128 ∧
  segment_rgb_color panel_seven
    (async_turn_on panel_seven nine_coordinator
       {| kw_brightness := Some 128; kw_rgb_color := None; kw_transition := None |}
       nine_store).1 = (70, 140, 255).
Proof.
  destruct (segment_update_reads_back panel_seven
              {| seg_entry_id := "entry"; _panel_id := 3; seg_index := 2 |}
              nine_coordinator
              {| kw_brightness := Some 128; kw_rgb_color := None; kw_transition := None |}
              None nine_store None) as (Hb & Hc & _).
  - by eexists.
  - reflexivity.
  - simpl. lia.
  - split; [exact Hb|exact Hc].
Defined.

(** *** Off and on again *)

(** X7: Turning a lit segment off and then on with no arguments leaves the
    store exactly as it was before the two calls, and the write of the
    second call shows the panel in the colour it had before the first. *)
Theorem turn_off_then_on_restores (self : NanoleafSegmentLight)
    (coordinator : Coordinator) (transition : option pynum)
    (store : gmap string CommandedState) (st : CommandedState)
    (w : world) (tr : list io_call) :
  let no_kwargs :=
    {| kw_brightness := None; kw_rgb_color := None; kw_transition := None |} in
  let off := (async_turn_off self coordinator transition store).1 in
  store !! segment_state_key (seg_entry_id self) (_panel_id self) = Some st →
  is_on st = true →
  segments coordinator ≠ [] →
  valid_store store →
  (async_turn_on self coordinator no_kwargs off).1 = store ∧
  (async_turn_on self coordinator no_kwargs off).2 w tr
    = (Ok tt,
       tr ++ [HttpPut (base_url (api coordinator) +:+ "/effects")
                (CustomAnimation
                   (tokens_text
                      (anim_tokens
                         (snapshot_entries (seg_entry_id self) (_panel_id self)
                            (shown st) store (segments coordinator)) 0))) 5]).
Proof.
  intros no_kwargs off Hst Hon Hlay Hv.
  set (key := segment_state_key (seg_entry_id self) (_panel_id self)) in *.
  assert (off = <[key := turned_off st]> store) as Hoff.
  { unfold off, async_turn_off. cbn [fst]. fold key.
    rewrite alter_present by (by eexists). unfold state_get. by rewrite Hst. }
  assert (valid_state st) as Hvst by (by apply (Hv key)).
  assert (valid_store off) as Hvoff.
  { rewrite Hoff. by apply map_Forall_insert_2. }
  assert (state_get off key = turned_off st) as Hget.
  { rewrite Hoff. unfold state_get. by rewrite lookup_insert_eq. }
  assert (turned_on no_kwargs (turned_off st) = st) as Hback.
  { destruct st as [o b c]. simpl in Hon. by subst o. }
  destruct (segment_update_run self coordinator (TurnOn no_kwargs) off 0 w tr)
    as [Hstore Hrun]; try done.
  { rewrite Hoff. fold key. by rewrite lookup_insert_eq. }
  cbn [segment_update] in Hstore, Hrun. fold key in Hstore, Hrun.
  rewrite Hget in Hstore, Hrun. cbn [commanded] in Hstore, Hrun.
  rewrite Hback in Hstore, Hrun.
  split.
  - rewrite Hstore, Hoff, insert_insert_eq. by apply insert_id.
  - rewrite Hrun, Hoff. unfold key. by rewrite snapshot_entries_insert.
Qed.

Lemma turn_off_then_on_restores_witness :
  (async_turn_on panel_seven nine_coordinator
     {| kw_brightness := None; kw_rgb_color := None; kw_transition := None |}
     (async_turn_off panel_seven nine_coordinator None nine_store).1).1 = nine_store.
Proof.
  refine (proj1 (turn_off_then_on_restores panel_seven nine_coordinator None nine_store
                   {| is_on := true; brightness := 185; rgb_color := (70, 140, 255) |}
                   quiet_world [] _ _ _ _)).
  - reflexivity.
  - reflexivity.
  - discriminate.
  - apply nine_store_valid.
Defined.

(** *** Two updates in a row *)

(** X8: When one segment is updated and then another one of the same entry,
    the write of the second update still carries, for the first panel,
    the colour that the first update commanded. *)
Theorem successive_updates_keep_earlier (first second : NanoleafSegmentLight)
    (coordinator : Coordinator) (u1 u2 : entity_update)
    (store : gmap string CommandedState) (t2 : Z) (w : world) (tr : list io_call) :
  let layout := segments coordinator in
  let key1 := segment_state_key (seg_entry_id first) (_panel_id first) in
  let key2 := segment_state_key (seg_entry_id second) (_panel_id second) in
  let state1 := commanded u1 (state_get store key1) in
  let state2 := commanded u2 (state_get store key2) in
  let store1 := (segment_update first coordinator u1 store).1 in
  let entries :=
    snapshot_entries (seg_entry_id second) (_panel_id second) (shown state2)
      store1 layout in
  seg_entry_id second = seg_entry_id first →
  _panel_id second ≠ _panel_id first →
  is_Some (store !! key1) → is_Some (store !! key2) →
  _panel_id first ∈ panelId <$> layout →
  valid_store store →
  valid_update u1 → valid_update u2 →
  transition_tenths (update_transition u2) = Ok t2 →
  (segment_update second coordinator u2 store1).1
    = <[key2 := state2]> (<[key1 := state1]> store) ∧
  (segment_update second coordinator u2 store1).2 w tr
    = (Ok tt,
       tr ++ [HttpPut (base_url (api coordinator) +:+ "/effects")
                (CustomAnimation (tokens_text (anim_tokens entries t2))) 5]) ∧
  (_panel_id first, shown state1) ∈ entries ∧
  (∀ seg, seg ∈ layout → panelId seg = _panel_id second →
     (panelId seg, shown state2) ∈ entries).
Proof.
  intros layout key1 key2 state1 state2 store1 entries
    Hentry Hpanel Hk1 Hk2 Hin Hv Hu1 Hu2 Ht2.
  assert (key2 ≠ key1) as Hkeys.
  { unfold key1, key2. rewrite Hentry. intros Heq.
    apply segment_state_key_inj in Heq. congruence. }
  assert (store1 = <[key1 := state1]> store) as Hstore1.
  { unfold store1. rewrite segment_update_unfold. cbn [fst].
    by rewrite alter_present. }
  assert (valid_store store1) as Hv1.
  { rewrite Hstore1. apply map_Forall_insert_2; [|done].
    apply commanded_valid; [done|by apply state_get_valid]. }
  assert (state_get store1 key2 = state_get store key2) as Hget2.
  { rewrite Hstore1. unfold state_get. by rewrite lookup_insert_ne. }
  assert (layout ≠ []) as Hlay.
  { intros E. rewrite E in Hin. by apply elem_of_nil in Hin. }
  destruct (segment_update_run second coordinator u2 store1 t2 w tr)
    as [Hstore Hrun]; try done.
  { rewrite Hstore1. fold key2. rewrite lookup_insert_ne; done. }
  fold key2 in Hstore, Hrun. rewrite Hget2 in Hstore, Hrun.
  split; [by rewrite Hstore, Hstore1|]. split; [exact Hrun|].
  split.
  - apply list_elem_of_fmap in Hin as (seg & Hid & Hseg).
    unfold entries, snapshot_entries. apply list_elem_of_fmap.
    exists seg. split; [|done].
    rewrite decide_False by congruence.
    rewrite <- Hid, Hentry. fold key1.
    rewrite Hstore1. unfold state_get at 1. by rewrite lookup_insert_eq.
  - intros seg Hseg Hid. unfold entries, snapshot_entries.
    apply list_elem_of_fmap. exists seg. split; [|done].
    by rewrite decide_True.
Qed.

Lemma successive_updates_keep_earlier_witness :
  (7, (128, 25, 0))
    ∈ snapshot_entries "entry" 3 (0, 0, 0)
        (segment_update panel_seven nine_coordinator turn_on_half nine_store).1
        nine_segments.
Proof.
  refine (proj1 (proj2 (proj2
    (successive_updates_keep_earlier panel_seven
       {| seg_entry_id := "entry"; _panel_id := 3; seg_index := 2 |}
       nine_coordinator turn_on_half (TurnOff None) nine_store 0 quiet_world []
       _ _ _ _ _ _ _ _ _)))).
  - reflexivity.
  - simpl. lia.
  - vm_compute. by eexists.
  - vm_compute. by eexists.
  - simpl. repeat (first [by left | right]).
  - apply nine_store_valid.
  - unfold valid_update, valid_kwargs, valid_rgb, byte_range; simpl; lia.
  - exact I.
  - reflexivity.
Defined.

(** ** Platform setup *)

(** *** Groups that setup can produce *)

Lemma py_getitem_elem {A} (l : list A) i a : py_getitem l i = Ok a → a ∈ l.
Proof.
  unfold py_getitem. destruct (_ <? 0); [done|].
  destruct (l !! _) as [a'|] eqn:E; [|done].
  intros [= <-]. by eapply list_elem_of_lookup_2.
Qed.

Lemma py_getitem_exn {A} (l : list A) i e : py_getitem l i = Raise e → e = IndexError.
Proof.
  unfold py_getitem. destruct (_ <? 0); [congruence|].
  destruct (l !! _); congruence.
Qed.

Lemma group_segments_of_elem segments group_indices g :
  group_segments_of segments group_indices = Ok g → Forall (.∈ segments) g.
Proof.
  revert g. induction group_indices as [|i rest IH]; intros g; simpl.
  - by intros [= <-].
  - destruct (i <? _); [|apply IH].
    destruct (py_getitem segments i) as [s|] eqn:Es; [|done]. simpl.
    destruct (group_segments_of segments rest) as [r|]; [|done]. simpl.
    intros [= <-]. constructor; [by eapply py_getitem_elem|by apply IH].
Qed.

Lemma group_segments_of_exn segments group_indices e :
  group_segments_of segments group_indices = Raise e → e = IndexError.
Proof.
  induction group_indices as [|i rest IH]; simpl; [done|].
  destruct (i <? _); [|apply IH].
  destruct (py_getitem segments i) as [s|] eqn:Es; simpl.
  - destruct (group_segments_of segments rest) as [r|]; simpl; [done|].
    intros [= <-]. by apply IH.
  - intros [= <-]. by eapply py_getitem_exn.
Qed.

Lemma manual_groups_loop_members segments manual_groups groups :
  manual_groups_loop segments manual_groups = Ok groups →
  Forall (group_of_layout segments) groups.
Proof.
  revert groups. induction manual_groups as [|g rest IH]; intros groups; simpl.
  - by intros [= <-].
  - destruct (group_segments_of segments g) as [gs|] eqn:Eg; [|done]. simpl.
    destruct (manual_groups_loop segments rest) as [r|]; [|done]. simpl.
    apply group_segments_of_elem in Eg.
    destruct gs as [|s gs]; intros [= <-]; [by apply IH|].
    constructor; [done|by apply IH].
Qed.

Lemma manual_groups_loop_exn segments manual_groups e :
  manual_groups_loop segments manual_groups = Raise e → e = IndexError.
Proof.
  induction manual_groups as [|g rest IH]; simpl; [done|].
  destruct (group_segments_of segments g) as [gs|] eqn:Eg; simpl.
  - destruct (manual_groups_loop segments rest) as [r|]; simpl; [done|].
    intros [= <-]. by apply IH.
  - intros [= <-]. by eapply group_segments_of_exn.
Qed.

Lemma create_groups_members segments group_size :
  1 ≤ group_size →
  ∃ groups, create_groups_by_position segments group_size = Ok groups ∧
            Forall (group_of_layout segments) groups.
Proof.
  intros HG. unfold create_groups_by_position, py_range.
  destruct (group_size =? 0) eqn:E0; [apply Z.eqb_eq in E0; lia|].
  destruct (0 <? group_size) eqn:E1; [|apply Z.ltb_ge in E1; lia].
  simpl. eexists. split; [reflexivity|].
  apply Forall_fmap, Forall_lookup. intros k i Hi.
  apply lookup_range_up in Hi as [-> Hlt]. simpl.
  split.
  - intros E. pose proof (length_slice (py_sorted angle_key segments) group_size HG
                           (0 + Z.of_nat k * group_size) ltac:(lia) Hlt) as Hlen.
    rewrite E in Hlen. simpl in Hlen. lia.
  - apply Forall_forall. intros s Hs. unfold py_slice in Hs.
    apply subseteq_take, subseteq_drop in Hs.
    by rewrite py_sorted_perm in Hs.
Qed.

Lemma setup_groups_members segments manual_groups groups :
  setup_groups segments manual_groups = Ok groups →
  Forall (group_of_layout segments) groups.
Proof.
  unfold setup_groups.
  assert (create_groups_by_position segments DEFAULT_GROUP_SIZE = Ok groups →
          Forall (group_of_layout segments) groups) as Hauto.
  { destruct (create_groups_members segments DEFAULT_GROUP_SIZE) as (gs & -> & Hgs);
      [done|]. by intros [= <-]. }
  destruct manual_groups as [[|g gs]|]; [done| |done].
  apply manual_groups_loop_members.
Qed.

Lemma setup_groups_exn segments manual_groups e :
  setup_groups segments manual_groups = Raise e →
  e = IndexError ∧
  ∃ gs, manual_groups = Some gs ∧ Exists (Exists (λ i, i < 0)) gs.
Proof.
  unfold setup_groups.
  assert (create_groups_by_position segments DEFAULT_GROUP_SIZE ≠ Raise e) as Hauto.
  { destruct (create_groups_members segments DEFAULT_GROUP_SIZE) as (gs & -> & Hgs);
      done. }
  destruct manual_groups as [[|g gs]|]; [done| |done].
  intros Hraise. split; [by eapply manual_groups_loop_exn|].
  exists (g :: gs). split; [done|].
  destruct (decide (Forall (Forall (λ i, 0 ≤ i)) (g :: gs))) as [Hall|Hneg].
  - by rewrite manual_groups_loop_nonneg in Hraise.
  - apply not_Forall_Exists in Hneg; [|apply _].
    eapply Exists_impl; [exact Hneg|]. intros l Hl. simpl in Hl.
    apply not_Forall_Exists in Hl; [|apply _].
    eapply Exists_impl; [exact Hl|]. simpl. lia.
Qed.

(** *** The stores after the constructors *)

Lemma segment_entities_fst entry_id idx segments store :
  (segment_entities entry_id idx segments store).1
  = imap (λ i seg, {| seg_entry_id := entry_id; _panel_id := panelId seg;
                      seg_index := idx + i |}) segments.
Proof.
  revert idx store. induction segments as [|seg rest IH]; intros idx store; [done|].
  cbn [segment_entities NanoleafSegmentLight_init].
  destruct (segment_entities entry_id (S idx) rest _) as [es st'] eqn:E.
  cbn [fst imap]. rewrite Nat.add_0_r. f_equal.
  pose proof (IH (S idx) (match store !! segment_state_key entry_id (panelId seg) with
                          | Some _ => store
                          | None => <[segment_state_key entry_id (panelId seg)
                                        := default_state]> store
                          end)) as IH'.
  rewrite E in IH'. simpl in IH'. rewrite IH'.
  apply imap_ext. intros i x _. simpl. f_equal. lia.
Qed.

Lemma segment_entities_snd entry_id idx segments store k :
  (segment_entities entry_id idx segments store).2 !! k
  = match store !! k with
    | Some st => Some st
    | None =>
        if decide (k ∈ (λ seg, segment_state_key entry_id (panelId seg)) <$> segments)
        then Some default_state else None
    end.
Proof.
  revert idx store. induction segments as [|seg rest IH]; intros idx store.
  - cbn [segment_entities snd fmap list_fmap length seq]. destruct (store !! k); [done|].
    rewrite decide_False; [done|]. apply not_elem_of_nil.
  - cbn [segment_entities NanoleafSegmentLight_init].
    set (key := segment_state_key entry_id (panelId seg)).
    set (store1 := match store !! key with
                   | Some _ => store
                   | None => <[key := default_state]> store
                   end).
    pose proof (IH (S idx) store1) as IH'.
    destruct (segment_entities entry_id (S idx) rest store1) as [es st'] eqn:E.
    cbn [snd] in IH' |- *. rewrite IH'. rewrite fmap_cons. fold key.
    unfold store1. destruct (decide (k = key)) as [->|Hne].
    + destruct (store !! key) as [st|] eqn:Ek.
      * by rewrite Ek.
      * rewrite lookup_insert_eq. rewrite decide_True; [done|]. left.
    + assert (match store !! key with
              | Some _ => store
              | None => <[key := default_state]> store
              end !! k = store !! k) as ->.
      { destruct (store !! key); [done|]. by rewrite lookup_insert_ne. }
      destruct (store !! k); [done|].
      destruct (decide (k ∈ _ <$> rest)) as [Hin|Hnin].
      * rewrite decide_True; [done|]. by right.
      * rewrite decide_False; [done|]. by intros [?|?]%elem_of_cons.
Qed.

Lemma group_entities_fst entry_id idx groups store :
  (group_entities entry_id idx groups store).1
  = imap (λ i g, {| grp_entry_id := entry_id; _panel_ids := panelId <$> g;
                    grp_index := idx + i |}) groups.
Proof.
  revert idx store. induction groups as [|g rest IH]; intros idx store; [done|].
  cbn [group_entities NanoleafSegmentGroup_init].
  destruct (group_entities entry_id (S idx) rest _) as [es st'] eqn:E.
  cbn [fst imap]. rewrite Nat.add_0_r. f_equal.
  pose proof (IH (S idx) (match store !! group_state_key entry_id idx with
                          | Some _ => store
                          | None => <[group_state_key entry_id idx := default_state]> store
                          end)) as IH'.
  rewrite E in IH'. simpl in IH'. rewrite IH'.
  apply imap_ext. intros i x _. simpl. f_equal. lia.
Qed.

Lemma group_entities_snd entry_id idx groups store k :
  (group_entities entry_id idx groups store).2 !! k
  = match store !! k with
    | Some st => Some st
    | None =>
        if decide (k ∈ group_state_key entry_id <$> seq idx (length groups))
        then Some default_state else None
    end.
Proof.
  revert idx store. induction groups as [|g rest IH]; intros idx store.
  - cbn [group_entities snd fmap list_fmap length seq]. destruct (store !! k); [done|].
    rewrite decide_False; [done|]. apply not_elem_of_nil.
  - cbn [group_entities NanoleafSegmentGroup_init].
    set (key := group_state_key entry_id idx).
    set (store1 := match store !! key with
                   | Some _ => store
                   | None => <[key := default_state]> store
                   end).
    pose proof (IH (S idx) store1) as IH'.
    destruct (group_entities entry_id (S idx) rest store1) as [es st'] eqn:E.
    cbn [snd] in IH' |- *. rewrite IH'. cbn [length seq]. rewrite fmap_cons. fold key.
    unfold store1. destruct (decide (k = key)) as [->|Hne].
    + destruct (store !! key) as [st|] eqn:Ek.
      * by rewrite Ek.
      * rewrite lookup_insert_eq. rewrite decide_True; [done|]. left.
    + assert (match store !! key with
              | Some _ => store
              | None => <[key := default_state]> store
              end !! k = store !! k) as ->.
      { destruct (store !! key); [done|]. by rewrite lookup_insert_ne. }
      destruct (store !! k); [done|].
      destruct (decide (k ∈ _ <$> seq (S idx) (length rest))) as [Hin|Hnin].
      * rewrite decide_True; [done|]. by right.
      * rewrite decide_False; [done|]. by intros [?|?]%elem_of_cons.
Qed.

Lemma registered_valid (store store' : gmap string CommandedState) (P : string → Prop)
    `{∀ k, Decision (P k)} :
  (∀ k, store' !! k = match store !! k with
                      | Some st => Some st
                      | None => if decide (P k) then Some default_state else None
                      end) →
  store ⊆ store' ∧ (valid_store store → valid_store store').
Proof.
  intros Hl. split.
  - apply map_subseteq_spec. intros k st Hk. by rewrite Hl, Hk.
  - intros Hv k st Hk. rewrite Hl in Hk.
    destruct (store !! k) as [st'|] eqn:E.
    + injection Hk as <-. by apply (Hv k).
    + destruct (decide (P k)); [|done]. injection Hk as <-.
      apply default_state_valid.
Qed.

Lemma async_setup_entry_seg_store entry_id coordinator create_groups manual_groups
    (S G : gmap string CommandedState) :
  (async_setup_entry entry_id coordinator create_groups manual_groups S G).2.1
  = (segment_entities entry_id 0 (segments coordinator) S).2.
Proof.
  unfold async_setup_entry.
  destruct (segment_entities entry_id 0 (segments coordinator) S) as [es st].
  destruct create_groups; [|done].
  destruct (setup_groups _ _) as [groups|e]; [|done].
  by destruct (group_entities entry_id 0 groups G).
Qed.

Lemma async_setup_entry_lights entry_id coordinator create_groups manual_groups
    (S G : gmap string CommandedState) lights groups :
  (async_setup_entry entry_id coordinator create_groups manual_groups S G).1
    = Ok (lights, groups) →
  lights = imap (λ i seg, {| seg_entry_id := entry_id; _panel_id := panelId seg;
                             seg_index := i |}) (segments coordinator).
Proof.
  intros Hr.
  assert (lights = (segment_entities entry_id 0 (segments coordinator) S).1) as ->.
  { revert Hr. unfold async_setup_entry.
    destruct (segment_entities entry_id 0 (segments coordinator) S) as [es st].
    destruct create_groups; [|by intros [= <- <-]].
    destruct (setup_groups _ _) as [gs|e]; [|done].
    destruct (group_entities entry_id 0 gs G). by intros [= <- <-]. }
  by rewrite segment_entities_fst.
Qed.

Lemma async_setup_entry_lookup entry_id coordinator create_groups manual_groups
    (S G : gmap string CommandedState) k :
  (async_setup_entry entry_id coordinator create_groups manual_groups S G).2.1 !! k
  = match S !! k with
    | Some st => Some st
    | None =>
        if decide (k ∈ (λ seg, segment_state_key entry_id (panelId seg))
                         <$> segments coordinator)
        then Some default_state else None
    end.
Proof. rewrite async_setup_entry_seg_store. apply segment_entities_snd. Qed.

Lemma async_setup_entry_light entry_id coordinator create_groups manual_groups
    (S G : gmap string CommandedState) lights groups light :
  let r := async_setup_entry entry_id coordinator create_groups manual_groups S G in
  r.1 = Ok (lights, groups) →
  light ∈ lights →
  seg_entry_id light = entry_id ∧
  _panel_id light ∈ panelId <$> segments coordinator ∧
  is_Some (r.2.1 !! segment_state_key (seg_entry_id light) (_panel_id light)).
Proof.
  intros r Hr Hlight. apply async_setup_entry_lights in Hr.
  rewrite Hr in Hlight.
  apply elem_of_lookup_imap in Hlight as (i & seg & -> & Hseg). cbn.
  apply list_elem_of_lookup_2 in Hseg.
  split; [done|]. split; [by apply list_elem_of_fmap_2|].
  unfold r. rewrite async_setup_entry_lookup.
  destruct (S !! segment_state_key entry_id (panelId seg)); [by eexists|].
  rewrite decide_True; [by eexists|].
  by apply (list_elem_of_fmap_2 (λ seg, segment_state_key entry_id (panelId seg))).
Qed.

(** *** Segment entities *)

(** X9: Setup leaves in the segment store every state that was there, adds
    the default state under the key of each segment that had none, and
    adds nothing else; this holds also when group creation then raises.
    When setup returns, the segment entities are one per segment of the
    layout, in layout order and numbered from 0, and the key of each is
    in the store. *)
Theorem async_setup_entry_segments (entry_id : string) (coordinator : Coordinator)
    (create_groups : bool) (manual_groups : option (list (list Z)))
    (S G : gmap string CommandedState) :
  let r := async_setup_entry entry_id coordinator create_groups manual_groups S G in
  let keys :=
    (λ seg, segment_state_key entry_id (panelId seg)) <$> segments coordinator in
  (∀ k, r.2.1 !! k
        = match S !! k with
          | Some st => Some st
          | None => if decide (k ∈ keys) then Some default_state else None
          end) ∧
  S ⊆ r.2.1 ∧
  (valid_store S → valid_store r.2.1) ∧
  (∀ lights groups, r.1 = Ok (lights, groups) →
     lights = imap (λ i seg, {| seg_entry_id := entry_id; _panel_id := panelId seg;
                                seg_index := i |}) (segments coordinator) ∧
     ∀ light, light ∈ lights →
       seg_entry_id light = entry_id ∧
       _panel_id light ∈ panelId <$> segments coordinator ∧
       is_Some (r.2.1 !! segment_state_key (seg_entry_id light) (_panel_id light))).
Proof.
  intros r keys.
  pose proof (async_setup_entry_lookup entry_id coordinator create_groups
                manual_groups S G) as Hl.
  fold r keys in Hl.
  split; [exact Hl|].
  destruct (registered_valid S r.2.1 (λ k, k ∈ keys) Hl) as [Hsub Hval].
  split; [exact Hsub|]. split; [exact Hval|].
  intros lights groups Hr. split; [by eapply async_setup_entry_lights|].
  intros light Hlight. by eapply async_setup_entry_light.
Qed.

(** *** Group entities *)

(** X10: Setup never removes or changes a group state. When it returns, the
    group entities are numbered from 0 in order, each has at least one
    member panel, every member is a panel of the layout, and each
    entity's key is in the group store; with group creation switched off
    there is no group entity and the group store is untouched. Setup
    raises only an IndexError, only with group creation on and a manual
    configuration that holds a negative index, and then the group store
    is untouched. *)
Theorem async_setup_entry_groups (entry_id : string) (coordinator : Coordinator)
    (create_groups : bool) (manual_groups : option (list (list Z)))
    (S G : gmap string CommandedState) :
  let r := async_setup_entry entry_id coordinator create_groups manual_groups S G in
  G ⊆ r.2.2 ∧
  (valid_store G → valid_store r.2.2) ∧
  (∀ lights groups, r.1 = Ok (lights, groups) →
     (create_groups = false → groups = [] ∧ r.2.2 = G) ∧
     (∀ (i : nat) g, groups !! i = Some g →
        grp_entry_id g = entry_id ∧ grp_index g = i ∧
        _panel_ids g ≠ [] ∧
        Forall (.∈ panelId <$> segments coordinator) (_panel_ids g) ∧
        is_Some (r.2.2 !! group_state_key entry_id i))) ∧
  (∀ e, r.1 = Raise e →
     create_groups = true ∧ e = IndexError ∧ r.2.2 = G ∧
     ∃ gs, manual_groups = Some gs ∧ Exists (Exists (λ i, i < 0)) gs).
Proof.
  intros r. unfold r, async_setup_entry.
  destruct (segment_entities entry_id 0 (segments coordinator) S) as [es st].
  destruct create_groups; cbn [fst snd].
  2: { split; [done|]. split; [done|]. split; [|done].
       intros lights groups [= <- <-]. split; [done|]. intros i g Hg. done. }
  destruct (setup_groups (segments coordinator) manual_groups) as [gs|e] eqn:Egs.
  2: { cbn [fst snd]. split; [done|]. split; [done|]. split; [done|].
       intros e' [= <-]. apply setup_groups_exn in Egs as [-> Hneg]. done. }
  pose proof (group_entities_fst entry_id 0 gs G) as Hfst.
  pose proof (λ k, group_entities_snd entry_id 0 gs G k) as Hsnd.
  destruct (group_entities entry_id 0 gs G) as [ges gst]. cbn [fst snd] in *.
  destruct (registered_valid G gst
              (λ k, k ∈ group_state_key entry_id <$> seq 0 (length gs)) Hsnd)
    as [Hsub Hval].
  split; [exact Hsub|]. split; [exact Hval|]. split; [|done].
  intros lights groups [= <- <-]. split; [done|].
  intros i g Hg. rewrite Hfst in Hg.
  apply list_lookup_imap_Some in Hg as (members & Hmem & ->). cbn.
  apply setup_groups_members in Egs.
  rewrite Forall_lookup in Egs. destruct (Egs i members Hmem) as [Hne Hin].
  split; [done|]. split; [done|].
  split; [by destruct members|].
  split.
  { apply Forall_fmap. eapply Forall_impl; [exact Hin|].
    intros seg Hseg. by apply list_elem_of_fmap_2. }
  rewrite Hsnd. destruct (G !! group_state_key entry_id i); [by eexists|].
  rewrite decide_True; [by eexists|].
  apply list_elem_of_fmap_2, elem_of_seq.
  apply lookup_lt_Some in Hmem. lia.
Qed.

(** *** An update after setup *)

(** X11: Setup establishes what a segment update relies on: for every segment
    entity that setup created, over a store of valid states, an update
    makes exactly one control-plane write, which lists every panel of
    the layout in layout order and shows the entity's panel in the colour
    just commanded. *)
Theorem setup_then_segment_update (entry_id : string) (coordinator : Coordinator)
    (create_groups : bool) (manual_groups : option (list (list Z)))
    (S G : gmap string CommandedState)
    (lights : list NanoleafSegmentLight) (groups : list NanoleafSegmentGroup)
    (light : NanoleafSegmentLight) (u : entity_update) (t : Z)
    (w : world) (tr : list io_call) :
  let r := async_setup_entry entry_id coordinator create_groups manual_groups S G in
  let key := segment_state_key (seg_entry_id light) (_panel_id light) in
  r.1 = Ok (lights, groups) →
  light ∈ lights →
  valid_store S →
  valid_update u →
  transition_tenths (update_transition u) = Ok t →
  ∃ entries,
    (segment_update light coordinator u r.2.1).2 w tr
      = (Ok tt,
         tr ++ [HttpPut (base_url (api coordinator) +:+ "/effects")
                  (CustomAnimation (tokens_text (anim_tokens entries t))) 5]) ∧
    entries.*1 = panelId <$> segments coordinator ∧
    (_panel_id light, shown (commanded u (state_get r.2.1 key))) ∈ entries.
Proof.
  intros r key Hr Hlight Hv Hu Ht.
  destruct (async_setup_entry_light entry_id coordinator create_groups
              manual_groups S G lights groups light Hr Hlight)
    as (Hentry & Hin & Hkey).
  fold r in Hkey.
  assert (valid_store r.2.1) as Hv'.
  { by apply (registered_valid S _ _
                (async_setup_entry_lookup entry_id coordinator create_groups
                   manual_groups S G)). }
  assert (segments coordinator ≠ []) as Hlay.
  { intros E. rewrite E in Hin. by apply elem_of_nil in Hin. }
  destruct (segment_update_run light coordinator u r.2.1 t w tr Hkey Hlay Hv' Hu Ht)
    as [_ Hrun].
  eexists. split; [exact Hrun|]. fold key. split.
  - unfold snapshot_entries. rewrite <- list_fmap_compose. by apply list_fmap_ext.
  - apply list_elem_of_fmap in Hin as (seg & Hid & Hseg).
    unfold snapshot_entries. apply list_elem_of_fmap. exists seg.
    split; [|done]. rewrite decide_True by done. by rewrite Hid.
Qed.

Lemma setup_then_segment_update_witness :
  ∃ entries,
    (segment_update panel_seven nine_coordinator turn_on_half
       (async_setup_entry "entry" nine_coordinator true None ∅ ∅).2.1).2 quiet_world []
      = (Ok tt,
         [] ++ [HttpPut (base_url (api nine_coordinator) +:+ "/effects")
                  (CustomAnimation (tokens_text (anim_tokens entries 5))) 5]) ∧
    entries.*1 = panelId <$> segments nine_coordinator ∧
    (7, shown (commanded turn_on_half
                 (state_get (async_setup_entry "entry" nine_coordinator true None ∅ ∅).2.1
                    (segment_state_key "entry" 7)))) ∈ entries.
Proof.
  eapply (setup_then_segment_update "entry" nine_coordinator true None ∅ ∅ _ _
            panel_seven turn_on_half 5 quiet_world []).
  - vm_compute. reflexivity.
  - repeat (first [by left | right]).
  - apply map_Forall_empty.
  - unfold valid_update, valid_kwargs, valid_rgb, byte_range; simpl; lia.
  - vm_compute. reflexivity.
Defined.

(** ** Group updates over the streaming channel *)

(** X12: With streaming enabled, fewer than 65536 members and every member id
    in 0..65535, the mapping of a group update always fits the frame: the
    update sends one datagram of 2 + 8 n bytes, n being the number of
    distinct members, and makes the reliable write after it only when
    the send itself raised. *)
Theorem group_update_streams (self : NanoleafSegmentGroup)
    (coordinator : Coordinator) (u : entity_update)
    (store : gmap string CommandedState) (w : world) (tr : list io_call) :
  let key := group_state_key (grp_entry_id self) (grp_index self) in
  let color := shown (commanded u (state_get store key)) in
  let panel_colors := group_panel_colors (_panel_ids self) color in
  let put := reliable_put (api coordinator) panel_colors 0 in
  let dgram :=
    UdpSendto (frame_bytes panel_colors 2) (host (api coordinator))
      (_udp_port (api coordinator)) in
  is_Some (store !! key) →
  valid_store store →
  valid_update u →
  streaming_enabled (api coordinator) = true →
  Forall (λ pid, 0 ≤ pid < 65536) (_panel_ids self) →
  Z.of_nat (length (_panel_ids self)) < 65536 →
  fits_frame panel_colors ∧
  (group_update self coordinator u store).2 w tr
    = (Ok tt, tr ++ match w dgram with
                    | None => [dgram]
                    | Some _ => [dgram; put]
                    end) ∧
  length (frame_bytes panel_colors 2) = (2 + 8 * length panel_colors)%nat ∧
  (length panel_colors ≤ length (_panel_ids self))%nat ∧
  (NoDup (_panel_ids self) → panel_colors.*1 = _panel_ids self).
Proof.
  intros key color panel_colors put dgram Hkey Hv Hu Hon Hids Hlen.
  assert (valid_state (commanded u (state_get store key))) as Hnew
    by (apply commanded_valid; [done|by apply state_get_valid]).
  destruct (group_panel_colors_spec (_panel_ids self) color) as (Hk & Hnd & Hall).
  fold panel_colors in Hk, Hnd, Hall.
  assert (length panel_colors ≤ length (_panel_ids self))%nat as Hle.
  { rewrite <- (length_fmap fst panel_colors).
    apply submseteq_length, NoDup_submseteq; [done|]. intros x. apply Hk. }
  assert (fits_frame panel_colors) as Hfit.
  { split; [lia|]. apply Forall_forall. intros [pid c] Hpc.
    rewrite Forall_forall in Hall. rewrite Forall_forall in Hids. split.
    - apply Hids, Hk. by apply (list_elem_of_fmap_2 fst) in Hpc.
    - specialize (Hall _ Hpc). simpl in Hall. subst c. simpl.
      by apply shown_valid. }
  split; [exact Hfit|]. split.
  { rewrite group_update_unfold. fold key. rewrite (alter_present _ store _ Hkey).
    cbn [snd].
    unfold _async_set_group_color, try_except, io_bind, io_lift.
    unfold state_get at 1. rewrite lookup_insert_eq. cbn [default from_option].
    rewrite visible_color_shown by done.
    fold color. fold panel_colors.
    rewrite set_multiple_panels_udp_run.
    rewrite Hon, (decide_True (P := fits_frame panel_colors)) by done.
    unfold Datatypes.id. fold color. fold panel_colors. fold dgram put.
    by destruct (w dgram). }
  split.
  { unfold frame_bytes. rewrite length_app, length_frame_entries. done. }
  split; [exact Hle|].
  intros Hnd'. unfold panel_colors, group_panel_colors.
  assert (∀ ids (d : list (Z * rgb)),
            NoDup (d.*1 ++ ids) →
            (foldl (λ pcs pid, dict_set pid color pcs) d ids).*1 = d.*1 ++ ids) as Hgen.
  { induction ids as [|p ids IH]; intros d Hd; simpl.
    - by rewrite app_nil_r.
    - rewrite IH.
      + rewrite dict_set_keys. apply NoDup_app in Hd as (_ & Hdis & _).
        rewrite decide_False by (intros Hin; apply (Hdis p Hin); left).
        by rewrite <- app_assoc.
      + rewrite dict_set_keys. apply NoDup_app in Hd as (Hd1 & Hdis & Hd2).
        rewrite decide_False by (intros Hin; apply (Hdis p Hin); left).
        rewrite <- app_assoc. simpl. apply NoDup_app. done. }
  by apply (Hgen (_panel_ids self) []).
Qed.

Lemma group_update_streams_witness :
  (group_update group_two nine_coordinator turn_on_half group_store).2 quiet_world []
  = (Ok tt,
     [UdpSendto
        (frame_bytes [(4, (128, 25, 0)); (5, (128, 25, 0)); (6, (128, 25, 0))] 2)
        "192.168.1.50" (Some 60222)]).
Proof.
  assert (valid_store group_store) as Hv.
  { unfold group_store. apply map_Forall_singleton.
    unfold valid_state, valid_rgb, byte_range. simpl. lia. }
  assert (is_Some (group_store !! group_state_key "entry" 1)) as Hkey
    by (unfold group_store; rewrite lookup_singleton_eq; by eexists).
  assert (valid_update turn_on_half) as Hu
    by (unfold valid_update, valid_kwargs, valid_rgb, byte_range; simpl; lia).
  destruct (group_update_streams group_two nine_coordinator turn_on_half
              group_store quiet_world [] Hkey Hv Hu eq_refl)
    as (_ & Hrun & _).
  - repeat constructor; lia.
  - simpl. lia.
  - rewrite Hrun. vm_compute. reflexivity.
Defined.

(** ** Automatic grouping, continued *)

Lemma filter_key_unique {A} (key : A → Z) (l : list A) k :
  NoDup (key <$> l) → (length (filter (λ a, key a = k) l) ≤ 1)%nat.
Proof.
  induction l as [|a l IH]; [simpl; lia|].
  rewrite fmap_cons, NoDup_cons. intros [Hnin Hnd].
  rewrite filter_cons. destruct (decide (key a = k)) as [Hk|Hk]; [|by apply IH].
  assert (filter (λ a, key a = k) l = []) as ->; [|simpl; lia].
  destruct (filter (λ a, key a = k) l) as [|b bs] eqn:E; [done|].
  assert (b ∈ filter (λ a, key a = k) l) as Hb by (rewrite E; left).
  apply list_elem_of_filter in Hb as [Hkb Hbl].
  exfalso. apply Hnin. rewrite Hk, <- Hkb. by apply list_elem_of_fmap_2.
Qed.

Lemma py_sorted_perm_eq {A} (key : A → Z) (l l' : list A) :
  l ≡ₚ l' → NoDup (key <$> l) → py_sorted key l = py_sorted key l'.
Proof.
  intros Hperm Hnd. symmetry. apply py_sorted_unique. split.
  - apply py_sorted_sorted.
  - intros k. rewrite py_sorted_filter.
    assert (filter (λ a, key a = k) l ≡ₚ filter (λ a, key a = k) l') as Hf
      by (by rewrite Hperm).
    pose proof (filter_key_unique key l k Hnd) as Hlen.
    destruct (filter (λ a, key a = k) l) as [|a [|b r]] eqn:E.
    + by apply Permutation_nil_l in Hf.
    + by apply Permutation_singleton_l in Hf.
    + simpl in Hlen. lia.
Qed.

(** X13: When no two panels have the same angle, automatic grouping depends
    on the set of panels only: any reordering of the layout gives the
    same groups, with the same members in the same order. *)
Theorem create_groups_by_position_order_free (segments segments' : list Panel)
    (group_size : Z) :
  segments ≡ₚ segments' →
  NoDup (angle_key <$> segments) →
  create_groups_by_position segments group_size
  = create_groups_by_position segments' group_size.
Proof.
  intros Hperm Hnd. unfold create_groups_by_position.
  by rewrite (py_sorted_perm_eq angle_key segments segments').
Qed.

Lemma create_groups_by_position_order_free_witness :
  create_groups_by_position six_panels 3
  = create_groups_by_position (reverse six_panels) 3.
Proof.
  apply (create_groups_by_position_order_free six_panels (reverse six_panels) 3).
  - symmetry. apply reverse_Permutation.
  - apply (bool_decide_unpack (NoDup (angle_key <$> six_panels))). vm_compute. exact I.
Defined.

(** X14: A group size of 0 makes automatic grouping raise ValueError, the
    error of [range] for a zero step; a negative one gives no group at
    all, whatever the layout. *)
Theorem create_groups_by_position_degenerate (segments : list Panel) (group_size : Z) :
  group_size ≤ 0 →
  create_groups_by_position segments group_size
  = if group_size =? 0 then Raise ValueError else Ok [].
Proof.
  intros Hle. unfold create_groups_by_position, py_range.
  destruct (group_size =? 0) eqn:E0; [done|]. apply Z.eqb_neq in E0.
  destruct (0 <? group_size) eqn:E1; [apply Z.ltb_lt in E1; lia|].
  simpl. replace (Z.to_nat (0 - _)) with 0%nat by lia. done.
Qed.

Lemma create_groups_by_position_degenerate_witness :
  create_groups_by_position six_panels 0 = Raise ValueError ∧
  create_groups_by_position six_panels (-3) = Ok [].
Proof.
  split.
  - apply (create_groups_by_position_degenerate six_panels 0). lia.
  - apply (create_groups_by_position_degenerate six_panels (-3)). lia.
Defined.

(** ** Options flow *)

(** *** Strings *)

Lemma app_String c (s1 s2 : string) : String c s1 +:+ s2 = String c (s1 +:+ s2).
Proof. reflexivity. Qed.

Lemma app_empty (s : string) : EmptyString +:+ s = s.
Proof. reflexivity. Qed.

Lemma all_chars_app p s1 s2 :
  all_chars p (s1 +:+ s2) = all_chars p s1 && all_chars p s2.
Proof.
  induction s1 as [|c s1 IH]; [done|].
  rewrite app_String. cbn [all_chars]. rewrite IH. by destruct (p c).
Qed.

Lemma all_chars_impl (p q : ascii → bool) s :
  (∀ c, p c = true → q c = true) → all_chars p s = true → all_chars q s = true.
Proof.
  intros Hpq. induction s as [|c s IH]; [done|]. cbn [all_chars].
  intros [Hc Hs]%andb_prop. rewrite (Hpq c Hc). by apply IH.
Qed.

Lemma lstrip_with_id space s :
  all_chars (λ c, negb (space c)) s = true → lstrip_with space s = s.
Proof.
  destruct s as [|c s]; [done|]. cbn [all_chars lstrip_with].
  intros [Hc _]%andb_prop. by destruct (space c).
Qed.

Lemma rstrip_with_id space s :
  all_chars (λ c, negb (space c)) s = true → rstrip_with space s = s.
Proof.
  induction s as [|c s IH]; [done|]. cbn [all_chars rstrip_with].
  intros [Hc Hs]%andb_prop. rewrite IH by done.
  destruct s; [|done]. by destruct (space c).
Qed.

Lemma rstrip_with_app space s1 s2 :
  rstrip_with space s2 = s2 → s2 ≠ EmptyString →
  rstrip_with space (s1 +:+ s2) = s1 +:+ s2.
Proof.
  intros Hid Hne. induction s1 as [|c s1 IH]; [done|].
  rewrite app_String. cbn [rstrip_with]. rewrite IH.
  destruct (s1 +:+ s2) eqn:E; [|done].
  destruct s1; [|done]. by rewrite app_empty in E.
Qed.

Lemma py_split_no_sep sep s :
  all_chars (λ c, negb (bool_decide (c = sep))) s = true → py_split sep s = [s].
Proof.
  induction s as [|c s IH]; [done|]. cbn [all_chars py_split].
  intros [Hc Hs]%andb_prop. rewrite IH by done.
  destruct (decide (c = sep)) as [->|]; [|done].
  by rewrite bool_decide_eq_true_2 in Hc.
Qed.

Lemma py_split_app sep s1 s2 :
  all_chars (λ c, negb (bool_decide (c = sep))) s1 = true →
  py_split sep (s1 +:+ String sep s2) = s1 :: py_split sep s2.
Proof.
  induction s1 as [|c s1 IH].
  - intros _. rewrite app_empty. cbn [py_split]. by rewrite decide_True.
  - cbn [all_chars]. intros [Hc Hs]%andb_prop.
    rewrite app_String. cbn [py_split]. rewrite IH by done.
    destruct (decide (c = sep)) as [->|]; [|done].
    by rewrite bool_decide_eq_true_2 in Hc.
Qed.

Lemma numeric_not_space c :
  numeric_char c = true → py_isspace c = false ∧ int_space c = false.
Proof.
  destruct c as [[] [] [] [] [] [] [] []]; vm_compute; intros; done.
Qed.

Lemma index_char_facts c :
  index_char c = true →
  py_isspace c = false ∧ int_space c = false ∧ c ≠ ";"%char.
Proof.
  destruct c as [[] [] [] [] [] [] [] []]; vm_compute; intros; done.
Qed.

Lemma numeric_not_comma c : numeric_char c = true → c ≠ ","%char.
Proof.
  destruct c as [[] [] [] [] [] [] [] []]; vm_compute; intros; done.
Qed.

(** *** Printed ints *)

Lemma digit_of_pretty_N_char (d : N) :
  (d < 10)%N →
  digit_of (pretty_N_char d) = Some (Z.of_N d) ∧
  pretty_N_char d ≠ "_"%char ∧ pretty_N_char d ≠ "-"%char ∧
  pretty_N_char d ≠ "+"%char ∧ numeric_char (pretty_N_char d) = true.
Proof.
  intros Hd.
  assert (d = 0 ∨ d = 1 ∨ d = 2 ∨ d = 3 ∨ d = 4 ∨ d = 5 ∨ d = 6 ∨ d = 7
          ∨ d = 8 ∨ d = 9)%N as Hcases by lia.
  repeat (destruct Hcases as [->|Hcases]); try subst d; vm_compute; done.
Qed.

(** The digits that [pretty_N_go] puts in front of [s]: their number [k]
    is positive, they are read back by [int_digits] as the number
    printed, and the first of them is a digit. *)
Lemma pretty_N_go_digits (x : N) :
  (0 < x)%N →
  ∃ k : nat, (0 < k)%nat ∧
    ∀ s,
      String.length (pretty_N_go x s) = (k + String.length s)%nat ∧
      (∀ p, (∀ c, numeric_char c = true → p c = true) →
         all_chars p (pretty_N_go x s) = all_chars p s) ∧
      (∃ c s', pretty_N_go x s = String c s' ∧
               c ≠ "-"%char ∧ c ≠ "+"%char) ∧
      ∀ v d b,
        int_digits (pretty_N_go x s) v d b
        = int_digits s (v * 10 ^ Z.of_nat k + Z.of_N x) (d + Z.of_nat k) true.
Proof.
  induction (N.lt_wf_0 x) as [x _ IH]. intros Hx.
  destruct (digit_of_pretty_N_char (x `mod` 10)%N) as (Hdig & Hus & Hminus & Hplus & Hnum).
  { by apply N.mod_lt. }
  assert (Z.of_N x = 10 * Z.of_N (x `div` 10) + Z.of_N (x `mod` 10)) as Hx10.
  { rewrite (N.div_mod x 10) at 1 by done. lia. }
  destruct (decide (x `div` 10 = 0)%N) as [Hsmall|Hbig].
  - exists 1%nat. split; [lia|]. intros s.
    rewrite pretty_N_go_step, Hsmall, pretty_N_go_0 by done.
    split; [done|]. split.
    { intros p Hp. cbn [all_chars]. by rewrite (Hp _ Hnum). }
    split; [by eexists _, _|].
    intros v d b. cbn [int_digits].
    rewrite decide_False by done. rewrite Hdig.
    rewrite Hx10, Hsmall. f_equal; lia.
  - destruct (IH (x `div` 10)%N) as (k & Hk & Hgo).
    { by apply N.div_lt. }
    { by apply N.neq_0_lt_0. }
    exists (S k). split; [lia|]. intros s.
    rewrite pretty_N_go_step by done.
    destruct (Hgo (String (pretty_N_char (x `mod` 10)) s))
      as (Hlen & Hall & Hfirst & Hint).
    split; [rewrite Hlen; simpl; lia|]. split.
    { intros p Hp. rewrite Hall by done. cbn [all_chars]. by rewrite (Hp _ Hnum). }
    split; [exact Hfirst|].
    intros v d b. rewrite Hint. cbn [int_digits].
    rewrite decide_False by done. rewrite Hdig.
    rewrite Hx10, Nat2Z.inj_succ, Z.pow_succ_r by lia. f_equal; lia.
Qed.

Lemma pretty_Z_chars (i : Z) : all_chars numeric_char (pretty i) = true.
Proof.
  destruct i as [|p|p]; [done| |].
  - change (pretty (Z.pos p)) with (pretty_N_go (N.pos p) EmptyString).
    destruct (pretty_N_go_digits (N.pos p)) as (k & _ & Hgo); [lia|].
    destruct (Hgo EmptyString) as (_ & Hall & _). by rewrite Hall.
  - change (pretty (Z.neg p)) with (String "-" (pretty_N_go (N.pos p) EmptyString)).
    destruct (pretty_N_go_digits (N.pos p)) as (k & _ & Hgo); [lia|].
    destruct (Hgo EmptyString) as (_ & Hall & _). cbn [all_chars]. by rewrite Hall.
Qed.

Lemma pretty_Z_nonempty (i : Z) : pretty i ≠ EmptyString.
Proof.
  destruct i as [|p|p]; [done| |done].
  change (pretty (Z.pos p)) with (pretty_N_go (N.pos p) EmptyString).
  destruct (pretty_N_go_digits (N.pos p)) as (k & _ & Hgo); [lia|].
  destruct (Hgo EmptyString) as (_ & _ & (c & s' & -> & _) & _). done.
Qed.

Lemma py_strip_numeral s : all_chars numeric_char s = true → py_strip s = s.
Proof.
  intros Hs. unfold py_strip.
  assert (all_chars (λ c, negb (py_isspace c)) s = true) as Hns.
  { eapply all_chars_impl; [|exact Hs]. intros c Hc.
    by rewrite (proj1 (numeric_not_space c Hc)). }
  by rewrite lstrip_with_id, rstrip_with_id.
Qed.

Lemma py_int_of_str_pretty (i : Z) : printable i → py_int_of_str (pretty i) = Ok i.
Proof.
  intros Hlim. unfold py_int_of_str.
  assert (all_chars (λ c, negb (int_space c)) (pretty i) = true) as Hns.
  { eapply all_chars_impl; [|apply pretty_Z_chars]. intros c Hc.
    by rewrite (proj2 (numeric_not_space c Hc)). }
  rewrite lstrip_with_id, rstrip_with_id by (by rewrite ?lstrip_with_id).
  unfold printable in Hlim.
  destruct i as [|p|p]; [done| |].
  - change (pretty (Z.abs (Z.pos p))) with (pretty_N_go (N.pos p) EmptyString) in Hlim.
    change (pretty (Z.pos p)) with (pretty_N_go (N.pos p) EmptyString).
    destruct (pretty_N_go_digits (N.pos p)) as (k & Hk & Hgo); [lia|].
    destruct (Hgo EmptyString) as (Hlen & _ & (c & s' & Hc & Hminus & Hplus) & Hint).
    rewrite Hlen in Hlim. simpl in Hlim.
    rewrite Hc, !decide_False by done. rewrite <- Hc, Hint.
    cbn [int_digits].
    replace (int_max_str_digits <? 0 + Z.of_nat k) with false
      by (symmetry; apply Z.ltb_ge; lia).
    f_equal; lia.
  - change (pretty (Z.abs (Z.neg p))) with (pretty_N_go (N.pos p) EmptyString) in Hlim.
    change (pretty (Z.neg p)) with (String "-" (pretty_N_go (N.pos p) EmptyString)).
    destruct (pretty_N_go_digits (N.pos p)) as (k & Hk & Hgo); [lia|].
    destruct (Hgo EmptyString) as (Hlen & _ & _ & Hint).
    rewrite Hlen in Hlim. simpl in Hlim.
    rewrite decide_True by done. rewrite Hint.
    cbn [int_digits].
    replace (int_max_str_digits <? 0 + Z.of_nat k) with false
      by (symmetry; apply Z.ltb_ge; lia).
    f_equal; lia.
Qed.

Lemma py_str_of_int_printable (i : Z) : printable i → py_str_of_int i = Ok (pretty i).
Proof.
  unfold printable, py_str_of_int. intros Hlim.
  by replace (int_max_str_digits <? _) with false by (symmetry; apply Z.ltb_ge; lia).
Qed.

Lemma str_all_printable g : Forall printable g → str_all g = Ok (pretty <$> g).
Proof.
  induction 1 as [|i g Hi _ IH]; [done|].
  cbn [str_all]. by rewrite py_str_of_int_printable, IH.
Qed.

Lemma join_groups_printable gs :
  Forall (Forall printable) gs → join_groups gs = Ok (group_text <$> gs).
Proof.
  induction 1 as [|g gs Hg _ IH]; [done|].
  cbn [join_groups]. by rewrite str_all_printable, IH.
Qed.

Lemma numeric_index_char c : numeric_char c = true → index_char c = true.
Proof. unfold index_char. by intros ->. Qed.

Lemma group_text_chars g : all_chars index_char (group_text g) = true.
Proof.
  unfold group_text. induction g as [|i g IH]; [done|].
  assert (all_chars index_char (pretty i) = true) as Hi
    by (eapply all_chars_impl; [apply numeric_index_char|apply pretty_Z_chars]).
  destruct g as [|j g]; [done|].
  rewrite fmap_cons, string_concat_cons by done.
  rewrite !all_chars_app, Hi, IH. done.
Qed.

Lemma group_text_nonempty g : g ≠ [] → group_text g ≠ EmptyString.
Proof.
  unfold group_text. destruct g as [|i g]; [done|]. intros _.
  pose proof (pretty_Z_nonempty i) as Hi.
  destruct g as [|j g]; [done|].
  rewrite fmap_cons, string_concat_cons by done.
  destruct (pretty i); done.
Qed.

Lemma py_split_group_text g :
  g ≠ [] → py_split ","%char (group_text g) = pretty <$> g.
Proof.
  unfold group_text. induction g as [|i g IH]; [done|]. intros _.
  assert (all_chars (λ c, negb (bool_decide (c = ","%char))) (pretty i) = true) as Hi.
  { eapply all_chars_impl; [|apply pretty_Z_chars]. intros c Hc.
    apply numeric_not_comma in Hc. by rewrite bool_decide_eq_false_2. }
  destruct g as [|j g]; [by apply py_split_no_sep|].
  rewrite fmap_cons, string_concat_cons by done.
  change ("," +:+ String.concat "," (pretty <$> j :: g))
    with (String ","%char (String.concat "," (pretty <$> j :: g))).
  rewrite py_split_app by done. by rewrite IH.
Qed.

Lemma parse_indices_pretty g : Forall printable g → parse_indices (pretty <$> g) = Ok g.
Proof.
  induction 1 as [|i g Hi _ IH]; [done|].
  rewrite fmap_cons. cbn [parse_indices].
  rewrite py_strip_numeral by apply pretty_Z_chars.
  by rewrite py_int_of_str_pretty, IH.
Qed.

Lemma index_not_space s :
  all_chars index_char s = true → all_chars (λ c, negb (py_isspace c)) s = true.
Proof.
  apply all_chars_impl. intros c Hc.
  by rewrite (proj1 (index_char_facts c Hc)).
Qed.

Lemma py_strip_index s : all_chars index_char s = true → py_strip s = s.
Proof.
  intros Hs%index_not_space. unfold py_strip.
  by rewrite lstrip_with_id, rstrip_with_id.
Qed.

Lemma py_strip_space_index s :
  all_chars index_char s = true → py_strip (" " +:+ s) = s.
Proof.
  intros Hs. unfold py_strip.
  change (" " +:+ s) with (String " "%char s). cbn [lstrip_with].
  change (py_isspace " ") with true. cbv iota.
  by apply py_strip_index.
Qed.

(** *** Reading back *)

Lemma parse_groups_pieces pieces gs :
  Forall2 (λ piece g, py_strip piece = group_text g) pieces gs →
  Forall (λ g, g ≠ []) gs →
  Forall (Forall printable) gs →
  parse_groups pieces = Ok gs.
Proof.
  induction 1 as [|piece g pieces gs Hpiece _ IH]; [done|].
  intros [Hne Hnes]%Forall_cons [Hp Hps]%Forall_cons.
  cbn [parse_groups]. rewrite Hpiece.
  pose proof (group_text_nonempty g Hne) as Hg.
  destruct (group_text g) as [|c s] eqn:E; [done|]. rewrite <- E.
  rewrite py_split_group_text, parse_indices_pretty by done.
  by rewrite IH.
Qed.

Lemma py_split_joined (pre : string) (parts : list string) :
  parts ≠ [] →
  all_chars (λ c, negb (bool_decide (c = ";"%char))) pre = true →
  Forall (λ p, all_chars index_char p = true) parts →
  py_split ";"%char (pre +:+ String.concat "; " parts)
  = match parts with
    | [] => []
    | p :: rest => (pre +:+ p) :: ((λ q, " " +:+ q) <$> rest)
    end.
Proof.
  assert (∀ s, all_chars index_char s = true →
               all_chars (λ c, negb (bool_decide (c = ";"%char))) s = true) as Hsemi.
  { intros s. apply all_chars_impl. intros c Hc.
    destruct (index_char_facts c Hc) as (_ & _ & Hne).
    by rewrite bool_decide_eq_false_2. }
  revert pre. induction parts as [|p parts IH]; [done|]. intros pre _ Hpre Hall.
  apply Forall_cons in Hall as [Hp Hall].
  destruct parts as [|p' parts].
  - cbn [String.concat fmap list_fmap]. apply py_split_no_sep.
    by rewrite all_chars_app, Hpre, Hsemi.
  - rewrite string_concat_cons by done.
    change ("; " +:+ String.concat "; " (p' :: parts))
      with (String ";"%char (" " +:+ String.concat "; " (p' :: parts))).
    rewrite <- string_app_assoc.
    rewrite py_split_app by (by rewrite all_chars_app, Hpre, Hsemi).
    rewrite IH by done. done.
Qed.

Lemma py_strip_joined (parts : list string) :
  parts ≠ [] →
  Forall (λ p, all_chars index_char p = true ∧ p ≠ EmptyString) parts →
  py_strip (String.concat "; " parts) = String.concat "; " parts ∧
  String.concat "; " parts ≠ EmptyString.
Proof.
  intros Hne Hall.
  assert (rstrip_with py_isspace (String.concat "; " parts) = String.concat "; " parts ∧
          String.concat "; " parts ≠ EmptyString) as [Hr Hnonempty].
  { induction Hall as [|p parts [Hp Hpne] Hall IH]; [done|].
    destruct parts as [|p' parts].
    - cbn [String.concat]. split; [|done].
      by apply rstrip_with_id, index_not_space.
    - destruct IH as [IHr IHne]; [done|].
      rewrite string_concat_cons by done. split.
      + rewrite <- string_app_assoc. by apply rstrip_with_app.
      + destruct p; done. }
  split; [|done]. unfold py_strip.
  destruct parts as [|p parts]; [done|].
  apply Forall_cons in Hall as [[Hp Hpne] _].
  assert (lstrip_with py_isspace (String.concat "; " (p :: parts))
          = String.concat "; " (p :: parts)) as ->; [|done].
  destruct p as [|c p]; [done|].
  cbn [all_chars] in Hp. apply andb_prop in Hp as [Hc _].
  destruct (index_char_facts c Hc) as (Hsp & _).
  destruct parts as [|p' parts].
  - cbn [String.concat lstrip_with]. by rewrite Hsp.
  - rewrite string_concat_cons by done. rewrite app_String.
    cbn [lstrip_with]. by rewrite Hsp.
Qed.

(** X15: The text that the options form shows for the stored groups is read
    back by [_parse_group_config] as exactly these groups, when no
    stored group is empty and every index is an int that [str] prints. *)
Theorem parse_group_config_roundtrip (current_groups : list (list Z)) :
  Forall (λ g, g ≠ []) current_groups →
  Forall (Forall printable) current_groups →
  ∃ text,
    group_str current_groups = Ok text ∧
    _parse_group_config text = Ok current_groups.
Proof.
  intros Hne Hprint. unfold group_str.
  destruct current_groups as [|g gs]; [by eexists|].
  rewrite join_groups_printable by done. cbn [result_bind].
  eexists. split; [reflexivity|].
  set (parts := group_text <$> g :: gs).
  assert (Forall (λ p, all_chars index_char p = true ∧ p ≠ EmptyString) parts) as Hparts.
  { unfold parts. apply Forall_fmap. eapply Forall_impl; [exact Hne|].
    intros g' Hg'. simpl. split; [apply group_text_chars|by apply group_text_nonempty]. }
  destruct (py_strip_joined parts) as [Hstrip Hnonempty]; [done|done|].
  unfold _parse_group_config. rewrite Hstrip.
  destruct (String.concat "; " parts) as [|c s] eqn:E; [done|]. rewrite <- E.
  rewrite <- (app_empty (String.concat "; " parts)).
  rewrite py_split_joined; [|done|done|].
  2: { eapply Forall_impl; [exact Hparts|]. by intros p [? _]. }
  unfold parts. rewrite fmap_cons. rewrite app_empty.
  apply parse_groups_pieces; [|done|done].
  constructor.
  - apply py_strip_index, group_text_chars.
  - apply Forall2_fmap_l, Forall2_fmap_l, Forall_Forall2_diag, Forall_forall.
    intros g' _. apply py_strip_space_index, group_text_chars.
Qed.

Lemma parse_group_config_roundtrip_witness :
  ∃ text,
    group_str [[0; 1; 2]; [3; 4; 5]; [6; 7; 8]] = Ok text ∧
    _parse_group_config text = Ok [[0; 1; 2]; [3; 4; 5]; [6; 7; 8]].
Proof.
  apply (parse_group_config_roundtrip [[0; 1; 2]; [3; 4; 5]; [6; 7; 8]]).
  - repeat constructor; done.
  - repeat constructor; unfold printable; vm_compute; discriminate.
Defined.

(** *** What the parser returns *)

Lemma py_int_of_str_exn s e : py_int_of_str s = Raise e → e = ValueError.
Proof.
  unfold py_int_of_str.
  destruct (match rstrip_with int_space (lstrip_with int_space s) with
            | EmptyString => _
            | String c b => _
            end) as [sign body].
  destruct (int_digits body 0 0 false) as [[value digits]|]; [|congruence].
  destruct (int_max_str_digits <? digits); congruence.
Qed.

Lemma parse_indices_exn xs e : parse_indices xs = Raise e → e = ValueError.
Proof.
  induction xs as [|x xs IH]; [done|]. cbn [parse_indices].
  destruct (py_int_of_str (py_strip x)) as [i|e'] eqn:Ei; simpl.
  - destruct (parse_indices xs); simpl; [done|]. intros [= <-]. by apply IH.
  - intros [= <-]. by eapply py_int_of_str_exn.
Qed.

Lemma parse_indices_length xs indices :
  parse_indices xs = Ok indices → length indices = length xs.
Proof.
  revert indices. induction xs as [|x xs IH]; intros indices.
  - by intros [= <-].
  - cbn [parse_indices].
    destruct (py_int_of_str (py_strip x)); [|done]. simpl.
    destruct (parse_indices xs) as [r|]; [|done]. simpl.
    intros [= <-]. simpl. by rewrite (IH r).
Qed.

Lemma py_split_nonempty sep s : py_split sep s ≠ [].
Proof.
  destruct s as [|c s]; [done|]. cbn [py_split].
  destruct (decide (c = sep)); [done|]. by destruct (py_split sep s).
Qed.

Lemma parse_groups_shape pieces :
  (∀ groups, parse_groups pieces = Ok groups → Forall (λ g, g ≠ []) groups) ∧
  (∀ e, parse_groups pieces = Raise e → e = ValueError).
Proof.
  induction pieces as [|piece pieces [IHok IHexn]]; [split; [by intros ? [= <-]|done]|].
  cbn [parse_groups].
  destruct (py_strip piece) as [|c s] eqn:Ep; [by split|].
  destruct (parse_indices (py_split "," (String c s))) as [indices|e'] eqn:Ei.
  - destruct (parse_groups pieces) as [groups|e'']; simpl.
    + split; [|done]. intros ? [= <-]. constructor; [|by apply IHok].
      apply parse_indices_length in Ei.
      pose proof (py_split_nonempty "," (String c s)) as Hne.
      destruct indices; [|done]. destruct (py_split "," (String c s)); done.
    + split; [done|]. intros e [= <-]. by apply IHexn.
  - apply parse_indices_exn in Ei as ->. simpl. split; [done|]. by intros e [= <-].
Qed.

Lemma lstrip_with_all space s :
  all_chars space s = true → lstrip_with space s = EmptyString.
Proof.
  induction s as [|c s IH]; [done|]. cbn [all_chars lstrip_with].
  intros [-> Hs]%andb_prop. by apply IH.
Qed.

(** X16: Whatever the text, [_parse_group_config] returns no empty group and
    raises nothing but ValueError; a text of white space only, the empty
    text included, gives the empty list, which setup takes for automatic
    grouping. *)
Theorem parse_group_config_shape (config_str : string) :
  (∀ groups, _parse_group_config config_str = Ok groups →
     Forall (λ g, g ≠ []) groups) ∧
  (∀ e, _parse_group_config config_str = Raise e → e = ValueError) ∧
  (all_chars py_isspace config_str = true →
     _parse_group_config config_str = Ok [] ∧
     ∀ segments, setup_groups segments (Some [])
                 = create_groups_by_position segments DEFAULT_GROUP_SIZE).
Proof.
  unfold _parse_group_config. split; [|split].
  - destruct (py_strip config_str); [by intros ? [= <-]|].
    apply parse_groups_shape.
  - destruct (py_strip config_str); [done|]. apply parse_groups_shape.
  - intros Hsp. unfold py_strip. by rewrite lstrip_with_all.
Qed.

(** *** A negative index *)

(** X17: The options flow accepts an index below [-len(segments)]: the text
    of such an int parses to a one-member group, and platform setup with
    that group raises IndexError, so the entry gets no entities. *)
Theorem options_accept_negative_index (entry_id : string) (coordinator : Coordinator)
    (S G : gmap string CommandedState) (i : Z) :
  printable i →
  i < - Z.of_nat (length (segments coordinator)) →
  _parse_group_config (pretty i) = Ok [[i]] ∧
  (async_setup_entry entry_id coordinator true (Some [[i]]) S G).1 = Raise IndexError.
Proof.
  intros Hp Hi. split.
  - unfold _parse_group_config.
    rewrite py_strip_numeral by apply pretty_Z_chars.
    pose proof (pretty_Z_nonempty i) as Hne.
    destruct (pretty i) as [|c s] eqn:E; [done|]. rewrite <- E.
    rewrite py_split_no_sep.
    + apply parse_groups_pieces; [|by repeat constructor|by repeat constructor].
      repeat constructor. apply py_strip_numeral, pretty_Z_chars.
    + eapply all_chars_impl; [|apply (group_text_chars [i])].
      intros c' Hc'. destruct (index_char_facts c' Hc') as (_ & _ & Hsemi).
      by rewrite bool_decide_eq_false_2.
  - unfold async_setup_entry.
    destruct (segment_entities entry_id 0 (segments coordinator) S) as [es st].
    assert (setup_groups (segments coordinator) (Some [[i]]) = Raise IndexError) as ->;
      [|done].
    unfold setup_groups. cbn [manual_groups_loop group_segments_of].
    replace (i <? Z.of_nat (length (segments coordinator))) with true
      by (symmetry; apply Z.ltb_lt; lia).
    unfold py_getitem.
    replace (i <? 0) with true by (symmetry; apply Z.ltb_lt; lia).
    replace (i + Z.of_nat (length (segments coordinator)) <? 0) with true
      by (symmetry; apply Z.ltb_lt; lia).
    done.
Qed.

Lemma options_accept_negative_index_witness :
  _parse_group_config "-10" = Ok [[-10]] ∧
  (async_setup_entry "entry" nine_coordinator true (Some [[-10]]) ∅ ∅).1
    = Raise IndexError.
Proof.
  apply (options_accept_negative_index "entry" nine_coordinator ∅ ∅ (-10)).
  - unfold printable. vm_compute. discriminate.
  - simpl. lia.
Defined.

(** ** The batch service *)






(** ** The update coordinator *)

Lemma async_update_data_step self api_get_state api_get_all_segments (w : world) tr :
  ∃ outcome self' tr',
    _async_update_data self api_get_state api_get_all_segments w tr
      = (Ok (outcome, self'), tr') ∧
    coordinator_api self' = coordinator_api self ∧
    match _segments self with
    | Some s =>
        self' = self ∧ tr' = (api_get_state w tr).2 ∧
        outcome = match (api_get_state w tr).1 with
                  | Ok state => CoordinatorData state s
                  | Raise e => UpdateFailed e
                  end
    | None =>
        (outcome_segments outcome = None ∧ self' = self) ∨
        (∃ s, outcome_segments outcome = Some s ∧ _segments self' = Some s)
    end.
Proof.
  unfold _async_update_data, try_except, io_bind, io_ret.
  destruct (api_get_state w tr) as [[state|e] tr1]; cbn [fst snd].
  2: { eexists _, _, _. split; [reflexivity|]. split; [done|].
       destruct (_segments self); [done|]. by left. }
  destruct (_segments self) as [s|] eqn:Es.
  { eexists _, _, _. split; [reflexivity|]. rewrite Es. done. }
  destruct (api_get_all_segments w tr1) as [[s|e] tr2].
  - eexists _, _, _. split; [reflexivity|]. split; [done|]. right. by exists s.
  - eexists _, _, _. split; [reflexivity|]. split; [done|]. by left.
Qed.

(** X19: Whatever the reads do from one refresh to the next, a coordinator
    never reports two different segment lists: once a refresh has
    reported one, the coordinator holds it and every later refresh that
    reports data reports the same list. A coordinator that already holds
    a list is left unchanged by every refresh, and each refresh, failed
    or not, yields one outcome. *)
Theorem coordinator_segments_fixed (self : NanoleafDataUpdateCoordinator)
    (updates : list (M (option bool) * M (list Panel) * world)) (tr : list io_call) :
  let final := (run_updates self updates tr).1.1 in
  let outcomes := (run_updates self updates tr).1.2 in
  length outcomes = length updates ∧
  coordinator_api final = coordinator_api self ∧
  (is_Some (_segments self) → final = self) ∧
  (∀ o s, o ∈ outcomes → outcome_segments o = Some s → _segments final = Some s) ∧
  (∀ o1 o2 s1 s2, o1 ∈ outcomes → o2 ∈ outcomes →
     outcome_segments o1 = Some s1 → outcome_segments o2 = Some s2 → s1 = s2).
Proof.
  cbv zeta.
  assert (length (run_updates self updates tr).1.2 = length updates ∧
          coordinator_api (run_updates self updates tr).1.1 = coordinator_api self ∧
          (is_Some (_segments self) → (run_updates self updates tr).1.1 = self) ∧
          (∀ o s, o ∈ (run_updates self updates tr).1.2 →
             outcome_segments o = Some s →
             _segments (run_updates self updates tr).1.1 = Some s)) as (H1 & H2 & H3 & H4).
  { revert self tr. induction updates as [|[[gs ga] w] updates IH]; intros self tr.
    - cbn. split; [done|]. split; [done|]. split; [done|].
      intros o s Ho. by apply elem_of_nil in Ho.
    - cbn [run_updates].
      destruct (async_update_data_step self gs ga w tr)
        as (outcome & self' & tr' & -> & Hapi & Hstep).
      destruct (IH self' tr') as (IH1 & IH2 & IH3 & IH4).
      destruct (run_updates self' updates tr') as [[final outcomes] tr''].
      cbn [fst snd] in *.
      assert (is_Some (_segments self) → self' = self) as Hkeep.
      { intros [s Hs]. rewrite Hs in Hstep. by destruct Hstep. }
      split; [cbn [length]; by rewrite IH1|]. split; [congruence|]. split.
      { intros Hs. pose proof (Hkeep Hs) as E. rewrite E in IH3. by apply IH3. }
      intros o s [->|Ho]%elem_of_cons Hos; [|by eapply IH4].
      assert (_segments self' = Some s) as Hs'.
      { destruct (_segments self) as [s0|] eqn:Es.
        - destruct Hstep as (-> & _ & ->). rewrite Es.
          destruct (gs w tr).1; simpl in Hos; congruence.
        - destruct Hstep as [[Hnone _]|(s' & Hs' & Hc)]; congruence. }
      rewrite IH3 by (by rewrite Hs'). done. }
  split; [done|]. split; [done|]. split; [done|]. split; [done|].
  intros o1 o2 s1 s2 Ho1 Ho2 Hs1 Hs2.
  pose proof (H4 o1 s1 Ho1 Hs1). pose proof (H4 o2 s2 Ho2 Hs2). congruence.
Qed.

(** The calls of the state read. *)
Lemma get_state_run self device (w : world) tr :
  ∃ k, (get_state self device w tr).2
       = tr ++ take k [HttpGet (base_url self) 5; RaiseForStatus; ResponseJson] ∧
       match (get_state self device w tr).1 with
       | Ok state => state = answer_on device
       | Raise _ => True
       end.
Proof.
  unfold get_state, io_bind, perform, io_ret.
  destruct (w (HttpGet (base_url self) 5)); [by exists 1%nat|].
  destruct (w RaiseForStatus); [exists 2%nat; by rewrite <- app_assoc|].
  destruct (w ResponseJson); exists 3%nat; by rewrite <- !app_assoc.
Qed.

(** X20: The first refresh over a network that answers reads the state and
    then the layout, six calls, and keeps the segments computed from
    that layout. A later refresh, whatever the device then answers and
    whatever the network does, makes at most the three calls of the
    state read and none for the layout, leaves the coordinator as it
    is, and reports either a failure or the new state with the segments
    of the first refresh: a layout that changed on the device is not
    seen. *)
Theorem layout_is_read_once (api : NanoleafAPI) (device later : DeviceAnswers)
    (w : world) (tr tr2 : list io_call) :
  let fresh := {| coordinator_api := api; _segments := None |} in
  let segments := get_all_segments (answer_positionData device) in
  let holding := {| coordinator_api := api; _segments := Some segments |} in
  _async_update_data fresh (get_state api device)
    (NanoleafAPI_get_all_segments api device) quiet_world tr
  = (Ok (CoordinatorData (answer_on device) segments, holding),
     tr ++ [HttpGet (base_url api) 5; RaiseForStatus; ResponseJson;
            HttpGet (base_url api +:+ "/panelLayout/layout") 5; RaiseForStatus;
            ResponseJson]) ∧
  ∃ outcome k,
    _async_update_data holding (get_state api later)
      (NanoleafAPI_get_all_segments api later) w tr2
    = (Ok (outcome, holding),
       tr2 ++ take k [HttpGet (base_url api) 5; RaiseForStatus; ResponseJson]) ∧
    (outcome = CoordinatorData (answer_on later) segments ∨
     ∃ e, outcome = UpdateFailed e).
Proof.
  intros fresh segments holding. split.
  - unfold _async_update_data, try_except, io_bind, io_ret, get_state,
      NanoleafAPI_get_all_segments, get_layout, perform, quiet_world, io_bind, io_ret.
    cbn. by rewrite <- !app_assoc.
  - destruct (async_update_data_step holding (get_state api later)
                (NanoleafAPI_get_all_segments api later) w tr2)
      as (outcome & self' & tr' & Hrun & _ & Hstep).
    cbn [_segments holding] in Hstep. destruct Hstep as (-> & -> & ->).
    destruct (get_state_run api later w tr2) as (k & Hcalls & Hstate).
    exists (match (get_state api later w tr2).1 with
            | Ok state => CoordinatorData state segments
            | Raise e => UpdateFailed e
            end), k.
    rewrite Hrun, Hcalls. split; [done|].
    destruct (get_state api later w tr2).1 as [state|e]; [left; by subst|right; by eexists].
Qed.

(** ** From the layout to the entities *)

Lemma get_all_segments_ids positionData :
  panelId <$> get_all_segments positionData
  = panelId <$> filter (λ panel, shapeType panel = SHAPE_TYPE_LINE_SEGMENT) positionData.
Proof.
  unfold get_all_segments.
  destruct (filter _ positionData) as [|p ps] eqn:E; [done|].
  rewrite <- list_fmap_compose. by apply list_fmap_ext.
Qed.

Lemma get_all_segments_shape positionData :
  Forall (λ p, shapeType p = SHAPE_TYPE_LINE_SEGMENT ∧ is_Some (angle_deg p))
    (get_all_segments positionData).
Proof.
  unfold get_all_segments.
  assert (Forall (λ p, shapeType p = SHAPE_TYPE_LINE_SEGMENT)
            (filter (λ panel, shapeType panel = SHAPE_TYPE_LINE_SEGMENT) positionData))
    as Hf.
  { apply Forall_forall. intros p Hp. by apply list_elem_of_filter in Hp as [? _]. }
  destruct (filter _ positionData) as [|p ps] eqn:E; [done|].
  apply Forall_fmap. eapply Forall_impl; [exact Hf|].
  intros q Hq. simpl. split; [done|by eexists].
Qed.

(** X21: Over the segments that [get_all_segments] makes of a layout, setup
    creates one segment light for each component of shape type 18, in
    the order of the layout and numbered from 0; a component of any
    other shape type gets no entity, and every panel that gets one
    carries an angle. *)
Theorem lights_per_line_segment (entry_id : string) (session : NanoleafAPI)
    (positionData : list Panel) (create_groups : bool)
    (manual_groups : option (list (list Z))) (S G : gmap string CommandedState)
    (lights : list NanoleafSegmentLight) (groups : list NanoleafSegmentGroup) :
  let coordinator :=
    {| api := session; segments := get_all_segments positionData |} in
  let line_segments :=
    filter (λ panel, shapeType panel = SHAPE_TYPE_LINE_SEGMENT) positionData in
  (async_setup_entry entry_id coordinator create_groups manual_groups S G).1
    = Ok (lights, groups) →
  _panel_id <$> lights = panelId <$> line_segments ∧
  seg_index <$> lights = seq 0 (length line_segments) ∧
  Forall (λ p, shapeType p = SHAPE_TYPE_LINE_SEGMENT ∧ is_Some (angle_deg p))
    (segments coordinator).
Proof.
  intros coordinator line_segments Hr.
  apply async_setup_entry_lights in Hr. cbn [segments coordinator] in Hr.
  split; [|split; [|apply get_all_segments_shape]].
  - unfold line_segments. rewrite Hr, <- get_all_segments_ids.
    apply list_eq. intros i.
    rewrite !list_lookup_fmap, list_lookup_imap.
    by destruct (get_all_segments positionData !! i).
  - assert (length line_segments = length (get_all_segments positionData)) as ->.
    { unfold line_segments.
      by rewrite <- (length_fmap panelId (filter _ positionData)),
        <- get_all_segments_ids, length_fmap. }
    rewrite Hr. apply list_eq. intros i.
    rewrite list_lookup_fmap, list_lookup_imap.
    destruct (get_all_segments positionData !! i) as [p|] eqn:Ei; simpl.
    + symmetry. apply lookup_seq. split; [done|]. by eapply lookup_lt_Some.
    + symmetry. apply lookup_seq_ge. by apply lookup_ge_None.
Qed.

Lemma lights_per_line_segment_witness :
  ∃ lights,
    (async_setup_entry "entry"
       {| api := streaming_api;
          segments := get_all_segments
                        [segment_at 1 0 0;
                         {| panelId := 9; pos_x := 5; pos_y := 5; orientation := 0;
                            shapeType := 12; angle_deg := None |};
                         segment_at 2 100 0] |}
       false None ∅ ∅).1 = Ok (lights, []) ∧
    _panel_id <$> lights = [1; 2] ∧ seg_index <$> lights = [0; 1]%nat.
Proof.
  eexists. split; [reflexivity|].
  destruct (lights_per_line_segment "entry" streaming_api
              [segment_at 1 0 0;
               {| panelId := 9; pos_x := 5; pos_y := 5; orientation := 0;
                  shapeType := 12; angle_deg := None |};
               segment_at 2 100 0] false None ∅ ∅ _ [] eq_refl) as (Hids & Hidx & _).
  split; [exact Hids|exact Hidx].
Defined.




(** ** What a group entity reports *)

Lemma group_state_key_inj entry_id (i j : nat) :
  group_state_key entry_id i = group_state_key entry_id j → i = j.
Proof.
  unfold group_state_key. intros H.
  apply (inj (String.app entry_id)) in H.
  apply (inj (String.app "_group_")) in H.
  by apply (inj pretty) in H.
Qed.

(** X23: After [async_turn_on] a group entity reports the brightness and
    the colour just passed, or the stored ones where an argument was
    left out, and reports on unless the device as a whole is reported
    off; after [async_turn_off] it reports off, with brightness and
    colour kept. Neither changes what another group of the same entry
    reports. *)
Theorem group_update_reads_back (self other : NanoleafSegmentGroup)
    (coordinator : Coordinator) (kwargs : turn_on_kwargs) (transition : option pynum)
    (store : gmap string CommandedState) (data : option (option bool)) :
  is_Some (store !! group_state_key (grp_entry_id self) (grp_index self)) →
  grp_entry_id other = grp_entry_id self →
  grp_index other ≠ grp_index self →
  let on := (group_async_turn_on self coordinator kwargs store).1 in
  let off := (group_async_turn_off self coordinator transition store).1 in
  group_brightness self on
    = default (group_brightness self store) (kw_brightness kwargs) ∧
  group_rgb_color self on
    = default (group_rgb_color self store) (kw_rgb_color kwargs) ∧
  group_is_on self on data = global_on data ∧
  group_is_on self off data = false ∧
  group_brightness self off = group_brightness self store ∧
  group_rgb_color self off = group_rgb_color self store ∧
  (∀ s, s = on ∨ s = off →
     group_is_on other s data = group_is_on other store data ∧
     group_brightness other s = group_brightness other store ∧
     group_rgb_color other s = group_rgb_color other store).
Proof.
  intros Hkey Hentry Hindex on off.
  unfold on, off, group_async_turn_on, group_async_turn_off. cbn [fst].
  rewrite !(alter_present _ store _ Hkey).
  unfold group_brightness, group_rgb_color, group_is_on.
  set (key := group_state_key (grp_entry_id self) (grp_index self)).
  assert (∀ st, state_get (<[key := st]> store) key = st) as Hsame.
  { intros st. unfold state_get. by rewrite lookup_insert_eq. }
  assert (∀ st, state_get (<[key := st]> store)
                  (group_state_key (grp_entry_id other) (grp_index other))
                = state_get store
                    (group_state_key (grp_entry_id other) (grp_index other)))
    as Hother.
  { intros st. unfold state_get. rewrite lookup_insert_ne; [done|].
    unfold key. rewrite Hentry. intros Heq.
    apply group_state_key_inj in Heq. congruence. }
  rewrite !Hsame. cbn [turned_on turned_off is_on brightness rgb_color].
  split; [done|]. split; [done|].
  split; [by destruct data as [[[]|]|]|].
  split; [by destruct data as [[[]|]|]|].
  split; [done|]. split; [done|].
  intros s [->| ->]; by rewrite Hother.
Qed.

Lemma group_update_reads_back_witness :
  group_brightness group_two
    (group_async_turn_on group_two nine_coordinator
       {| kw_brightness := Some 128; kw_rgb_color := None; kw_transition := None |}
       group_store).1 = 128 ∧
  group_is_on group_two
    (group_async_turn_off group_two nine_coordinator None group_store).1 (Some None)
    = false.
Proof.
  destruct (group_update_reads_back group_two
              {| grp_entry_id := "entry"; _panel_ids := [1; 2; 3]; grp_index := 0 |}
              nine_coordinator
              {| kw_brightness := Some 128; kw_rgb_color := None; kw_transition := None |}
              None group_store (Some None)) as (Hb & _ & _ & Hoff & _).
  - unfold group_store. rewrite lookup_singleton_eq. by eexists.
  - reflexivity.
  - simpl. lia.
  - split; [exact Hb|exact Hoff].
Defined.
